(** * EasyPAML: batch engine and result-text parser

    A shallow embedding of the back end of EasyPAML
    ([src/backend/codeml_backend.py], [src/backend/sites_parser.py]) and the
    properties its specification states about it.

    The first part holds the definitions: the Python primitives the program
    relies on ([Py], [Num], [Re]), then the program itself ([SitesParser],
    [Stream], [Backend]), then two readings of the specification
    ([TableSpec], [TagSpec]) and sample inputs ([Samples]).  The second part
    holds the properties, one module per subject.

    Conventions of the embedding.
    - Python [str] is [string]; the text is taken to be ASCII (one [ascii]
      per code point), which is what the external program prints.
    - Python [float] is an exact rational [Q], kept reduced ([Qred]).  The
      numbers handled are short decimals read from reports; sign tests,
      tests against zero, comparisons with the bounds -10, 100, 999 and the
      middle element of an odd-length sample are exact on them.
    - Python [dict] is a [gmap] where only lookups matter and an association
      list in insertion order where the iteration order is observed; a
      [set] iterates in an order the program does not control, which is a
      parameter here.
    - Exceptions are [option] results; a file is the text it holds; what the
      outside world does in a run (the lines of the two pipes, how the
      process ends, the report it leaves) is a value handed to the run. *)

From Stdlib Require Import ZArith QArith Ascii String List Bool Lia Lqa DecimalString DecimalPos.
From stdpp Require Import base list strings gmap sorting.

Local Open Scope string_scope.
Local Open Scope list_scope.

(** ** Python string primitives *)

Module Py.

(** [str.isspace] on ASCII: TAB..CR, FS..US and the blank. *)
Definition isspace (c : ascii) : bool :=
  let n := nat_of_ascii c in
  ((9 <=? n)%nat && (n <=? 13)%nat) || ((28 <=? n)%nat && (n <=? 32)%nat).

Definition isdigit (c : ascii) : bool :=
  let n := nat_of_ascii c in (48 <=? n)%nat && (n <=? 57)%nat.

Definition isupper (c : ascii) : bool :=
  let n := nat_of_ascii c in (65 <=? n)%nat && (n <=? 90)%nat.

Definition islower (c : ascii) : bool :=
  let n := nat_of_ascii c in (97 <=? n)%nat && (n <=? 122)%nat.

(** [\w] of the [re] module on ASCII. *)
Definition isword (c : ascii) : bool :=
  isdigit c || isupper c || islower c || Ascii.eqb c "_"%char.

Definition lower_ascii (c : ascii) : ascii :=
  if isupper c then ascii_of_nat (nat_of_ascii c + 32) else c.

(** [s.lower()] *)
Fixpoint lower (s : string) : string :=
  match s with
  | EmptyString => EmptyString
  | String c s' => String (lower_ascii c) (lower s')
  end.

(** [needle in hay] *)
Fixpoint contains (needle hay : string) : bool :=
  String.prefix needle hay ||
  match hay with
  | EmptyString => false
  | String _ hay' => contains needle hay'
  end.

(** [w] occurs in [s]: the relation [needle in hay] decides. *)
Definition occurs (w s : string) : Prop := ∃ pre post, s = pre +:+ w +:+ post.

(** [s.startswith(p)] *)
Definition startswith (p s : string) : bool := String.prefix p s.

(** [s.lstrip()], [s.rstrip()], [s.strip()] *)
Fixpoint lstrip (s : string) : string :=
  match s with
  | EmptyString => EmptyString
  | String c s' => if isspace c then lstrip s' else s
  end.

Fixpoint rstrip (s : string) : string :=
  match s with
  | EmptyString => EmptyString
  | String c s' =>
      match rstrip s' with
      | EmptyString => if isspace c then EmptyString else String c EmptyString
      | r => String c r
      end
  end.

Definition strip (s : string) : string := rstrip (lstrip s).

(** [s.split()]: maximal runs of non-blank characters. *)
Fixpoint split_ws (s : string) : list string :=
  match s with
  | EmptyString => []
  | String c s' =>
      if isspace c then split_ws s'
      else
        match s' with
        | EmptyString => [String c EmptyString]
        | String c' _ =>
            if isspace c' then String c EmptyString :: split_ws s'
            else
              match split_ws s' with
              | t :: ts => String c t :: ts
              | [] => [String c EmptyString]
              end
        end
  end.

(** [s.split(sep)] for a one-character separator: never empty. *)
Fixpoint split_char (sep : ascii) (s : string) : list string :=
  match s with
  | EmptyString => [EmptyString]
  | String c s' =>
      if Ascii.eqb c sep then EmptyString :: split_char sep s'
      else
        match split_char sep s' with
        | t :: ts => String c t :: ts
        | [] => [String c EmptyString]
        end
  end.

(** [s.replace(c, '')] for a one-character [c]. *)
Fixpoint remove_char (c : ascii) (s : string) : string :=
  match s with
  | EmptyString => EmptyString
  | String x s' => if Ascii.eqb x c then remove_char c s' else String x (remove_char c s')
  end.

(** [sep.join(l)] *)
Fixpoint join (sep : string) (l : list string) : string :=
  match l with
  | [] => EmptyString
  | [x] => x
  | x :: r => x +:+ sep +:+ join sep r
  end.

(** [l[-n:]] *)
Definition last_n {A} (n : nat) (l : list A) : list A :=
  drop (length l - n) l.

(** A [dict] with [str] keys whose iteration order is observed: pairs in the
    order the keys were first assigned. *)
Definition dict (V : Type) : Type := list (string * V).

Fixpoint dict_get {V} (k : string) (d : dict V) : option V :=
  match d with
  | [] => None
  | (k', v) :: r => if String.eqb k k' then Some v else dict_get k r
  end.

(** [d[k] = v] *)
Fixpoint dict_set {V} (k : string) (v : V) (d : dict V) : dict V :=
  match d with
  | [] => [(k, v)]
  | (k', v') :: r => if String.eqb k k' then (k, v) :: r else (k', v') :: dict_set k v r
  end.

(** [s.endswith(p)] *)
Definition endswith (p s : string) : bool :=
  let n := String.length s in
  let k := String.length p in
  (k <=? n)%nat && String.eqb (String.substring (n - k) k s) p.

(** [s.split(sep)[0]]: what stands before the first [sep], all of [s] when
    [sep] does not occur. *)
Fixpoint before_first (sep s : string) : string :=
  if String.prefix sep s then EmptyString
  else
    match s with
    | EmptyString => EmptyString
    | String c s' => String c (before_first sep s')
    end.

(** [s.count(sub)] for a non-empty [sub]: occurrences that do not overlap,
    counted from the left; [skip] characters of a hit are still to pass. *)
Fixpoint count_from (sub : string) (skip : nat) (s : string) : nat :=
  match s with
  | EmptyString => 0
  | String _ s' =>
      match skip with
      | S k => count_from sub k s'
      | O =>
          if String.prefix sub s
          then S (count_from sub (String.length sub - 1) s')
          else count_from sub 0 s'
      end
  end.

Definition count (sub s : string) : nat := count_from sub 0 s.

Definition LF : ascii := ascii_of_nat 10.
Definition CR : ascii := ascii_of_nat 13.
Definition TAB : ascii := ascii_of_nat 9.

End Py.

(** ** Python numbers: [float] as exact rationals, [int] as [Z] *)

Module Num.
Import Py.
Local Open Scope Z_scope.

Definition digit_val (c : ascii) : Z := Z.of_nat (nat_of_ascii c) - 48.

(** Reads [digit (["_"] digit)*] after a first digit has been read: the value
    so far, the number of digits so far, and what is left. *)
Fixpoint scan_digits (acc : Z) (n : nat) (s : string) : Z * nat * string :=
  match s with
  | EmptyString => (acc, n, s)
  | String c s' =>
      if isdigit c then scan_digits (10 * acc + digit_val c) (S n) s'
      else if Ascii.eqb c "_"%char then
        match s' with
        | String c2 s'' =>
            if isdigit c2 then scan_digits (10 * acc + digit_val c2) (S n) s''
            else (acc, n, s)
        | EmptyString => (acc, n, s)
        end
      else (acc, n, s)
  end.

(** An optional digit part: no digit read leaves the text untouched. *)
Definition digitpart (s : string) : Z * nat * string :=
  match s with
  | String c s' => if isdigit c then scan_digits (digit_val c) 1%nat s' else (0, 0%nat, s)
  | EmptyString => (0, 0%nat, s)
  end.

Definition sign (s : string) : bool * string :=
  match s with
  | String "-"%char s' => (true, s')
  | String "+"%char s' => (false, s')
  | _ => (false, s)
  end.

(** The value [m * 10^e], reduced. *)
Definition scale10 (m e : Z) : Q :=
  if (0 <=? e)%Z then Qred (Qmake (m * 10 ^ e) 1)
  else Qred (Qmake m (Z.to_pos (10 ^ (- e)))).

(** [float(s)] on a decimal literal: blanks around it, a sign, digits with an
    optional point, an optional exponent; [None] is [ValueError].  The
    spellings of infinity and not-a-number are answered [None] as well: every
    caller below rejects them through its bounds test, as it rejects a text
    that does not parse. *)
Definition float_of_string (s : string) : option Q :=
  let '(neg, s1) := sign (strip s) in
  let '(ip, ni, r1) := digitpart s1 in
  let '(fp, nf, r2) :=
    match r1 with
    | String "."%char r => digitpart r
    | _ => (0%Z, 0%nat, r1)
    end in
  if (ni + nf =? 0)%nat then None
  else
    let m := (ip * 10 ^ Z.of_nat nf + fp)%Z in
    let m := if neg then (- m)%Z else m in
    match r2 with
    | EmptyString => Some (scale10 m (- Z.of_nat nf))
    | String c r3 =>
        if Ascii.eqb c "e"%char || Ascii.eqb c "E"%char then
          let '(eneg, r4) := sign r3 in
          match digitpart r4 with
          | (ev, S _, EmptyString) =>
              let ev := if eneg then (- ev)%Z else ev in
              Some (scale10 m (ev - Z.of_nat nf))
          | _ => None
          end
        else None
    end.

(** [int(s)] on a run of digits, as the patterns [(\d+)] capture it. *)
Definition int_of_digits (s : string) : option Z :=
  match digitpart s with
  | (v, S _, EmptyString) => if contains "_" s then None else Some v
  | _ => None
  end.

(** [str(n)] for an integer. *)
Definition str_of_Z (z : Z) : string :=
  DecimalString.NilZero.string_of_int (Z.to_int z).

Definition str_of_nat (n : nat) : string := str_of_Z (Z.of_nat n).

(** Nearest integer, ties to even. *)
Definition round_half_even (q : Q) : Z :=
  let n := Qnum q in
  let d := Zpos (Qden q) in
  let fl := (n / d)%Z in
  let r2 := (2 * (n - fl * d))%Z in
  if (r2 <? d)%Z then fl
  else if (d <? r2)%Z then (fl + 1)%Z
  else if Z.even fl then fl else (fl + 1)%Z.

Fixpoint zeros (n : nat) : string :=
  match n with
  | O => EmptyString
  | S n' => String "0"%char (zeros n')
  end.

(** The [prec] last characters of [s] split off, [s] padded on the left with
    zeros so that one digit at least stays in front. *)
Definition split_fraction (prec : nat) (s : string) : string * string :=
  let s := zeros (S prec - String.length s)%nat +:+ s in
  let k := (String.length s - prec)%nat in
  (String.substring 0%nat k s, String.substring k prec s).

(** [f"{q:.{prec}f}"] of the exact value [q]: the nearest number with [prec]
    decimals, a tie going to the even digit.  Python formats the double it
    holds, whose exact value is seldom a tie: a decimal that lies exactly
    between two printed values here (0.0000025 with six decimals) prints
    there as the double nearest to it does (0.000003). *)
Definition format_fixed (prec : nat) (q : Q) : string :=
  let n := round_half_even (Qmult q (Qmake (10 ^ Z.of_nat prec) 1)) in
  let '(ip, fp) := split_fraction prec (str_of_Z (Z.abs n)) in
  let body := if (prec =? 0)%nat then ip else ip +:+ "." +:+ fp in
  if Qlt_le_dec q 0 then "-" +:+ body else body.

Fixpoint strip_zeros_rev (s : list ascii) : list ascii :=
  match s with
  | "0"%char :: r => strip_zeros_rev r
  | _ => s
  end.

Definition rstrip_zeros (s : string) : string :=
  string_of_list_ascii (rev (strip_zeros_rev (rev (list_ascii_of_string s)))).

(** [repr(q)] in positional notation, the form the interpreter prints for
    magnitudes from 1e-4 up to 1e16: the shortest decimal, one fractional
    digit at least.  A rational that is no finite decimal is cut after 17
    fractional digits. *)
Definition repr_float (q : Q) : string :=
  let n := (Z.abs (Qnum q) * 10 ^ 17 / Zpos (Qden q))%Z in
  let '(ip, fp) := split_fraction 17 (str_of_Z n) in
  let fp := rstrip_zeros fp in
  let fp := if String.eqb fp EmptyString then "0" else fp in
  let body := ip +:+ "." +:+ fp in
  if Qlt_le_dec q 0 then "-" +:+ body else body.

Definition Qleb (a b : Q) : bool := Qle_bool a b.
Definition Qltb (a b : Q) : bool := negb (Qle_bool b a).
Definition Qeqb (a b : Q) : bool := Qeq_bool a b.

(** The sanity bound [-10 <= x <= 100] of the parsers. *)
Definition in_bounds (x : Q) : bool := Qleb (-10 # 1) x && Qleb x (100 # 1).

(** A stable insertion sort: [sorted(l, key=...)] with [le x y] the comparison
    of the keys. *)
Fixpoint insert_by {A} (le : A → A → bool) (x : A) (l : list A) : list A :=
  match l with
  | [] => [x]
  | y :: r => if le x y then x :: l else y :: insert_by le x r
  end.

(** The comparison of [sorted(l, key=key)] for a numeric key. *)
Definition key_le {A} (key : A → nat) (x y : A) : bool := (key x <=? key y)%nat.

Definition sort_by {A} (le : A → A → bool) (l : list A) : list A :=
  foldr (insert_by le) [] l.

(** [float(np.median(l))] of a non-empty sample; [None] on the empty one. *)
Definition median (l : list Q) : option Q :=
  let s := sort_by Qleb l in
  let n := length s in
  if (n =? 0)%nat then None
  else if Nat.odd n then s !! (n / 2)%nat
  else
    match s !! (n / 2 - 1)%nat, s !! (n / 2)%nat with
    | Some a, Some b => Some (Qred (Qdiv (Qplus a b) (2 # 1)))
    | _, _ => None
    end.

End Num.

(** ** The fragment of [re] the program uses

    A backtracking matcher in continuation-passing style: it explores the
    alternatives in the order of the [re] module (greedy repetition takes the
    longest run first, lazy repetition the shortest, the left branch of an
    alternative goes first), so the first success is the match [re.search]
    reports.  Repetition is over one-character classes, which is all the
    patterns of the program need. *)

Module Re.
Import Py.

Inductive re : Type :=
| Eps
| Chr (c : ascii)
| Cls (p : ascii → bool)
| Star (p : ascii → bool) (greedy : bool)
| Plus (p : ascii → bool) (greedy : bool)
| Opt (r : re)
| Seq (r1 r2 : re)
| Alt (r1 r2 : re)
| Grp (r : re)
| Eos
| WordB.

(** The continuation receives the character before the position, the text
    left, and the groups captured so far (in the order they closed). *)
Definition cont : Type := option ascii → string → list string → option (list string).

Definition is_word_opt (c : option ascii) : bool :=
  match c with
  | Some c => isword c
  | None => false
  end.

Definition next_char (s : string) : option ascii :=
  match s with
  | String c _ => Some c
  | EmptyString => None
  end.

Section Matcher.

(** [re.IGNORECASE] *)
Variable ic : bool.

Definition chr_eq (a b : ascii) : bool :=
  if ic then Ascii.eqb (lower_ascii a) (lower_ascii b) else Ascii.eqb a b.

Fixpoint rep (greedy : bool) (p : ascii → bool) (prev : option ascii)
    (s : string) (caps : list string) (k : cont) {struct s} : option (list string) :=
  match s with
  | EmptyString => k prev s caps
  | String c s' =>
      if p c then
        if greedy then
          match rep greedy p (Some c) s' caps k with
          | Some r => Some r
          | None => k prev s caps
          end
        else
          match k prev s caps with
          | Some r => Some r
          | None => rep greedy p (Some c) s' caps k
          end
      else k prev s caps
  end.

Fixpoint run (r : re) (prev : option ascii) (s : string) (caps : list string)
    (k : cont) {struct r} : option (list string) :=
  match r with
  | Eps => k prev s caps
  | Chr c =>
      match s with
      | String d s' => if chr_eq c d then k (Some d) s' caps else None
      | EmptyString => None
      end
  | Cls p =>
      match s with
      | String d s' => if p d then k (Some d) s' caps else None
      | EmptyString => None
      end
  | Star p greedy => rep greedy p prev s caps k
  | Plus p greedy =>
      match s with
      | String d s' => if p d then rep greedy p (Some d) s' caps k else None
      | EmptyString => None
      end
  | Opt r1 =>
      match run r1 prev s caps k with
      | Some x => Some x
      | None => k prev s caps
      end
  | Seq r1 r2 => run r1 prev s caps (fun prev' s' caps' => run r2 prev' s' caps' k)
  | Alt r1 r2 =>
      match run r1 prev s caps k with
      | Some x => Some x
      | None => run r2 prev s caps k
      end
  | Grp r1 =>
      run r1 prev s caps (fun prev' s' caps' =>
        k prev' s' (caps' ++ [String.substring 0 (String.length s - String.length s') s]))
  | Eos =>
      match s with
      | EmptyString => k prev s caps
      | String c EmptyString => if Ascii.eqb c LF then k prev s caps else None
      | _ => None
      end
  | WordB =>
      if xorb (is_word_opt prev) (is_word_opt (next_char s)) then k prev s caps else None
  end.

Fixpoint search_from (r : re) (prev : option ascii) (s : string) {struct s}
    : option (list string) :=
  match run r prev s [] (fun _ _ caps => Some caps) with
  | Some caps => Some caps
  | None =>
      match s with
      | EmptyString => None
      | String c s' => search_from r (Some c) s'
      end
  end.

(** [re.search(r, s)]: the captured groups of the leftmost match. *)
Definition search (r : re) (s : string) : option (list string) :=
  search_from r None s.

End Matcher.

(** [m.group(1)] of a search result, [m.group(2)]. *)
Definition group1 (m : option (list string)) : option string :=
  match m with
  | Some (g :: _) => Some g
  | _ => None
  end.

Definition group2 (m : option (list string)) : option string :=
  match m with
  | Some (_ :: g :: _) => Some g
  | _ => None
  end.

(** Building patterns. *)
Fixpoint lit (s : string) : re :=
  match s with
  | EmptyString => Eps
  | String c s' => Seq (Chr c) (lit s')
  end.

Fixpoint seq (l : list re) : re :=
  match l with
  | [] => Eps
  | r :: l' => Seq r (seq l')
  end.

(** [\s], [\d], [.], [[\d.]], [[\d.\s]], [[-\d.]], [[^:]] *)
Definition ws : ascii → bool := isspace.
Definition dg : ascii → bool := isdigit.
Definition dot : ascii → bool := fun c => negb (Ascii.eqb c LF).
Definition dg_dot : ascii → bool := fun c => isdigit c || Ascii.eqb c "."%char.
Definition dg_dot_ws : ascii → bool := fun c => isdigit c || Ascii.eqb c "."%char || isspace c.
Definition minus_dg_dot : ascii → bool :=
  fun c => Ascii.eqb c "-"%char || isdigit c || Ascii.eqb c "."%char.
Definition not_colon : ascii → bool := fun c => negb (Ascii.eqb c ":"%char).

(** [(?:\n|$)] *)
Definition eol : re := Alt (Chr LF) Eos.

End Re.

(** ** [SitesParser]: reading the report of a run ([sites_parser.py])

    Every extractor opens the report and works on its text; here it takes the
    text.  A report that cannot be read makes each of them answer its absent
    value, through the [except] that wraps its body. *)

Module SitesParser.
Import Py Num Re.

Definition TABLE_HEADER : string := "dN & dS for each branch".

(** [for i, line in enumerate(lines): if TABLE_HEADER in line: ... break]:
    the lines after the first one that holds the header. *)
Fixpoint lines_after_header (lines : list string) : option (list string) :=
  match lines with
  | [] => None
  | line :: rest =>
      if contains TABLE_HEADER line then Some rest else lines_after_header rest
  end.

(** [range(i + 1, min(i + 200, len(lines)))] visits 199 lines at most. *)
Definition TABLE_BUDGET : nat := 199.

Definition GLOBAL_END_MARKERS : list string :=
  ["tree length"; "mlc"; "model"; "---"; "dS tree"; "dN tree"].

Definition BRANCH_END_MARKERS : list string :=
  ["tree length"; "dS tree"; "dN tree"; "---"].

(** [not data_line or 'branch' in data_line.lower()] *)
Definition skipped (data_line : string) : bool :=
  String.eqb data_line EmptyString || contains "branch" (lower data_line).

(** [any(x in data_line.lower() for x in markers)] *)
Definition at_end (markers : list string) (data_line : string) : bool :=
  existsb (fun x => contains x (lower data_line)) markers.

(** The [try] block of a data line: the fifth field as a ratio, kept when it
    lies within the bound; [ValueError] and a short line give nothing. *)
Definition row_omega (data_line : string) : option Q :=
  let parts := split_ws data_line in
  if (5 <=? length parts)%nat then
    match parts !! 4%nat with
    | Some omega_str =>
        match float_of_string omega_str with
        | Some omega => if in_bounds omega then Some omega else None
        | None => None
        end
    | None => None
    end
  else None.

(** The inner loop of [extract_omega_global]. *)
Fixpoint scan_global (rows : list string) (omegas : list Q) : list Q :=
  match rows with
  | [] => omegas
  | row :: rest =>
      let data_line := strip row in
      if skipped data_line then scan_global rest omegas
      else if at_end GLOBAL_END_MARKERS data_line then omegas
      else
        match row_omega data_line with
        | Some omega => scan_global rest (omegas ++ [omega])
        | None => scan_global rest omegas
        end
  end.

Definition extract_omega_global (content : string) : option Q :=
  if negb (contains TABLE_HEADER content) then None
  else
    let lines := split_char LF content in
    let omegas :=
      match lines_after_header lines with
      | Some rest => scan_global (take TABLE_BUDGET rest) []
      | None => []
      end in
    median omegas.

(** The inner loop of [extract_omega_by_branches]: as above, with the branch
    name of the row as key. *)
Fixpoint scan_branches (rows : list string) (branch_omegas : dict Q) : dict Q :=
  match rows with
  | [] => branch_omegas
  | row :: rest =>
      let data_line := strip row in
      if skipped data_line then scan_branches rest branch_omegas
      else if at_end BRANCH_END_MARKERS data_line then branch_omegas
      else
        match split_ws data_line, row_omega data_line with
        | branch :: _, Some omega => scan_branches rest (dict_set branch omega branch_omegas)
        | _, _ => scan_branches rest branch_omegas
        end
  end.

Definition extract_omega_by_branches (content : string) : dict Q :=
  if negb (contains TABLE_HEADER content) then []
  else
    match lines_after_header (split_char LF content) with
    | Some rest => scan_branches (take TABLE_BUDGET rest) []
    | None => []
    end.

(** The five patterns of [extract_omega_values_from_model_params], searched
    with [re.IGNORECASE]:
    [omega \(w\) for branches:\s*([\d.]+)], [w\s*=\s*([\d.]+)],
    [dN/dS.*?=\s*([\d.]+)], [w \(dN/dS\)\s*=\s*([\d.]+)], [\bw\s+=\s*([\d.]+)]. *)
Definition omega_patterns : list re :=
  [ seq [lit "omega (w) for branches:"; Star ws true; Grp (Plus dg_dot true)];
    seq [Chr "w"; Star ws true; Chr "="; Star ws true; Grp (Plus dg_dot true)];
    seq [lit "dN/dS"; Star dot false; Chr "="; Star ws true; Grp (Plus dg_dot true)];
    seq [lit "w (dN/dS)"; Star ws true; Chr "="; Star ws true; Grp (Plus dg_dot true)];
    seq [WordB; Chr "w"; Plus ws true; Chr "="; Star ws true; Grp (Plus dg_dot true)] ].

(** The loop over the patterns: the first match whose value is within the
    bound is returned; a captured text that is no number raises, and the
    [except] around the body answers [None]. *)
Fixpoint first_omega (patterns : list re) (content : string) : option Q :=
  match patterns with
  | [] => None
  | pattern :: rest =>
      match group1 (search true pattern content) with
      | Some g =>
          match float_of_string g with
          | Some omega => if in_bounds omega then Some omega else first_omega rest content
          | None => None
          end
      | None => first_omega rest content
      end
  end.

Definition extract_omega_values_from_model_params (content : string) : option Q :=
  first_omega omega_patterns content.

Definition extract_omega_robust (content : string) : option Q :=
  if contains "site class" content && contains "background w" content
     && contains "foreground w" content
  then None
  else
    match extract_omega_global content with
    | Some omega => Some omega
    | None =>
        match extract_omega_values_from_model_params content with
        | Some omega => Some omega
        | None => None
        end
    end.

(** [background\s+w\s+([\d.\s]+?)(?:\n|$)] and its foreground twin. *)
Definition branchsite_bg_pattern : re :=
  seq [lit "background"; Plus ws true; Chr "w"; Plus ws true; Grp (Plus dg_dot_ws false); eol].

Definition branchsite_fg_pattern : re :=
  seq [lit "foreground"; Plus ws true; Chr "w"; Plus ws true; Grp (Plus dg_dot_ws false); eol].

(** [w\s*\(dN/dS\)\s*for\s+branches?\s*:\s*([\d.\s]+?)(?:\n|$)], searched
    with [re.IGNORECASE]. *)
Definition multi_omega_pattern : re :=
  seq [Chr "w"; Star ws true; lit "(dN/dS)"; Star ws true; lit "for"; Plus ws true;
       lit "branche"; Opt (Chr "s"); Star ws true; Chr ":"; Star ws true;
       Grp (Plus dg_dot_ws false); eol].

(** First stage of [extract_omega_by_tags]: [Some d] when the function
    returns [d] from the background/foreground pair. *)
Definition tags_from_branchsite (content : string) : option (dict Q) :=
  match group1 (search false branchsite_bg_pattern content),
        group1 (search false branchsite_fg_pattern content) with
  | Some bg, Some fg =>
      let bg_vals := split_ws (strip bg) in
      let fg_vals := split_ws (strip fg) in
      match last bg_vals, last fg_vals with
      | Some bg_last, Some fg_last =>
          match float_of_string bg_last, float_of_string fg_last with
          | Some bg_omega, Some fg_omega =>
              let tag_omegas := [] in
              let tag_omegas :=
                if in_bounds bg_omega then dict_set "background" bg_omega tag_omegas
                else tag_omegas in
              let tag_omegas :=
                if in_bounds fg_omega then dict_set "foreground" fg_omega tag_omegas
                else tag_omegas in
              match tag_omegas with
              | [] => None
              | _ => Some tag_omegas
              end
          | _, _ => None
          end
      | _, _ => None
      end
  | _, _ => None
  end.

(** The values of the branch line that are kept: within the bound, or the
    placeholder 999. *)
Definition keep_value (val_str : string) : option Q :=
  match float_of_string val_str with
  | Some val => if in_bounds val || Qeqb val (999 # 1) then Some val else None
  | None => None
  end.

Definition omega_values (values_str : string) : list Q :=
  omap keep_value (split_ws (strip values_str)).

(** [for i, omega in enumerate(l, i0): tag_omegas[f'#{i}'] = omega] *)
Fixpoint number_tags (i : nat) (l : list Q) (tag_omegas : dict Q) : dict Q :=
  match l with
  | [] => tag_omegas
  | omega :: r => number_tags (S i) r (dict_set ("#" +:+ str_of_nat i) omega tag_omegas)
  end.

(** Second stage: [Some d] when the function returns [d] from the branch
    line. *)
Definition tags_from_branch_line (content : string) : option (dict Q) :=
  match group1 (search true multi_omega_pattern content) with
  | Some values_str =>
      match omega_values values_str with
      | [] => None
      | [omega] => Some (dict_set "background" omega [])
      | omega :: rest => Some (number_tags 1 rest (dict_set "background" omega []))
      end
  | None => None
  end.

(** [unique_omegas]: the branches grouped under the ratio printed with six
    decimals. *)
Fixpoint unique_by_value (items : dict Q) (unique_omegas : dict (list string))
    : dict (list string) :=
  match items with
  | [] => unique_omegas
  | (branch, omega) :: r =>
      let omega_key := format_fixed 6 omega in
      let old := default [] (dict_get omega_key unique_omegas) in
      unique_by_value r (dict_set omega_key (old ++ [branch]) unique_omegas)
  end.

(** [[(float(k), v) for k, v in unique_omegas.items()]]; [None] when a key
    does not read back. *)
Fixpoint float_keys (d : dict (list string)) : option (list (Q * list string)) :=
  match d with
  | [] => Some []
  | (k, v) :: r =>
      match float_of_string k, float_keys r with
      | Some x, Some l => Some ((x, v) :: l)
      | _, _ => None
      end
  end.

(** Third stage: the fallback on the table of branches.  An exception in it
    reaches the outer [except], which answers the empty dict. *)
Definition tags_from_table (content : string) : dict Q :=
  let branches_dict := extract_omega_by_branches content in
  match branches_dict with
  | [] => []
  | _ =>
      let unique_omegas := unique_by_value branches_dict [] in
      match float_keys unique_omegas with
      | None => []
      | Some keyed =>
          if (1 <? length unique_omegas)%nat then
            match sort_by (fun x y => Qleb (fst x) (fst y)) keyed with
            | [] => []
            | (omega0, _) :: others =>
                number_tags 1 (map fst others) (dict_set "background" omega0 [])
            end
          else
            match keyed with
            | [(omega, _)] => dict_set "background" omega []
            | _ => []
            end
      end
  end.

Definition extract_omega_by_tags (content : string) : dict Q :=
  match tags_from_branchsite content with
  | Some tag_omegas => tag_omegas
  | None =>
      match tags_from_branch_line content with
      | Some tag_omegas => tag_omegas
      | None => tags_from_table content
      end
  end.

End SitesParser.

(** ** The stream reader of a run ([read_stream] in [_run_single_analysis]) *)

Module Stream.

(** The two tests of [read_stream], on the line as read from the pipe. *)
Definition is_stop_codon (line : string) : bool :=
  let text_line := Py.rstrip line in
  let lower := Py.lower text_line in
  Py.contains "stop" lower && Py.contains "codon" lower.

Definition is_press_enter (line : string) : bool :=
  let text_line := Py.rstrip line in
  let lower := Py.lower text_line in
  Py.contains "press" lower && Py.contains "enter" lower.

Definition is_prompt (line : string) : bool :=
  is_stop_codon line || is_press_enter line.

(** [w] occurs in [line] when letter case is ignored. *)
Definition occurs_ci (w line : string) : Prop :=
  ∃ pre mid post, line = pre +:+ mid +:+ post ∧ Py.lower mid = w.

End Stream.

(** ** [CodemlBatchAnalysis]: catalogs, model completion, control file
    ([codeml_backend.py]) *)

Module Backend.
Import Py Num Re.

(** The values a profile or a summary row holds. *)
Inductive pyval : Type :=
| VNone
| VInt (z : Z)
| VFloat (q : Q)
| VStr (s : string).

(** [str(v)], which is also what an f-string field without format prints. *)
Definition py_str (v : pyval) : string :=
  match v with
  | VNone => "None"
  | VInt z => str_of_Z z
  | VFloat q => repr_float q
  | VStr s => s
  end.

(** Truth value of [v] in a condition. *)
Definition truthy (v : pyval) : bool :=
  match v with
  | VNone => false
  | VInt z => negb (z =? 0)%Z
  | VFloat q => negb (Qeqb q 0)
  | VStr s => negb (String.eqb s EmptyString)
  end.

(** [float(v)]; [None] is [TypeError] or [ValueError]. *)
Definition py_float (v : pyval) : option Q :=
  match v with
  | VNone => None
  | VInt z => Some (inject_Z z)
  | VFloat q => Some q
  | VStr s => float_of_string s
  end.

Definition profile (description : string) (model NSsites fix_omega : Z) (omega : Q)
    (CodonFreq : Z) : gmap string pyval :=
  list_to_map
    [ ("description", VStr description); ("model", VInt model); ("NSsites", VInt NSsites);
      ("fix_omega", VInt fix_omega); ("omega", VFloat omega); ("CodonFreq", VInt CodonFreq) ].

Definition MODEL_CONFIGS : gmap string (gmap string pyval) :=
  list_to_map
    [ ("M0", profile "Homogeneous model - one ω for all sites" 0 0 0 (1 # 2) 2);
      ("M1a", profile "Nearly Neutral - ω < 1 or = 1" 0 1 0 (1 # 2) 2);
      ("M2a", profile "Positive Selection - adds ω > 1 class" 0 2 0 (1 # 2) 2);
      ("M7", profile "Beta distribution - ω < 1" 0 7 0 (1 # 2) 2);
      ("M8", profile "Beta + ω - adds ω > 1 class" 0 8 0 (1 # 2) 2);
      ("Branch", profile "Branch model - different ω for foreground" 2 0 0 (1 # 2) 2);
      ("Branch-site",
        <["display_name" := VStr "Branch-site"]>
          (profile "Branch-site model - ω varies across sites and branches" 2 2 0 (1 # 2) 7));
      ("Branch-site_null",
        profile "Branch-site null model - fixes ω=1 (null for Branch-site model)" 2 2 1 1 7) ].

(** Alternative model to its null model. *)
Definition NULL_MODEL_PAIRS : gmap string string :=
  list_to_map
    [ ("M2a", "M1a"); ("M8", "M7"); ("Branch", "M0"); ("Branch-site", "Branch-site_null") ].

Definition neutral_entry (alternative reason : string) : gmap string pyval :=
  list_to_map
    [ ("fix_omega", VInt 1); ("omega", VFloat 1);
      ("corresponding_alternative", VStr alternative); ("reason", VStr reason) ].

Definition NEUTRAL_MODELS : gmap string (gmap string pyval) :=
  list_to_map
    [ ("M0", neutral_entry "Branch" "M0: ω=1 fixado (modelo nulo para Branch site models)");
      ("M1a", neutral_entry "M2a" "M1a: ω₁=1 fixado (Wong et al. 2004)");
      ("BranchSite_A_null",
        neutral_entry "BranchSite_A" "BranchSite_A_null: ω₂=1 fixado (Yang et al. 2005)") ].

(** [x in l] on a list of names. *)
Definition mem (x : string) (l : list string) : bool := existsb (String.eqb x) l.

(** [l.index(x)], used where [x in l] holds. *)
Fixpoint index (x : string) (l : list string) : nat :=
  match l with
  | [] => 0
  | y :: r => if String.eqb x y then 0 else S (index x r)
  end.

(** The distinct names of [l], each at its first occurrence. *)
Fixpoint firsts (l : list string) : list string :=
  match l with
  | [] => []
  | x :: r => x :: filter (fun y => y ≠ x) (firsts r)
  end.

Section AutoComplete.

(** The order in which a [set] of names yields its elements is not fixed by
    the language; [set_iter l] is the order for the set that received the
    names of [l] one after the other. *)
Variable set_iter : list string → list string.

(** The key of the final [sorted]. *)
Definition order_key (selected_models : list string) (x : string) : nat :=
  if mem x selected_models then index x selected_models else 999.

(** The elements added to [completed_models], as the sequence of [add]
    calls after [set(selected_models)]. *)
Definition add_nulls (selected_models : list string) : list string :=
  foldl (fun completed model =>
           match NULL_MODEL_PAIRS !! model with
           | Some null_model => completed ++ [null_model]
           | None => completed
           end) selected_models selected_models.

Definition add_neutral (selected_models completed : list string) : list string :=
  let completed :=
    if mem "M2a" selected_models && negb (mem "M1a" completed)
    then completed ++ ["M1a"] else completed in
  if mem "Branch-site" selected_models && negb (mem "Branch-site_null" completed)
  then completed ++ ["Branch-site_null"] else completed.

Definition auto_complete_null_models (selected_models : list string)
    (include_neutral : bool) : list string :=
  let completed := add_nulls selected_models in
  let completed :=
    if include_neutral then add_neutral selected_models completed else completed in
  sort_by (key_le (order_key selected_models)) (set_iter completed).

End AutoComplete.

Definition nl : string := String LF EmptyString.
Definition tab : string := String TAB EmptyString.

(** The f-string of [generate_ctl_content], its fields already printed.  The
    control file is written as UTF-8: the letter omega of two of its comments
    is two bytes here. *)
Definition ctl_template (seqfile treefile outfile cleandata model NSsites CodonFreq
    fix_omega final_omega : string) : string :=
  "      seqfile = " +:+ seqfile +:+ nl +:+
  "     treefile = " +:+ treefile +:+ nl +:+
  "      outfile = " +:+ outfile +:+ nl +:+
  "   " +:+ nl +:+
  "        noisy = 3              * How much rubbish on the screen" +:+ nl +:+
  "      verbose = 1              * More or less detailed report" +:+ nl +:+
  "      seqtype = 1              * Data type" +:+ nl +:+
  "        ndata = 1              * Number of data sets or loci" +:+ nl +:+
  "        icode = 0              * Genetic code " +:+ nl +:+
  "    cleandata = " +:+ cleandata +:+ "              * Remove sites with ambiguity data?" +:+ nl +:+
  tab +:+ tab +:+ nl +:+
  "        model = " +:+ model +:+ "         * Models for ω varying across lineages" +:+ nl +:+
  tab +:+ "  NSsites = " +:+ NSsites +:+ "          * Models for ω varying across sites" +:+ nl +:+
  "    CodonFreq = " +:+ CodonFreq +:+ "        * Codon frequencies" +:+ nl +:+
  tab +:+ "  estFreq = 0              * Use observed freqs or estimate freqs by ML" +:+ nl +:+
  "        clock = 0              * Clock model" +:+ nl +:+
  "    fix_omega = " +:+ fix_omega +:+ "         * Estimate or fix omega" +:+ nl +:+
  "        omega = " +:+ final_omega +:+ "        * Initial or fixed omega" +:+ nl.

(** A control file without its last two lines, and these. *)
Definition ctl_head (seqfile treefile outfile cleandata model NSsites CodonFreq : string)
    : string :=
  "      seqfile = " +:+ seqfile +:+ nl +:+
  "     treefile = " +:+ treefile +:+ nl +:+
  "      outfile = " +:+ outfile +:+ nl +:+
  "   " +:+ nl +:+
  "        noisy = 3              * How much rubbish on the screen" +:+ nl +:+
  "      verbose = 1              * More or less detailed report" +:+ nl +:+
  "      seqtype = 1              * Data type" +:+ nl +:+
  "        ndata = 1              * Number of data sets or loci" +:+ nl +:+
  "        icode = 0              * Genetic code " +:+ nl +:+
  "    cleandata = " +:+ cleandata +:+ "              * Remove sites with ambiguity data?" +:+ nl +:+
  tab +:+ tab +:+ nl +:+
  "        model = " +:+ model +:+ "         * Models for ω varying across lineages" +:+ nl +:+
  tab +:+ "  NSsites = " +:+ NSsites +:+ "          * Models for ω varying across sites" +:+ nl +:+
  "    CodonFreq = " +:+ CodonFreq +:+ "        * Codon frequencies" +:+ nl +:+
  tab +:+ "  estFreq = 0              * Use observed freqs or estimate freqs by ML" +:+ nl +:+
  "        clock = 0              * Clock model" +:+ nl.

Definition ctl_tail (fix_omega final_omega : string) : string :=
  "    fix_omega = " +:+ fix_omega +:+ "         * Estimate or fix omega" +:+ nl +:+
  "        omega = " +:+ final_omega +:+ "        * Initial or fixed omega" +:+ nl.

(** [model_name in self.NEUTRAL_MODELS]; the default [model_name=None] is in
    no catalog. *)
Definition is_neutral (model_name : option string) : bool :=
  match model_name with
  | Some name => bool_decide (is_Some (NEUTRAL_MODELS !! name))
  | None => false
  end.

(** [generate_ctl_content]; [None] is the [KeyError] of a profile that lacks
    one of the four keys read. *)
Definition generate_ctl_content (seqfile treefile outfile : string)
    (model_config : gmap string pyval) (omega : Q) (cleandata : Z)
    (model_name : option string) : option string :=
  match model_config !! "fix_omega" with
  | None => None
  | Some fix_omega0 =>
      let '(fix_omega, final_omega) :=
        if is_neutral model_name then (VInt 1, VFloat 1) else (fix_omega0, VFloat omega) in
      match model_config !! "model", model_config !! "NSsites", model_config !! "CodonFreq" with
      | Some model, Some NSsites, Some CodonFreq =>
          Some (ctl_template seqfile treefile outfile (str_of_Z cleandata)
                  (py_str model) (py_str NSsites) (py_str CodonFreq)
                  (py_str fix_omega) (py_str final_omega))
      | _, _, _ => None
      end
  end.

(** The profile of a run: the catalog entry (or nothing), with the caller's
    overrides for this model on top. *)
Definition resolve_model_config (custom_configs : gmap string (gmap string pyval))
    (model_name : string) : gmap string pyval :=
  let model_config := default ∅ (MODEL_CONFIGS !! model_name) in
  match custom_configs !! model_name with
  | Some overrides => overrides ∪ model_config
  | None => model_config
  end.

(** [float(self.config.get('omega', model_config.get('omega', 0.5) or 0.5))] *)
Definition initial_omega (config_omega : option pyval) (model_config : gmap string pyval)
    : option Q :=
  match config_omega with
  | Some v => py_float v
  | None =>
      let v := default (VFloat (1 # 2)) (model_config !! "omega") in
      py_float (if truthy v then v else VFloat (1 # 2))
  end.

(** *** One run *)

(** What [_run_single_analysis] returns on success. *)
Record run_result : Type := mk_result {
  output_file : option string;
  results_file : option string;
  lnL : option Q;
  np : option Z;
  omega : option Q;
  execution_time : Q;
  status : string;
  stop_count : nat
}.

Record config : Type := mk_config {
  models : list string;
  custom_model_params : gmap string (gmap string pyval);
  config_omega : option pyval;
  cleandata : Z;
  timeout : Z;
  run_lrt : bool;
  tree_file_name : string;
  labeled_tree_content : option string;
  labeled_tree_branchsite : option string
}.

(** A sequence file: its stem names the gene, its absolute path goes into
    the control file. *)
Record fas_file : Type := mk_fas { stem : string; abs_path : string }.

(** How the external process of a run ended: it exited, the wait ran out of
    time, or the body of the [try] raised (the program could not be
    started, a copy failed, ...). *)
Inductive proc_end : Type :=
| Exited (rc : Z)
| TimeoutExpired
| Raised (message : string).

(** What the world contributes to one run. *)
Record run_env : Type := mk_env {
  stdout_raw : list string;
  stderr_raw : list string;
  proc : proc_end;
  output_text : option string;
  elapsed : Q
}.

(** The patterns of [_extract_likelihood]:
    [lnL[^:]*:\s*([+-]?\d+\.\d+)], [lnL\([^)]*\):\s*([+-]?\d+\.\d+)],
    [lnL\s*[:=]\s*([+-]?\d+\.\d+)]. *)
Definition signed_decimal : re :=
  Grp (seq [Opt (Cls (fun c => Ascii.eqb c "+"%char || Ascii.eqb c "-"%char));
            Plus dg true; Chr "."; Plus dg true]).

Definition lnL_patterns : list re :=
  [ seq [lit "lnL"; Star not_colon true; Chr ":"; Star ws true; signed_decimal];
    seq [lit "lnL("; Star (fun c => negb (Ascii.eqb c ")"%char)) true; lit "):";
         Star ws true; signed_decimal];
    seq [lit "lnL"; Star ws true;
         Cls (fun c => Ascii.eqb c ":"%char || Ascii.eqb c "="%char); Star ws true;
         signed_decimal] ].

(** [for pat in patterns: ...] on one line: the first pattern that matches
    and whose group reads as a number. *)
Fixpoint first_float (patterns : list re) (line : string) : option Q :=
  match patterns with
  | [] => None
  | pat :: rest =>
      match group1 (search false pat line) with
      | Some g =>
          match float_of_string g with
          | Some x => Some x
          | None => first_float rest line
          end
      | None => first_float rest line
      end
  end.

Fixpoint likelihood_of_lines (lines : list string) : option Q :=
  match lines with
  | [] => None
  | line :: rest =>
      if contains "lnL" line then
        match first_float lnL_patterns line with
        | Some x => Some x
        | None => likelihood_of_lines rest
        end
      else likelihood_of_lines rest
  end.

Definition extract_likelihood (content : string) : option Q :=
  likelihood_of_lines (split_char LF content).

(** [np:\s*(\d+)] *)
Definition np_pattern : re := seq [lit "np:"; Star ws true; Grp (Plus dg true)].

Fixpoint np_of_lines (lines : list string) : option Z :=
  match lines with
  | [] => None
  | line :: rest =>
      if contains "lnL" line && contains "np:" line then
        match group1 (search false np_pattern line) with
        | Some g =>
            match int_of_digits g with
            | Some n => Some n
            | None => None
            end
        | None => np_of_lines rest
        end
      else np_of_lines rest
  end.

Definition extract_np (content : string) : option Z :=
  np_of_lines (split_char LF content).

(** The tree named in the control file. *)
Definition nonempty (s : option string) : option string :=
  match s with
  | Some t => if String.eqb t EmptyString then None else Some t
  | None => None
  end.

Definition labeled_content (cfg : config) (model_name : string) : option string :=
  if startswith "BranchSite" model_name || startswith "Branch-site" model_name then
    match nonempty (labeled_tree_branchsite cfg) with
    | Some t => Some t
    | None =>
        match nonempty (labeled_tree_content cfg) with
        | Some t => if contains "#1" t then Some t else None
        | None => None
        end
    end
  else if String.eqb model_name "Branch" then nonempty (labeled_tree_content cfg)
  else None.

Definition tree_filename (cfg : config) (model_name : string) : string :=
  match labeled_content cfg model_name with
  | Some _ => "labeled.nwk"
  | None => tree_file_name cfg
  end.

Definition output_filename (base_name model_name : string) : string :=
  base_name +:+ "_" +:+ model_name +:+ "_results.txt".

(** The control file of a run, generated from the profile (the caller
    supplied no file of its own). *)
Definition ctl_content (cfg : config) (fas : fas_file) (model_name : string)
    : option string :=
  let model_config := resolve_model_config (custom_model_params cfg) model_name in
  match initial_omega (config_omega cfg) model_config with
  | Some omega0 =>
      generate_ctl_content (abs_path fas) (tree_filename cfg model_name)
        (output_filename (stem fas) model_name) model_config omega0 (cleandata cfg)
        (Some model_name)
  | None => None
  end.

Definition tag (model_name base_name : string) : string :=
  "[" +:+ model_name +:+ "] " +:+ base_name +:+ ": ".

(** The lines the [except subprocess.TimeoutExpired] branch appends to the
    log. *)
Definition timeout_log (cfg : config) (model_name base_name : string)
    (stdout_lines stderr_lines : list string) : list string :=
  [tag model_name base_name +:+ "TIMEOUT after " +:+ str_of_Z (timeout cfg) +:+ "s";
   "  Captured stdout (last 200 lines):"]
  ++ last_n 200 stdout_lines
  ++ ["  Captured stderr (last 200 lines):"]
  ++ last_n 200 stderr_lines.

Definition opt_str {A} (f : A → string) (o : option A) : string :=
  match o with
  | Some a => f a
  | None => "None"
  end.

(** The lines the normal end of a run appends to the log, up to the line
    FINISHED (the details of the stops, which follow it, are left out). *)
Definition stream_log (title : string) (lines : list string) : list string :=
  match lines with
  | [] => []
  | _ => [title] ++ last_n 200 lines
  end.

Definition exit_log (model_name base_name : string) (rc : Z)
    (stdout_lines stderr_lines : list string) (output_path : string) (found : bool)
    (finished : string) : list string :=
  [tag model_name base_name +:+ "process returncode=" +:+ str_of_Z rc]
  ++ stream_log "  stdout (last 200 lines):" stdout_lines
  ++ stream_log "  stderr (last 200 lines):" stderr_lines
  ++ (if (rc =? 0)%Z then []
      else [tag model_name base_name +:+ "Non-zero return code " +:+ str_of_Z rc])
  ++ (if found then []
      else [tag model_name base_name +:+ "expected output file not found: " +:+ output_path])
  ++ [tag model_name base_name +:+ finished].

(** [_run_single_analysis]: the result, and the lines it appends to the log
    when the run ends (before them the log has the line that names the
    command and what the two readers wrote about prompts).  The control file
    is generated from the profile; the lines of both pipes are stored
    stripped on the right; a line counts as a prompt as [read_stream]
    decides.  When the control file cannot be made, the line logged ends
    with the message of the exception. *)
Definition run_single_analysis (cfg : config) (fas : fas_file) (model_name : string)
    (env : run_env) : option run_result * list string :=
  let base_name := stem fas in
  match ctl_content cfg fas model_name with
  | None => (None, ["ERROR creating .ctl [" +:+ model_name +:+ "] " +:+ base_name +:+ ": "])
  | Some _ =>
      let stdout_lines := map rstrip (stdout_raw env) in
      let stderr_lines := map rstrip (stderr_raw env) in
      let stops :=
        length (List.filter Stream.is_prompt (stdout_raw env ++ stderr_raw env)) in
      match proc env with
      | Raised message =>
          (None, [tag model_name base_name +:+ "EXCEPTION - " +:+ message])
      | TimeoutExpired =>
          (None, timeout_log cfg model_name base_name stdout_lines stderr_lines)
      | Exited rc =>
          let lnL := output_text env ≫= extract_likelihood in
          let np_params := output_text env ≫= extract_np in
          let omega := output_text env ≫= SitesParser.extract_omega_robust in
          let found := bool_decide (is_Some (output_text env)) in
          let output_path := model_name +:+ "/" +:+ output_filename base_name model_name in
          let path := if found then Some output_path else None in
          (Some {| output_file := path; results_file := path;
                   lnL := lnL; np := np_params; omega := omega;
                   execution_time := elapsed env;
                   status := if (rc =? 0)%Z && found then "success" else "partial";
                   stop_count := stops |},
           exit_log model_name base_name rc stdout_lines stderr_lines output_path found
             ("FINISHED (lnL=" +:+ opt_str repr_float lnL
              +:+ ", np=" +:+ opt_str str_of_Z np_params
              +:+ ", ω=" +:+ opt_str repr_float omega
              +:+ ", time=" +:+ format_fixed 1 (elapsed env) +:+ "s, stop_count="
              +:+ str_of_nat stops +:+ ")"))
      end
  end.

(** *** The loop of [run_batch_analysis] *)

Record batch : Type := mk_batch {
  results : gmap string (gmap string run_result);
  log : list string
}.

(** The models of one gene: a result that is returned is recorded under the
    model, a run without result leaves no entry. *)
Definition run_model (cfg : config) (env : string → string → run_env) (fas : fas_file)
    (acc : gmap string run_result * list string) (model_name : string)
    : gmap string run_result * list string :=
  let '(gene_results, lg) := acc in
  let '(result, lines) := run_single_analysis cfg fas model_name (env (stem fas) model_name) in
  (match result with
   | Some r => <[model_name := r]> gene_results
   | None => gene_results
   end, lg ++ lines).

Definition run_gene (cfg : config) (env : string → string → run_env) (b : batch)
    (fas : fas_file) : batch :=
  let '(gene_results, lg) := foldl (run_model cfg env fas) (∅, log b) (models cfg) in
  {| results := <[stem fas := gene_results]> (results b); log := lg |}.

Definition run_all (cfg : config) (env : string → string → run_env)
    (fas_files : list fas_file) : batch :=
  foldl (run_gene cfg env) {| results := ∅; log := [] |} fas_files.

(** The result a run returns. *)
Definition outcome (cfg : config) (env : string → string → run_env) (fas : fas_file)
    (model_name : string) : option run_result :=
  fst (run_single_analysis cfg fas model_name (env (stem fas) model_name)).

Definition record (cfg : config) (env : string → string → run_env) (fas : fas_file)
    (gene_results : gmap string run_result) (model_name : string)
    : gmap string run_result :=
  match outcome cfg env fas model_name with
  | Some r => <[model_name := r]> gene_results
  | None => gene_results
  end.

(** The results of a gene after its models. *)
Definition gene_results_of (cfg : config) (env : string → string → run_env)
    (fas : fas_file) : gmap string run_result :=
  foldl (record cfg env fas) ∅ (models cfg).

(** *** [_save_summary] *)

(** The comparisons for which a column is written: null model, alternative
    model, column name. *)
Definition summary_comparisons (selected_models : list string)
    : list (string * string * string) :=
  (if mem "M0" selected_models && mem "M1a" selected_models
   then [("M0", "M1a", "lrt_M0_vs_M1a")] else [])
  ++ (if mem "M1a" selected_models && mem "M2a" selected_models
      then [("M1a", "M2a", "lrt_M1a_vs_M2a")] else [])
  ++ (if mem "M7" selected_models && mem "M8" selected_models
      then [("M7", "M8", "lrt_M7_vs_M8")] else [])
  ++ (if mem "M0" selected_models && mem "Branch" selected_models
      then [("M0", "Branch", "lrt_M0_vs_Branch")] else [])
  ++ (if (mem "BranchSite_A_null" selected_models && mem "BranchSite_A" selected_models)
         || (mem "Branch-site_null" selected_models && mem "Branch-site" selected_models)
      then
        if mem "Branch-site_null" selected_models && mem "Branch-site" selected_models
        then [("Branch-site_null", "Branch-site", "lrt_Branch-site_null_vs_Branch-site")]
        else [("BranchSite_A_null", "BranchSite_A", "lrt_BranchSite_A_null_vs_BranchSite_A")]
      else []).

Definition model_columns (model : string) : list string :=
  [model +:+ "_lnL"; model +:+ "_np"; model +:+ "_omega"; model +:+ "_time";
   model +:+ "_stops"].

Definition summary_header (selected_models : list string) : list string :=
  ["Gene"] ++ flat_map model_columns selected_models
  ++ map snd (summary_comparisons selected_models).

(** [str(v).replace('\n', '').replace('\r', '')] *)
Definition clean (v : string) : string := remove_char CR (remove_char LF v).

(** The five cells of a model in the row of a gene.  [files] gives the text
    of the reports on disk, read again when the result holds no ratio. *)
Definition model_cells (files : gmap string string) (gene_results : gmap string run_result)
    (model : string) : list string :=
  match gene_results !! model with
  | Some result =>
      let omega_value :=
        match omega result with
        | Some o => Some o
        | None =>
            match results_file result with
            | Some path => (files !! path) ≫= SitesParser.extract_omega_robust
            | None => None
            end
        end in
      [ match lnL result with
        | Some x => if truthy (VFloat x) then format_fixed 6 x else "NA"
        | None => "NA"
        end;
        opt_str str_of_Z (np result);
        match omega_value with
        | Some o => format_fixed 6 o
        | None => "NA"
        end;
        format_fixed 2 (execution_time result);
        str_of_nat (stop_count result) ]
  | None => ["NA"; "NA"; "NA"; "NA"; "0"]
  end.

Definition lrt_cell (gene_results : gmap string run_result)
    (cmp : string * string * string) : string :=
  let '(null_model, alt_model, _) := cmp in
  match gene_results !! null_model, gene_results !! alt_model with
  | Some null_res, Some alt_res =>
      match lnL null_res, lnL alt_res with
      | Some null_lnL, Some alt_lnL =>
          format_fixed 6 (Qred (Qmult (2 # 1) (Qminus alt_lnL null_lnL)))
      | _, _ => "NA"
      end
  | _, _ => "NA"
  end.

Definition summary_row (files : gmap string string) (selected_models : list string)
    (gene_name : string) (gene_results : gmap string run_result) : list string :=
  let row :=
    [clean gene_name]
    ++ flat_map (model_cells files gene_results) selected_models
    ++ map (lrt_cell gene_results) (summary_comparisons selected_models) in
  map clean row.

(** [sorted(d.keys())] *)
Definition sorted_keys {V} (d : gmap string V) : list string :=
  sort_by String.leb (map fst (map_to_list d)).

(** The table written to [analysis_summary.tsv]: the header, then one row
    per gene of [self.results]. *)
Definition save_summary (files : gmap string string) (selected_models : list string)
    (res : gmap string (gmap string run_result)) : list (list string) :=
  summary_header selected_models ::
  map (fun gene_name =>
         summary_row files selected_models gene_name (default ∅ (res !! gene_name)))
      (sorted_keys res).

Definition tsv (table : list (list string)) : string :=
  String.concat EmptyString (map (fun row => join tab row +:+ nl) table).

(** *** The likelihood-ratio tests *)

Record lrt_entry : Type := mk_entry {
  e_gene : string;
  e_lnL_null : Q;
  e_lnL_alt : Q;
  e_stat : Q;
  e_df : Z;
  e_p_value : Q;
  e_verdict : string
}.

Record lrt_counts : Type := mk_counts {
  sig_count_05 : nat;
  sig_count_01 : nat;
  total_valid : nat;
  entries : list lrt_entry
}.

Definition no_counts : lrt_counts :=
  {| sig_count_05 := 0; sig_count_01 := 0; total_valid := 0; entries := [] |}.

Section LRT.

(** [scipy.stats.chi2.cdf], a function of the library. *)
Variable chi2_cdf : Q → Z → Q.

Definition p_value_of (lrt_stat : Q) (df : Z) : Q :=
  Qred (Qminus 1 (chi2_cdf lrt_stat df)).

Definition verdict (alt_model : string) (p_value : Q) : string :=
  if Qltb p_value (1 # 100) then "[OK][OK] " +:+ alt_model +:+ " significantly better (p < 0.01)"
  else if Qltb p_value (5 # 100) then "[OK] " +:+ alt_model +:+ " significantly better (p < 0.05)"
  else "[ERROR] No significant difference".

(** A gene that passed every test of the loop is counted and written. *)
Definition count_gene (alt_model gene_name : string) (lnL_null lnL_alt lrt_stat : Q)
    (df : Z) (c : lrt_counts) : lrt_counts :=
  let p_value := p_value_of lrt_stat df in
  {| sig_count_05 := if Qltb p_value (5 # 100) then S (sig_count_05 c) else sig_count_05 c;
     sig_count_01 := if Qltb p_value (1 # 100) then S (sig_count_01 c) else sig_count_01 c;
     total_valid := S (total_valid c);
     entries := entries c ++
       [ {| e_gene := gene_name; e_lnL_null := lnL_null; e_lnL_alt := lnL_alt;
            e_stat := lrt_stat; e_df := df; e_p_value := p_value;
            e_verdict := verdict alt_model p_value |} ] |}.

(** One gene in the loop of [_run_lrt_analysis]; [None] is the [TypeError]
    of a parameter count that is missing next to a likelihood. *)
Definition live_gene (null_model alt_model gene_name : string)
    (gene_results : gmap string run_result) (c : lrt_counts) : option lrt_counts :=
  match gene_results !! null_model, gene_results !! alt_model with
  | Some null_res, Some alt_res =>
      match lnL null_res, lnL alt_res with
      | Some lnL_null, Some lnL_alt =>
          let lrt_stat := Qred (Qmult (2 # 1) (Qminus lnL_alt lnL_null)) in
          match np null_res, np alt_res with
          | Some np_null, Some np_alt =>
              let df := Z.abs (np_alt - np_null) in
              if (df =? 0)%Z || Qltb lrt_stat 0 then Some c
              else Some (count_gene alt_model gene_name lnL_null lnL_alt lrt_stat df c)
          | _, _ => None
          end
      | _, _ => Some c
      end
  | _, _ => Some c
  end.

Fixpoint live_genes (null_model alt_model : string) (genes : list string)
    (res : gmap string (gmap string run_result)) (c : lrt_counts) : option lrt_counts :=
  match genes with
  | [] => Some c
  | gene_name :: rest =>
      match live_gene null_model alt_model gene_name (default ∅ (res !! gene_name)) c with
      | Some c' => live_genes null_model alt_model rest res c'
      | None => None
      end
  end.

(** The comparisons of [_run_lrt_analysis]. *)
Definition live_comparisons (selected_models : list string) : list (string * string) :=
  (if mem "M0" selected_models && mem "M1a" selected_models then [("M0", "M1a")] else [])
  ++ (if mem "M1a" selected_models && mem "M2a" selected_models then [("M1a", "M2a")] else [])
  ++ (if mem "M7" selected_models && mem "M8" selected_models then [("M7", "M8")] else [])
  ++ (if mem "M0" selected_models && mem "Branch" selected_models
      then [("M0", "Branch")] else [])
  ++ (if mem "BranchSite_A_null" selected_models && mem "BranchSite_A" selected_models
      then [("BranchSite_A_null", "BranchSite_A")] else []).

(** One comparison: the genes in sorted order, then the summary, whose
    percentages divide by the number of valid genes; [None] is an exception
    ([TypeError] above, [ZeroDivisionError] here). *)
Definition live_comparison (res : gmap string (gmap string run_result))
    (cmp : string * string) : option lrt_counts :=
  match live_genes (fst cmp) (snd cmp) (sorted_keys res) res no_counts with
  | Some c => if (total_valid c =? 0)%nat then None else Some c
  | None => None
  end.

(** [_run_lrt_analysis]: the comparisons written before the function
    returned or raised, and whether it raised. *)
Fixpoint live_run (res : gmap string (gmap string run_result))
    (cmps : list (string * string)) : list (string * string * lrt_counts) * bool :=
  match cmps with
  | [] => ([], false)
  | cmp :: rest =>
      match live_comparison res cmp with
      | Some c =>
          let '(done, raised) := live_run res rest in
          ((fst cmp, snd cmp, c) :: done, raised)
      | None => ([], true)
      end
  end.

Definition run_lrt_analysis (selected_models : list string)
    (res : gmap string (gmap string run_result))
    : list (string * string * lrt_counts) * bool :=
  live_run res (live_comparisons selected_models).

(** *** Regeneration from the results folder *)

(** An entry of the results folder: its name, whether it is a directory,
    and the files in it with their text. *)
Record entry : Type := mk_entry_dir {
  name : string;
  is_dir : bool;
  files_in : list (string * string)
}.

(** Old folder name to model name, and back. *)
Definition model_name_mapping (folder_name : string) : string :=
  if String.eqb folder_name "BranchSite_A" then "Branch-site"
  else if String.eqb folder_name "BranchSite_A_null" then "Branch-site_null"
  else folder_name.

Definition reverse_mapping (model : string) : string :=
  if String.eqb model "Branch-site" then "BranchSite_A"
  else if String.eqb model "Branch-site_null" then "BranchSite_A_null"
  else model.

(** [item.is_dir() and item.name not in ['reports']] *)
Definition model_dirs (folder : list entry) : list entry :=
  List.filter (fun item => is_dir item && negb (String.eqb (name item) "reports")) folder.

(** [item.glob("*_results.txt")] *)
Definition result_files (item : entry) : list (string * string) :=
  List.filter (fun f => endswith "_results.txt" (fst f)) (files_in item).

Definition gene_of (file_name folder_name : string) : string :=
  before_first ("_" +:+ folder_name +:+ "_results") file_name.

(** The text of [results_folder / dir / file], when it exists. *)
Definition read_file (folder : list entry) (dir file : string) : option string :=
  match List.find (fun item => String.eqb (name item) dir) folder with
  | Some item =>
      if is_dir item then
        match List.find (fun f => String.eqb (fst f) file) (files_in item) with
        | Some f => Some (snd f)
        | None => None
        end
      else None
  | None => None
  end.

Definition found_models (folder : list entry) : list string :=
  map (fun item => model_name_mapping (name item)) (model_dirs folder).

Definition found_genes (folder : list entry) : list string :=
  flat_map (fun item => map (fun f => gene_of (fst f) (name item)) (result_files item))
           (model_dirs folder).

(** The comparisons of [_regenerate_lrt_results], with their fixed degrees
    of freedom. *)
Definition regen_comparisons (found : list string) : list (string * string * Z) :=
  (if mem "M0" found && mem "M1a" found then [("M0", "M1a", 1%Z)] else [])
  ++ (if mem "M1a" found && mem "M2a" found then [("M1a", "M2a", 1%Z)] else [])
  ++ (if mem "M7" found && mem "M8" found then [("M7", "M8", 1%Z)] else [])
  ++ (if mem "M0" found && mem "Branch" found then [("M0", "Branch", 1%Z)] else [])
  ++ (if mem "Branch-site_null" found && mem "Branch-site" found
      then [("Branch-site_null", "Branch-site", 2%Z)] else []).

(** [lnL\(.*?\):\s+([-\d.]+)] *)
Definition regen_lnL_pattern : re :=
  seq [lit "lnL("; Star dot false; lit "):"; Plus ws true; Grp (Plus minus_dg_dot true)].

(** One gene in the loop of [_regenerate_lrt_results]: a missing file, a
    report without likelihood and a likelihood that does not read as a
    number all skip the gene. *)
Definition regen_gene (folder : list entry) (null_model alt_model : string) (df : Z)
    (gene : string) (c : lrt_counts) : lrt_counts :=
  let null_folder := reverse_mapping null_model in
  let alt_folder := reverse_mapping alt_model in
  match read_file folder null_folder (gene +:+ "_" +:+ null_folder +:+ "_results.txt"),
        read_file folder alt_folder (gene +:+ "_" +:+ alt_folder +:+ "_results.txt") with
  | Some null_content, Some alt_content =>
      match group1 (search false regen_lnL_pattern null_content),
            group1 (search false regen_lnL_pattern alt_content) with
      | Some null_g, Some alt_g =>
          match float_of_string null_g, float_of_string alt_g with
          | Some lnL_null, Some lnL_alt =>
              let lrt_stat := Qred (Qmult (2 # 1) (Qminus lnL_alt lnL_null)) in
              count_gene alt_model gene lnL_null lnL_alt lrt_stat df c
          | _, _ => c
          end
      | _, _ => c
      end
  | _, _ => c
  end.

Definition regenerate_lrt_results (folder : list entry)
    : list (string * string * lrt_counts) :=
  let genes := sort_by String.leb (remove_dups (found_genes folder)) in
  map (fun cmp =>
         let '(null_model, alt_model, df) := cmp in
         (null_model, alt_model,
          foldl (fun c gene => regen_gene folder null_model alt_model df gene c)
                no_counts genes))
      (regen_comparisons (found_models folder)).

End LRT.

(** What a comparison reports: its models, the number of valid genes, the
    genes written and their statistics. *)
Definition digest (r : string * string * lrt_counts)
    : string * string * nat * list string * list Q :=
  (fst (fst r), snd (fst r), total_valid (snd r), map e_gene (entries (snd r)),
   map e_stat (entries (snd r))).

(** *** [_regenerate_analysis_summary] *)

(** [lnL\(ntime:.*?\):\s+([-\d.]+)], [lnL\(ntime:\s*(\d+)\s+np:\s*(\d+)\)],
    [Time used:\s+(\d+):(\d+)] *)
Definition summary_lnL_pattern : re :=
  seq [lit "lnL(ntime:"; Star dot false; lit "):"; Plus ws true; Grp (Plus minus_dg_dot true)].

Definition summary_np_pattern : re :=
  seq [lit "lnL(ntime:"; Star ws true; Grp (Plus dg true); Plus ws true; lit "np:";
       Star ws true; Grp (Plus dg true); Chr ")"].

Definition time_pattern : re :=
  seq [lit "Time used:"; Plus ws true; Grp (Plus dg true); Chr ":"; Grp (Plus dg true)].

Definition opt_val {A} (f : A → pyval) (o : option A) : pyval :=
  match o with
  | Some a => f a
  | None => VNone
  end.

(** The values read from one report, stored under the columns of [model];
    [None] when the likelihood found does not read as a number (the
    [except] of the loop: nothing is stored). *)
Definition store_report (model content : string) (row : gmap string pyval)
    : option (gmap string pyval) :=
  let lnL_val :=
    match group1 (search false summary_lnL_pattern content) with
    | Some g =>
        match float_of_string g with
        | Some x => Some (VFloat x)
        | None => None
        end
    | None => Some VNone
    end in
  match lnL_val with
  | None => None
  | Some lnL_v =>
      let np_val :=
        opt_val VInt (group2 (search false summary_np_pattern content) ≫= int_of_digits) in
      let omega_v := opt_val VFloat (SitesParser.extract_omega_robust content) in
      let time_m := search false time_pattern content in
      let exec_time :=
        match group1 time_m ≫= int_of_digits, group2 time_m ≫= int_of_digits with
        | Some m, Some sec => VInt (m * 60 + sec)
        | _, _ => VNone
        end in
      let stops := VInt (Z.of_nat (count "***" content)) in
      Some (<[model +:+ "_stops" := stops]>
            (<[model +:+ "_time" := exec_time]>
             (<[model +:+ "_omega" := omega_v]>
              (<[model +:+ "_np" := np_val]>
               (<[model +:+ "_lnL" := lnL_v]> row)))))
  end.

(** The reports of one model folder, added to [data]. *)
Definition collect_file (model folder_name : string) (data : dict (gmap string pyval))
    (f : string * string) : dict (gmap string pyval) :=
  let gene_name := gene_of (fst f) folder_name in
  let row := default {[ "Gene" := VStr gene_name ]} (dict_get gene_name data) in
  match store_report model (snd f) row with
  | Some row' => dict_set gene_name row' data
  | None => dict_set gene_name row data
  end.

Definition collect_model (folder : list entry) (data : dict (gmap string pyval))
    (model : string) : dict (gmap string pyval) :=
  let folder_name := reverse_mapping model in
  match List.find (fun item => String.eqb (name item) folder_name) folder with
  | Some item =>
      if is_dir item then
        foldl (collect_file model folder_name) data
              (sort_by (fun f g => String.leb (fst f) (fst g)) (result_files item))
      else data
  | None => data
  end.

Definition collect (folder : list entry) : dict (gmap string pyval) :=
  foldl (collect_model folder) [] (sort_by String.leb (remove_dups (found_models folder))).

(** One of the five blocks of the loop "Calcular LRTs": both likelihood
    columns present and true in a condition. *)
Definition lrt_column (null_model alt_model : string) (row : gmap string pyval)
    : gmap string pyval :=
  match row !! (null_model +:+ "_lnL"), row !! (alt_model +:+ "_lnL") with
  | Some a, Some b =>
      if truthy a && truthy b then
        match a, b with
        | VFloat x, VFloat y =>
            <["lrt_" +:+ null_model +:+ "_vs_" +:+ alt_model :=
                VFloat (Qred (Qmult (2 # 1) (Qminus y x)))]> row
        | _, _ => row
        end
      else row
  | _, _ => row
  end.

Definition REGEN_PAIRS : list (string * string) :=
  [ ("M0", "M1a"); ("M1a", "M2a"); ("M7", "M8"); ("M0", "Branch");
    ("Branch-site_null", "Branch-site") ].

Definition lrt_columns (row : gmap string pyval) : gmap string pyval :=
  foldl (fun r cmp => lrt_column (fst cmp) (snd cmp) r) row REGEN_PAIRS.

(** The rows handed to the table writer, in the order the genes were met.
    (The site-class columns of the branch-site models, which are added to
    the rows afterwards and touch no other column, are left out.) *)
Definition regenerate_analysis_summary (folder : list entry) : dict (gmap string pyval) :=
  map (fun kv => (fst kv, lrt_columns (snd kv))) (collect folder).

(** The value under [column] in the regenerated row of [gene]. *)
Definition regenerated_cell (folder : list entry) (gene column : string) : option pyval :=
  dict_get gene (regenerate_analysis_summary folder) ≫= (fun row => row !! column).

End Backend.

(** ** The branch-table strategy as the specification words it

    "Locate a named table section; scan subsequent lines, skipping
    blank/header lines, stopping at an end-of-table marker or at a maximum
    line budget; for each data line split on whitespace, interpret the 5th
    whitespace-separated field as the ratio, accept only values within a
    sanity bound (-10 to 100), collect all accepted values across the table,
    and return their median." *)

Module TableSpec.
Import Py Num SitesParser.










End TableSpec.

(** ** The per-tag reading of the branch line as the specification words it

    "A single line listing N>=2 space-separated ratios for N
    foreground-tagged branch groups (first value is always "background",
    subsequent values are assigned tags #1, #2, ... in order)." *)

Module TagSpec.
Import Py Num.

(** The label of the line. *)
Definition LABEL : string := "w (dN/dS) for branches:".

(** [s[n:]] *)
Fixpoint drop (n : nat) (s : string) : string :=
  match n, s with
  | O, _ => s
  | S n', String _ s' => drop n' s'
  | S _, EmptyString => EmptyString
  end.

(** What follows the first occurrence of [w] in [s]; nothing when [w] does
    not occur. *)
Fixpoint after_first (w s : string) : string :=
  if String.prefix w s then drop (String.length w) s
  else
    match s with
    | EmptyString => EmptyString
    | String _ s' => after_first w s'
    end.

(** What the line lists: the text between the label and the end of its
    line, and the numbers among its fields. *)
Definition line_rest (content : string) : string :=
  before_first (String LF EmptyString) (after_first LABEL content).

Definition listed_values (content : string) : list Q :=
  omap float_of_string (split_ws (line_rest content)).

(** A value written with digits and points; fields stand apart by white
    space. *)
Definition plain (c : ascii) : bool :=
  isdigit c || Ascii.eqb c "."%char || isspace c.

(** The first value under "background", the i-th subsequent one under
    "#i". *)
Fixpoint numbered (i : nat) (values : list Q) : list (string * Q) :=
  match values with
  | [] => []
  | v :: rest => ("#" +:+ str_of_nat i, v) :: numbered (S i) rest
  end.

Definition tags_of_values (values : list Q) : list (string * Q) :=
  match values with
  | [] => []
  | v :: rest => ("background", v) :: numbered 1 rest
  end.

(** Within the bound, or the placeholder. *)
Definition kept (x : Q) : bool := in_bounds x || Qeqb x (999 # 1).

End TagSpec.

(** ** Sample reports *)

Module Samples.
Import Py.

Definition nl : string := String LF EmptyString.

Definition table_head : list string :=
  [ "lnL(ntime:  5  np:  7):  -1234.567890      +0.000000"; EmptyString;
    "dN & dS for each branch"; EmptyString;
    " branch          t       N       S   dN/dS      dN      dS  N*dN  S*dS"; EmptyString ].

Definition table_rows : list string :=
  [ "   4..1       0.016   1148.8    351.2   0.4000   0.0040   0.0091    4.6    3.2";
    "   4..2       0.020   1148.8    351.2   0.4200   0.0050   0.0119    5.7    4.2";
    "   4..3       0.031   1148.8    351.2   0.4400   0.0080   0.0181    9.2    6.4" ].


Definition table_foot : list string :=
  [ EmptyString; "tree length for dN:       0.0414"; EmptyString ].

(** A report whose table holds the ratios 0.40, 0.42, 0.44. *)
Definition report_3 : string := join nl (table_head ++ table_rows ++ table_foot).


(** A branch-site report: the site classes with both rows of ratios, a
    labelled ratio before them and a branch table after them. *)
Definition report_branchsite : string :=
  join nl
    ([ "omega (w) for branches:  0.35000"; EmptyString;
       "site class             0        1       2a       2b";
       "proportion       0.76190  0.22315  0.01156  0.00339";
       "background w     0.09233  1.00000  0.09233  1.00000";
       "foreground w     0.09233  1.00000  1.81018  1.81018"; EmptyString ]
     ++ table_head ++ table_rows ++ table_foot).

(** The branch line of the specification, and one with a ratio out of
    bounds in the middle. *)
Definition branch_line : string := "w (dN/dS) for branches: 0.35 0.06 999.00".

Definition branch_line_500 : string := "w (dN/dS) for branches: 0.35 500.0 0.06".

(** The same line with a signed value, and with a value written with an
    exponent. *)
Definition branch_line_signed : string := "w (dN/dS) for branches: 0.35 -0.06 0.20".

Definition branch_line_exponent : string := "w (dN/dS) for branches: 0.35 1e-05 0.20".

(** A selection of a thousand and one distinct names, the last of which is
    the alternative model M2a. *)
Definition long_selection : list string :=
  map (fun i => "g" +:+ Num.str_of_nat i) (seq 0 1000) ++ ["M2a"].

(** The first lines of a report: likelihood and parameter count. *)
Definition report_of (lnL_text np_text : string) : string :=
  "lnL(ntime:  5  np:  " +:+ np_text +:+ "):  " +:+ lnL_text +:+ "      +0.000000" +:+ nl
  +:+ "omega (dN/dS) =  0.12345" +:+ nl +:+ "Time used:  0:12" +:+ nl.

(** A results folder with the models M0 and M1a and one gene, [g1]. *)
Definition folder_with (lnL_M0 np_M0 lnL_M1a np_M1a : string) : list Backend.entry :=
  [ Backend.mk_entry_dir "M0" true [("g1_M0_results.txt", report_of lnL_M0 np_M0)];
    Backend.mk_entry_dir "M1a" true [("g1_M1a_results.txt", report_of lnL_M1a np_M1a)] ].

Definition folder_of (lnL_M0 lnL_M1a : string) : list Backend.entry :=
  folder_with lnL_M0 "5" lnL_M1a "6".

(** A result with the given likelihood and parameter count. *)
Definition result_of (lnL0 : option Q) (np0 : option Z) : Backend.run_result :=
  Backend.mk_result (Some "M0/g1_M0_results.txt") (Some "M0/g1_M0_results.txt")
    lnL0 np0 (Some (1 # 2)) (3 # 2) "success" 0.

(** The results of one gene, [g1], for the models M0 and M1a. *)
Definition results_of (lnL_M0 : Q) (np_M0 : Z) (lnL_M1a : Q) (np_M1a : Z)
    : gmap string (gmap string Backend.run_result) :=
  {[ "g1" := {[ "M0" := result_of (Some lnL_M0) (Some np_M0);
                "M1a" := result_of (Some lnL_M1a) (Some np_M1a) ]} ]}.

(** A configuration as the graphical front end builds it, for the models
    M0 and M1a. *)
Definition gui_config : Backend.config :=
  Backend.mk_config ["M0"; "M1a"] ∅ (Some (Backend.VFloat (1 # 2))) 1 1600 true
    "tree.nwk" None None.

Definition geneA : Backend.fas_file := Backend.mk_fas "geneA" "/data/geneA.fas".

(** The run of M0 exceeds the timeout after two lines of output; the run
    of M1a ends well. *)
Definition timeout_env (gene model : string) : Backend.run_env :=
  if String.eqb model "M0" then
    Backend.mk_env ["reading sequences" +:+ nl; "stop codon TAG" +:+ nl] ["warning" +:+ nl]
      Backend.TimeoutExpired None 1600
  else
    Backend.mk_env [] [] (Backend.Exited 0) (Some (report_of "-100.500000" "7")) (3 # 2).

(** A run of the branch-site null model whose profile is overridden with a
    free ratio. *)
Definition override_free : gmap string (gmap string Backend.pyval) :=
  {[ "Branch-site_null" := {[ "fix_omega" := Backend.VInt 0 ]} ]}.

End Samples.

(** ** What a pattern matches

    The texts a pattern of [Re] can match, with the groups it captures, read
    off the pattern alone; the matcher finds nothing else. *)

Module ReSem.
Import Py Re.

(** Every character of [m] is in the class [p]. *)
Definition all_in (p : ascii → bool) (m : string) : Prop :=
  Forall (λ c, p c = true) (list_ascii_of_string m).

Fixpoint den (ic : bool) (r : re) (m : string) (gs : list string) : Prop :=
  match r with
  | Eps => m = EmptyString ∧ gs = []
  | Chr c => ∃ d, m = String d EmptyString ∧ chr_eq ic c d = true ∧ gs = []
  | Cls p => ∃ d, m = String d EmptyString ∧ p d = true ∧ gs = []
  | Star p _ => all_in p m ∧ gs = []
  | Plus p _ => m ≠ EmptyString ∧ all_in p m ∧ gs = []
  | Opt r1 => den ic r1 m gs ∨ (m = EmptyString ∧ gs = [])
  | Seq r1 r2 =>
      ∃ m1 m2 g1 g2, m = m1 +:+ m2 ∧ gs = g1 ++ g2 ∧ den ic r1 m1 g1 ∧ den ic r2 m2 g2
  | Alt r1 r2 => den ic r1 m gs ∨ den ic r2 m gs
  | Grp r1 => ∃ g1, den ic r1 m g1 ∧ gs = g1 ++ [m]
  | Eos => m = EmptyString ∧ gs = []
  | WordB => m = EmptyString ∧ gs = []
  end.

End ReSem.

(** ** [interactive_setup]: the configuration asked on the console
    ([codeml_backend.py])

    The answers typed are the list of lines that the successive calls of
    [input] return; [input] raises [EOFError] when the list is exhausted.
    The file system answers through four questions.  What the function
    prints is not kept, but every expression it prints is evaluated in its
    place, as the interpreter does. *)

Module Setup.
Import Py Num Backend.

(** How a call ends: it returns, or raises one of the exceptions that can
    arise. *)
Inductive outcome (A : Type) : Type :=
| Returned (a : A)
| EOFError
| KeyError (key : string)
| OSError
| ValueError.
Arguments Returned {A} a.
Arguments EOFError {A}.
Arguments KeyError {A} key.
Arguments OSError {A}.
Arguments ValueError {A}.

Definition bind {A B} (m : outcome A) (f : A → outcome B) : outcome B :=
  match m with
  | Returned a => f a
  | EOFError => EOFError
  | KeyError key => KeyError key
  | OSError => OSError
  | ValueError => ValueError
  end.

#[global] Instance outcome_bind : MBind outcome := λ A B f m, bind m f.
#[global] Instance outcome_ret : MRet outcome := λ A a, Returned a.

(** The file system, as the function questions it. *)
Record file_system : Type := mk_fs {
  is_dir : string → bool;
  glob_fas : string → list string;
  is_file : string → bool;
  mkdir : string → bool
}.

(** [s.strip(c)] for a one-character [c]. *)
Fixpoint lstrip_char (c : ascii) (s : string) : string :=
  match s with
  | EmptyString => EmptyString
  | String x s' => if Ascii.eqb x c then lstrip_char c s' else s
  end.

Fixpoint rstrip_char (c : ascii) (s : string) : string :=
  match s with
  | EmptyString => EmptyString
  | String x s' =>
      match rstrip_char c s' with
      | EmptyString => if Ascii.eqb x c then EmptyString else String x EmptyString
      | r => String x r
      end
  end.

Definition strip_char (c : ascii) (s : string) : string := rstrip_char c (lstrip_char c s).

(** The answer to a question about a path: stripped of blanks, then of
    double quotes. *)
Definition QUOTE : ascii := ascii_of_nat 34.

Definition unquote (line : string) : string := strip_char QUOTE (strip line).

(** [int(s)] on a text: blanks around, a sign, digits. *)
Definition py_int (s : string) : outcome Z :=
  let '(neg, s1) := sign (strip s) in
  match digitpart s1 with
  | (v, S _, EmptyString) => Returned (if neg then (- v)%Z else v)
  | _ => ValueError
  end.

(** [input()] *)
Definition input (inputs : list string) : outcome (string * list string) :=
  match inputs with
  | [] => EOFError
  | line :: rest => Returned (line, rest)
  end.

(** The first loop: asked until a folder that holds sequence files is
    named. *)
Fixpoint ask_input_folder (fs : file_system) (inputs : list string)
    : outcome (string * list string * list string) :=
  match inputs with
  | [] => EOFError
  | line :: rest =>
      let input_folder := unquote line in
      if is_dir fs input_folder then
        match glob_fas fs input_folder with
        | [] => ask_input_folder fs rest
        | fas_files => Returned (input_folder, fas_files, rest)
        end
      else ask_input_folder fs rest
  end.

(** The second loop: asked until an existing file is named. *)
Fixpoint ask_tree_file (fs : file_system) (inputs : list string)
    : outcome (string * list string) :=
  match inputs with
  | [] => EOFError
  | line :: rest =>
      let tree_file := unquote line in
      if is_file fs tree_file then Returned (tree_file, rest) else ask_tree_file fs rest
  end.

(** [self.MODEL_CONFIGS[code]['description']] *)
Definition description (code : string) : outcome string :=
  match MODEL_CONFIGS !! code with
  | None => KeyError code
  | Some info =>
      match info !! "description" with
      | None => KeyError "description"
      | Some v => Returned (py_str v)
      end
  end.

Fixpoint descriptions (codes : list string) : outcome (list string) :=
  match codes with
  | [] => Returned []
  | code :: rest =>
      d ← description code;
      ds ← descriptions rest;
      Returned (d :: ds)
  end.

(** The models whose descriptions the listing prints, in the order of the
    [print] calls. *)
Definition LISTED : list string :=
  ["M0"; "M1a"; "M2a"; "M7"; "M8"; "Branch"; "Branch-site"; "BranchSite_A_null"].

Definition model_map : list (string * string) :=
  [ ("1", "M0"); ("2", "M1a"); ("3", "M2a"); ("4", "M7"); ("5", "M8"); ("6", "Branch");
    ("7", "BranchSite_A"); ("8", "BranchSite_A_null") ].

(** The selection read from the answer, already stripped and lowered. *)
Definition select_models (model_input : string) : list string :=
  if String.eqb model_input "all" then ["M0"; "M1a"; "M2a"; "M7"; "M8"]
  else
    match omap (fun n => dict_get n model_map) (split_ws model_input) with
    | [] => ["M0"; "M8"]
    | selected_models => selected_models
    end.

(** The configuration the function leaves in [self.config]. *)
Record setup : Type := mk_setup {
  input_folder : string;
  fas_files : list string;
  tree_file : string;
  output_folder : string;
  models : list string;
  timeout : Z;
  run_lrt : bool
}.

(** [interactive_setup]: the configuration and the value returned. *)
Definition interactive_setup (fs : file_system) (inputs : list string)
    : outcome (setup * bool) :=
  '(input_folder, fas_files, inputs) ← ask_input_folder fs inputs;
  '(tree_file, inputs) ← ask_tree_file fs inputs;
  '(line, inputs) ← input inputs;
  let output_folder := unquote line in
  if negb (mkdir fs output_folder) then OSError
  else
    _ ← descriptions LISTED;
    '(line, inputs) ← input inputs;
    let selected_models := select_models (lower (strip line)) in
    '(line, inputs) ← input inputs;
    let timeout_input := strip line in
    timeout ← (if String.eqb timeout_input EmptyString then Returned 1600%Z
               else py_int timeout_input);
    '(line, inputs) ← input inputs;
    let run_lrt := negb (String.eqb (lower (strip line)) "n") in
    '(line, inputs) ← input inputs;
    let confirm := lower (strip line) in
    Returned
      ({| input_folder := input_folder; fas_files := fas_files; tree_file := tree_file;
          output_folder := output_folder; models := selected_models; timeout := timeout;
          run_lrt := run_lrt |},
       negb (String.eqb confirm "n")).

End Setup.

(** ** Codons of the sites ([get_codons_for_sites], [enrich_sites_with_codons]
    in [sites_parser.py])

    The sequences are those the FASTA reader yields, as texts. *)

Module Codons.
Import Py.
Local Open Scope Z_scope.

(** [l[i]] for an integer index: counted from the end when negative;
    [None] is [IndexError]. *)
Definition py_index {A} (l : list A) (i : Z) : option A :=
  let n := Z.of_nat (length l) in
  let j := if i <? 0 then i + n else i in
  if (j <? 0) || (n <=? j) then None else l !! Z.to_nat j.

(** A bound of a slice, brought within [0..len]. *)
Definition clamp (len i : Z) : Z :=
  if i <? 0 then Z.max 0 (i + len) else Z.min i len.

(** [s[a:b]] *)
Definition py_slice (s : string) (a b : Z) : string :=
  let len := Z.of_nat (String.length s) in
  let lo := clamp len a in
  let hi := clamp len b in
  if lo <? hi then String.substring (Z.to_nat lo) (Z.to_nat (hi - lo)) s else EmptyString.

(** The body of the loop over the positions. *)
Definition add_codon (ref_seq : string) (codons : gmap Z string) (pos : Z)
    : gmap Z string :=
  let codon_start := (pos - 1) * 3 in
  let codon_end := codon_start + 3 in
  if codon_end <=? Z.of_nat (String.length ref_seq)
  then <[pos := py_slice ref_seq codon_start codon_end]> codons
  else codons.

Definition get_codons_for_sites (sequences : list string) (positions : list Z)
    (ref_seq_index : Z) : option (gmap Z string) :=
  match sequences with
  | [] => Some ∅
  | _ =>
      match py_index sequences ref_seq_index with
      | Some ref_seq => Some (foldl (add_codon ref_seq) ∅ positions)
      | None => None
      end
  end.

(** [enrich_sites_with_codons], as the column it adds to the table whose
    column of positions is [positions]; [sequences] is [None] when the file
    is missing or cannot be read. *)
Definition enrich_sites_with_codons (positions : list Z) (sequences : option (list string))
    : list string :=
  match positions, sequences with
  | [], _ => []
  | _, None => map (fun _ => EmptyString) positions
  | _, Some seqs =>
      match get_codons_for_sites seqs positions 0 with
      | Some codons => map (fun pos => default "N/A"%string (codons !! pos)) positions
      | None => map (fun _ => EmptyString) positions
      end
  end.

End Codons.

(** ** The sites under selection ([parse_sites_from_file] in
    [sites_parser.py])

    The function takes the report as text.  [None] is the [ValueError] of
    a captured number that does not read as one, which the function lets
    through to its caller. *)

Module Sites.
Import Py Num Re.

(** [.] under [re.DOTALL], and the star of the significance marks. *)
Definition any : ascii → bool := fun _ => true.
Definition star : ascii → bool := fun c => Ascii.eqb c "*"%char.

(** The end of the table of sites in the analysis BEB:
    [(?:\n\n|Time used:|$)]; in the analysis NEB:
    [(?:\n\n|Bayes|Time used:|$)]. *)
Definition beb_end : re :=
  Alt (seq [Chr LF; Chr LF]) (Alt (lit "Time used:") Eos).

Definition neb_end : re :=
  Alt (seq [Chr LF; Chr LF]) (Alt (lit "Bayes") (Alt (lit "Time used:") Eos)).

(** What both patterns share, from "Positively selected sites" to the
    group:
    [Positively selected sites.*?\n\s*\(amino acids refer to.*?\)\s*\n\s*Pr\(w>1\).*?\n\n(.*?)] *)
Definition table_head : list re :=
  [ lit "Positively selected sites"; Star any false; Chr LF; Star ws true;
    lit "(amino acids refer to"; Star any false; Chr ")"; Star ws true; Chr LF;
    Star ws true; lit "Pr(w>1)"; Star any false; Chr LF; Chr LF; Grp (Star any false) ].

(** [BEB\)?.*?analysis.*?] then the shared part, and [NEB analysis.*?] then
    the shared part; both are searched with [re.DOTALL | re.IGNORECASE]. *)
Definition beb_pattern : re :=
  seq ([lit "BEB"; Opt (Chr ")"); Star any false; lit "analysis"; Star any false]
       ++ table_head ++ [beb_end]).

Definition neb_pattern : re :=
  seq ([lit "NEB analysis"; Star any false] ++ table_head ++ [neb_end]).

(** The pattern of a row: optional blanks, the position (digits), blanks,
    one capital letter, blanks, the probability (digits and dots) with its
    stars, blanks, the mean, then +- between optional blanks and the
    standard error; six groups. *)
Definition site_pattern : re :=
  seq [ Star ws true; Grp (Plus dg true); Plus ws true; Grp (Cls isupper); Plus ws true;
        Grp (Plus dg_dot true); Grp (Star star true); Plus ws true; Grp (Plus dg_dot true);
        Star ws true; lit "+-"; Star ws true; Grp (Plus dg_dot true) ].

(** A row of the table the function returns. *)
Record site : Type := mk_site {
  position : Z;
  amino_acid : string;
  pr_w_gt_1 : Q;
  post_mean : Q;
  post_se : Q;
  omega_lower : Q;
  omega_upper : Q;
  significance : string;
  is_significant_95 : bool;
  is_significant_99 : bool
}.

(** [max(0, x)] *)
Definition max0 (x : Q) : Q := if Qltb 0 x then x else 0.

(** The row of a line that matches, from its six groups. *)
Definition site_of_groups (groups : list string) : option site :=
  match groups with
  | [g1; g2; g3; g4; g5; g6] =>
      match int_of_digits g1, float_of_string g3, float_of_string g5, float_of_string g6 with
      | Some position, Some pr_w_gt_1, Some post_mean, Some post_se =>
          let omega_lower := Qred (post_mean - post_se) in
          let omega_upper := Qred (post_mean + post_se) in
          Some {| position := position; amino_acid := g2; pr_w_gt_1 := pr_w_gt_1;
                  post_mean := post_mean; post_se := post_se;
                  omega_lower := max0 omega_lower; omega_upper := omega_upper;
                  significance := g4;
                  is_significant_95 := Qleb (95 # 100) pr_w_gt_1;
                  is_significant_99 := Qleb (99 # 100) pr_w_gt_1 |}
      | _, _, _, _ => None
      end
  | _ => None
  end.

(** The loop over the lines of the table. *)
Fixpoint sites_of_lines (lines : list string) : option (list site) :=
  match lines with
  | [] => Some []
  | line :: rest =>
      if String.eqb (strip line) EmptyString then sites_of_lines rest
      else
        match search false site_pattern line with
        | Some groups =>
            match site_of_groups groups, sites_of_lines rest with
            | Some s, Some sites => Some (s :: sites)
            | _, _ => None
            end
        | None => sites_of_lines rest
        end
  end.

Definition parse_sites_from_file (content method : string) : option (list site) :=
  let pattern := if String.eqb method "BEB" then beb_pattern else neb_pattern in
  match group1 (search true pattern content) with
  | Some sites_text => sites_of_lines (split_char LF (strip sites_text))
  | None => Some []
  end.

End Sites.

(** ** The whole batch ([run_batch_analysis] once the configuration is set) *)

Module Batch.
Import Py Num Backend.

Section Top.

Variable chi2_cdf : Q → Z → Q.

(** What a batch leaves: the results and the log of its runs, the table of
    [_save_summary], and, when the tests are enabled and more than one model
    is selected, the comparisons [_run_lrt_analysis] completed and whether
    it raised.  [run_batch_analysis] lets that exception through to its
    caller, which reports it. *)
Record batch_outcome : Type := mk_outcome {
  runs : batch;
  summary_table : list (list string);
  lrt_outcome : option (list (string * string * lrt_counts) * bool)
}.

Definition run_batch_analysis (cfg : config) (env : string → string → run_env)
    (files : gmap string string) (fas_files : list fas_file) : batch_outcome :=
  let b := run_all cfg env fas_files in
  {| runs := b;
     summary_table := save_summary files (models cfg) (results b);
     lrt_outcome :=
       if run_lrt cfg && (1 <? length (models cfg))%nat
       then Some (run_lrt_analysis chi2_cdf (models cfg) (results b))
       else None |}.

(** Whether the batch ended with an exception. *)
Definition raised (o : batch_outcome) : bool :=
  match lrt_outcome o with
  | Some (_, r) => r
  | None => false
  end.

End Top.

End Batch.

(** ** The branches of a report ([branch_extractor.py])

    The functions take the report as text.  A [float] is an exact rational
    or one of the special values that [float()] also reads, and which the
    functions of this file keep. *)

Module Branches.
Import Py Num Re.

Inductive pyfloat : Type :=
| Finite (q : Q)
| Inf (negative : bool)
| NaN.

(** [float(s)], the spellings of infinity and of not-a-number included. *)
Definition py_float (s : string) : option pyfloat :=
  match float_of_string s with
  | Some q => Some (Finite q)
  | None =>
      let '(negative, t) := sign (lower (strip s)) in
      if String.eqb t "inf" || String.eqb t "infinity" then Some (Inf negative)
      else if String.eqb t "nan" then Some NaN
      else None
  end.

(** *** [extract_branch_table] *)

(** [dN & dS for each branch\s*\n\s*branch\s+t\s+N\s+S\s+dN/dS\s+dN\s+dS\s+N\*dN\s+S\*dS]:
    the title of the table and its row of headers. *)
Definition table_header : list re :=
  [ lit "dN & dS for each branch"; Star ws true; Chr LF; Star ws true; lit "branch";
    Plus ws true; Chr "t"; Plus ws true; Chr "N"; Plus ws true; Chr "S"; Plus ws true;
    lit "dN/dS"; Plus ws true; lit "dN"; Plus ws true; lit "dS"; Plus ws true;
    lit "N*dN"; Plus ws true; lit "S*dS" ].

(** The header, then the group [(.*?)] and [(?:\n\n|$)], searched with
    [re.DOTALL]. *)
Definition table_pattern : re :=
  seq (table_header ++ [Grp (Star Sites.any false); Alt (seq [Chr LF; Chr LF]) Eos]).

(** A row of the table returned; the columns t, N and S are [col_t], [col_N]
    and [col_S] here. *)
Record branch_row : Type := mk_row {
  branch : string;
  col_t : pyfloat;
  col_N : pyfloat;
  col_S : pyfloat;
  dN_dS : pyfloat;
  dN : pyfloat;
  dS : pyfloat;
  N_dN : pyfloat;
  S_dS : pyfloat
}.

(** The row of a line, when it has nine fields of which the last eight read
    as numbers. *)
Definition row_of_line (line : string) : option branch_row :=
  match split_ws (strip line) with
  | p0 :: p1 :: p2 :: p3 :: p4 :: p5 :: p6 :: p7 :: p8 :: _ =>
      match py_float p1, py_float p2, py_float p3, py_float p4,
            py_float p5, py_float p6, py_float p7, py_float p8 with
      | Some f1, Some f2, Some f3, Some f4, Some f5, Some f6, Some f7, Some f8 =>
          Some (mk_row p0 f1 f2 f3 f4 f5 f6 f7 f8)
      | _, _, _, _, _, _, _, _ => None
      end
  | _ => None
  end.

(** Every occurrence of [w] in [s] is directly followed by [next]. *)
Fixpoint followed_by (w next s : string) : bool :=
  (if String.prefix w s then String.prefix (w +:+ next) s else true)
  && match s with
     | EmptyString => true
     | String _ s' => followed_by w next s'
     end.

Definition extract_branch_table (content : string) : list branch_row :=
  match group1 (search false table_pattern content) with
  | Some table_text => omap row_of_line (split_char LF (strip table_text))
  | None => []
  end.

(** [dict(zip(df['branch'], df['dN_dS']))] *)
Definition extract_branch_omega_map (content : string) : dict pyfloat :=
  foldl (fun d row => dict_set (branch row) (dN_dS row) d) [] (extract_branch_table content).

(** *** [extract_tree_structure] *)

(** [^\(\(.*\);?$], matched at the start of a line. *)
Definition tree_pattern : re :=
  seq [Chr "("; Chr "("; Star dot true; Chr ")"; Opt (Chr ";"); Eos].

(** [re.match(pattern, line)] *)
Definition re_match (r : re) (line : string) : bool :=
  bool_decide (is_Some (run false r None line [] (fun _ _ caps => Some caps))).

Fixpoint first_tree (lines : list string) : option string :=
  match lines with
  | [] => None
  | line :: rest =>
      let line := strip line in
      if re_match tree_pattern line then Some line else first_tree rest
  end.

Definition extract_tree_structure (content : string) : option string :=
  first_tree (split_char LF content).

(** *** [create_tree_json_with_omega] *)

(** A node of the tree that is built: a dict with the keys [children] and
    [omega], with [label] once it is set ([None] here: no such key), and,
    for an inner node, with [branch_id] ([None] here: no such key).  The
    dicts are shared between the stack, the lists of children and
    [current_node]; they live in a store and are named by their index. *)
Record node : Type := mk_node {
  label : option string;
  omega : option pyfloat;
  branch_id : option (option string);
  children : list nat
}.

Record state : Type := mk_state {
  i : Z;
  stack : list nat;
  current_node : option nat;
  store : list node
}.

Inductive outcome (A : Type) : Type :=
| Returned (a : A)
| IndexError
| OutOfFuel.
Arguments Returned {A} a.
Arguments IndexError {A}.
Arguments OutOfFuel {A}.

(** [c in stops] for a character. *)
Definition char_in (c : ascii) (stops : string) : bool :=
  existsb (Ascii.eqb c) (list_ascii_of_string stops).

(** The inner loops: the characters of [s] up to the first one of [stops]. *)
Fixpoint span_until (stops : string) (s : string) : string :=
  match s with
  | EmptyString => EmptyString
  | String c s' => if char_in c stops then EmptyString else String c (span_until stops s')
  end.

(** [s[n:]] for [0 <= n]. *)
Fixpoint drop_chars (n : nat) (s : string) : string :=
  match n, s with
  | O, _ => s
  | S n', String _ s' => drop_chars n' s'
  | S _, EmptyString => EmptyString
  end.

Definition update (id : nat) (f : node → node) (store : list node) : list node :=
  match store !! id with
  | Some n => <[id := f n]> store
  | None => store
  end.

(** [stack[-1]['children'].append(x)] when the stack is not empty, else
    [current_node = x]; the top of the stack is the head of the list. *)
Definition attach (x : nat) (stack : list nat) (current_node : option nat)
    (store : list node) : option nat * list node :=
  match stack with
  | top :: _ =>
      (current_node,
       update top (fun n => mk_node (label n) (omega n) (branch_id n) (children n ++ [x])) store)
  | [] => (Some x, store)
  end.

Section Parse.

Variable newick_str : string.
Variable branch_map : dict pyfloat.

(** One turn of the loop [while i < len(newick_str)]; [None] is the
    [IndexError] of [stack.pop()] on the empty stack. *)
Definition step (st : state) : option state :=
  match String.get (Z.to_nat (i st)) newick_str with
  | None => Some st
  | Some char =>
      if Ascii.eqb char "("%char then
        let id := length (store st) in
        Some (mk_state (i st + 1) (id :: stack st) (Some id)
                (store st ++ [mk_node None None (Some None) []]))
      else if Ascii.eqb char ","%char then
        Some (mk_state (i st + 1) (stack st) (current_node st) (store st))
      else if Ascii.eqb char ")"%char then
        match stack st with
        | [] => None
        | id :: stack' =>
            let node_id := span_until "(),;" (drop_chars (Z.to_nat (i st + 1)) newick_str) in
            let j := (i st + 1 + Z.of_nat (String.length node_id))%Z in
            let store1 :=
              if String.eqb node_id EmptyString then store st
              else
                let bid := before_first ":" node_id in
                update id (fun n =>
                  match dict_get bid branch_map with
                  | Some w => mk_node (Some node_id) (Some w) (Some (Some bid)) (children n)
                  | None => mk_node (Some node_id) (omega n) (branch_id n) (children n)
                  end) (store st) in
            let '(current, store2) := attach id stack' (current_node st) store1 in
            Some (mk_state (j - 1 + 1) stack' current store2)
        end
      else
        let leaf_label := span_until "(),;:" (drop_chars (Z.to_nat (i st)) newick_str) in
        let j := (i st + Z.of_nat (String.length leaf_label))%Z in
        if String.eqb leaf_label EmptyString then
          Some (mk_state (j - 1 + 1) (stack st) (current_node st) (store st))
        else
          let id := length (store st) in
          let store1 := store st ++ [mk_node (Some leaf_label) None None []] in
          let '(current, store2) := attach id (stack st) (current_node st) store1 in
          Some (mk_state (j - 1 + 1) (stack st) current store2)
  end.

(** The loop, for [fuel] turns at most. *)
Fixpoint loop (fuel : nat) (st : state) : outcome (option nat * list node) :=
  match fuel with
  | O => OutOfFuel
  | S fuel' =>
      if (i st <? Z.of_nat (String.length newick_str))%Z then
        match step st with
        | Some st' => loop fuel' st'
        | None => IndexError
        end
      else Returned (current_node st, store st)
  end.

End Parse.

(** [parse_newick_to_json]: the node returned, if any (none stands for the
    empty dict), and the store it lives in. *)
Definition parse_newick_to_json (fuel : nat) (newick_str : string)
    (branch_map : dict pyfloat) : outcome (option nat * list node) :=
  let newick_str := Setup.rstrip_char ";" (strip newick_str) in
  loop newick_str branch_map fuel (mk_state 0 [] None []).

Definition create_tree_json_with_omega (fuel : nat) (content : string)
    : outcome (option nat * list node) :=
  match extract_tree_structure content with
  | Some tree_str => parse_newick_to_json fuel tree_str (extract_branch_omega_map content)
  | None => Returned (None, [])
  end.

End Branches.

(** ** Starting a batch from the graphical front end ([start_analysis] and
    [_run_thread] in [main_gui.py]) *)

Module Gui.
Import Py Num Branches.

(** The dict [_run_thread] sets as the configuration of the batch (the
    folders and the events of the window are left out). *)
Record batch_config : Type := mk_batch_config {
  models : list string;
  custom_model_params : gmap string (gmap string Backend.pyval);
  labeled_tree_content : option string;
  labeled_tree_branchsite : option string;
  omega : pyfloat;
  cleandata : Z;
  timeout : Z;
  run_lrt : bool;
  tree_file : string
}.

(** How the two functions end: nothing is started, with the reason; the
    body of [_run_thread] raises before the batch is called, which its
    [except] reports as a critical error; or the batch is called with a
    configuration. *)
Inductive started : Type :=
| NothingSelected
| BranchSiteTreeMissing
| BranchTreeMissing
| CriticalError
| Batch (cfg : batch_config).

Definition needs_branchsite (selected : list string) : bool :=
  existsb (contains "BranchSite") selected.

Definition needs_branch (selected : list string) : bool := Backend.mem "Branch" selected.

(** A label that counts in a condition: neither [None] nor empty. *)
Definition labeled (tree : option string) : bool :=
  match tree with
  | Some t => negb (String.eqb t EmptyString)
  | None => false
  end.

(** [float(self.entry_omega.get() or 0.5)] on the text of the entry; [None]
    is [ValueError]. *)
Definition omega_of_entry (entry_omega : string) : option pyfloat :=
  if String.eqb entry_omega EmptyString then Some (Finite (1 # 2))
  else py_float entry_omega.

(** [int(self.cleandata_var.get())] on the state of the check box. *)
Definition int_of_bool (b : bool) : Z := if b then 1%Z else 0%Z.

Section FrontEnd.

Variable set_iter : list string → list string.

(** [_run_thread] up to the call of the batch. *)
Definition run_thread (selected : list string) (include_neutral : bool)
    (tree_file : string) (tree_branch_labeled tree_branchsite_labeled : option string)
    (custom : gmap string (gmap string Backend.pyval)) (entry_omega : string)
    (cleandata_var : bool) : started :=
  if needs_branchsite selected && negb (labeled tree_branchsite_labeled)
  then BranchSiteTreeMissing
  else if needs_branch selected && negb (labeled tree_branch_labeled)
  then BranchTreeMissing
  else
    let models_to_run :=
      if include_neutral then Backend.auto_complete_null_models set_iter selected true
      else selected in
    match omega_of_entry entry_omega with
    | None => CriticalError
    | Some omega =>
        Batch {| models := models_to_run;
                 custom_model_params := custom;
                 labeled_tree_content := tree_branch_labeled;
                 labeled_tree_branchsite := tree_branchsite_labeled;
                 omega := omega;
                 cleandata := int_of_bool cleandata_var;
                 timeout := 1600;
                 run_lrt := true;
                 tree_file := tree_file |}
    end.

(** [start_analysis]; [checked] are the models whose box is ticked, in the
    order of the catalog.  The box of the neutral models is read once here
    and once in [_run_thread]; it is taken not to change in between. *)
Definition start_analysis (checked : list string) (include_neutral : bool)
    (tree_file : string) (tree_branch_labeled tree_branchsite_labeled : option string)
    (custom : gmap string (gmap string Backend.pyval)) (entry_omega : string)
    (cleandata_var : bool) : started :=
  match checked with
  | [] => NothingSelected
  | _ =>
      run_thread (Backend.auto_complete_null_models set_iter checked include_neutral)
        include_neutral tree_file tree_branch_labeled tree_branchsite_labeled custom
        entry_omega cleandata_var
  end.

End FrontEnd.

End Gui.

(** ** A run with the caller's own profiles and control files
    ([_run_single_analysis] in [codeml_backend.py], all the keys it reads) *)

Module Run.
Import Py Num.

(** The dict [self.config] with the keys [_run_single_analysis] reads.  For
    the three keys that may be missing, [None] is a key that is absent or
    holds [None]. *)
Record config_dict : Type := mk_config_dict {
  models : list string;
  custom_model_params : option (gmap string (gmap string Backend.pyval));
  custom_model_configs : option (gmap string (gmap string Backend.pyval));
  model_ctl_paths : option (gmap string string);
  config_omega : option Backend.pyval;
  cleandata : Z;
  timeout : Z;
  run_lrt : bool;
  tree_file_name : string;
  labeled_tree_content : option string;
  labeled_tree_branchsite : option string
}.

(** The profiles of the caller: those of the key [custom_model_params], or
    of the former key [custom_model_configs] when the first is missing. *)
Definition custom_configs (c : config_dict)
    : gmap string (gmap string Backend.pyval) :=
  match custom_model_params c with
  | Some custom => custom
  | None => default ∅ (custom_model_configs c)
  end.

(** The configuration with the profiles resolved. *)
Definition resolved (c : config_dict) : Backend.config :=
  Backend.mk_config (models c) (custom_configs c) (config_omega c) (cleandata c)
    (timeout c) (run_lrt c) (tree_file_name c) (labeled_tree_content c)
    (labeled_tree_branchsite c).

(** [custom_paths.get(model_name)] when it counts in a condition: a path
    that is not the empty text. *)
Definition provided_ctl (c : config_dict) (model_name : string) : option string :=
  match default ∅ (model_ctl_paths c) !! model_name with
  | Some p => if String.eqb p EmptyString then None else Some p
  | None => None
  end.

(** What stands at a path: nothing that is a file, a file that cannot be
    read as text (reading raises), or a file with its text. *)
Inductive at_path : Type :=
| Missing
| Unreadable
| Text (raw : string).

(** What [_run_single_analysis] does once the control file is written: the
    result, and the lines appended to the log when the run ends. *)
Definition after_ctl (cfg : Backend.config) (fas : Backend.fas_file) (model_name : string)
    (env : Backend.run_env) : option Backend.run_result * list string :=
  let base_name := Backend.stem fas in
  let stdout_lines := map rstrip (Backend.stdout_raw env) in
  let stderr_lines := map rstrip (Backend.stderr_raw env) in
  let stops :=
    length (List.filter Stream.is_prompt (Backend.stdout_raw env ++ Backend.stderr_raw env)) in
  match Backend.proc env with
  | Backend.Raised message =>
      (None, [Backend.tag model_name base_name +:+ "EXCEPTION - " +:+ message])
  | Backend.TimeoutExpired =>
      (None, Backend.timeout_log cfg model_name base_name stdout_lines stderr_lines)
  | Backend.Exited rc =>
      let lnL := Backend.output_text env ≫= Backend.extract_likelihood in
      let np_params := Backend.output_text env ≫= Backend.extract_np in
      let omega := Backend.output_text env ≫= SitesParser.extract_omega_robust in
      let found := bool_decide (is_Some (Backend.output_text env)) in
      let output_path :=
        model_name +:+ "/" +:+ Backend.output_filename base_name model_name in
      let path := if found then Some output_path else None in
      (Some {| Backend.output_file := path; Backend.results_file := path;
               Backend.lnL := lnL; Backend.np := np_params; Backend.omega := omega;
               Backend.execution_time := Backend.elapsed env;
               Backend.status := if (rc =? 0)%Z && found then "success" else "partial";
               Backend.stop_count := stops |},
       Backend.exit_log model_name base_name rc stdout_lines stderr_lines output_path found
         ("FINISHED (lnL=" +:+ Backend.opt_str repr_float lnL
          +:+ ", np=" +:+ Backend.opt_str str_of_Z np_params
          +:+ ", ω=" +:+ Backend.opt_str repr_float omega
          +:+ ", time=" +:+ format_fixed 1 (Backend.elapsed env) +:+ "s, stop_count="
          +:+ str_of_nat stops +:+ ")"))
  end.

Section World.

(** The files of the caller. *)
Variable fs : string → at_path.

(** The three substitutions of [_replace_setting] on the text of a control
    file of the caller: the right-hand sides of [seqfile], [treefile] and
    [outfile] replaced by the names of the run.  [None] is the error
    [re.sub] raises on a name that is no valid replacement template. *)
Variable replace_settings : string → string → string → string → option string.

(** The control file of a run: the caller's own with the three names
    replaced, when a path is given for the model and a file stands there;
    otherwise the one generated from the profile.  [None] is an exception,
    which ends the run without result. *)
Definition ctl_content (c : config_dict) (fas : Backend.fas_file) (model_name : string)
    : option string :=
  let generated := Backend.ctl_content (resolved c) fas model_name in
  match provided_ctl c model_name with
  | Some provided =>
      match fs provided with
      | Text raw =>
          replace_settings raw (Backend.abs_path fas)
            (Backend.tree_filename (resolved c) model_name)
            (Backend.output_filename (Backend.stem fas) model_name)
      | Unreadable => None
      | Missing => generated
      end
  | None => generated
  end.

(** The warning logged when the path given holds no file. *)
Definition ctl_warning (c : config_dict) (model_name : string) : list string :=
  match provided_ctl c model_name with
  | Some provided =>
      match fs provided with
      | Missing =>
          ["Warning: provided .ctl for " +:+ model_name +:+ " not found: " +:+ provided
           +:+ "; generating default .ctl"]
      | _ => []
      end
  | None => []
  end.

(** [_run_single_analysis]; the line of an error ends with the message of
    the exception, which is left out. *)
Definition run_single_analysis (c : config_dict) (fas : Backend.fas_file)
    (model_name : string) (env : Backend.run_env)
    : option Backend.run_result * list string :=
  match ctl_content c fas model_name with
  | None =>
      (None, ctl_warning c model_name
             ++ ["ERROR creating .ctl [" +:+ model_name +:+ "] " +:+ Backend.stem fas +:+ ": "])
  | Some _ =>
      let '(result, lines) := after_ctl (resolved c) fas model_name env in
      (result, ctl_warning c model_name ++ lines)
  end.

End World.

End Run.

(** * Properties *)

Module PyFacts.
Import Py.

Lemma prefix_app (n post : string) : String.prefix n (n +:+ post) = true.
Proof.
  induction n as [|c n IH]; simpl.
  - by destruct post.
  - destruct (ascii_dec c c); [exact IH | done].
Qed.

Lemma prefix_inv (n h : string) :
  String.prefix n h = true → ∃ post, h = n +:+ post.
Proof.
  revert h. induction n as [|c n IH]; intros h Hp.
  - by exists h.
  - destruct h as [|d h]; simpl in Hp; [done|].
    destruct (ascii_dec c d) as [->|]; [|done].
    destruct (IH _ Hp) as [post ->]. by exists post.
Qed.

Lemma contains_nil (n : string) : contains n EmptyString = String.prefix n EmptyString.
Proof. unfold contains. apply orb_false_r. Qed.

Lemma contains_cons (n : string) (c : ascii) (h : string) :
  contains n (String c h) = String.prefix n (String c h) || contains n h.
Proof. reflexivity. Qed.

(** [needle in hay] holds exactly when [hay] splits around [needle]. *)
Lemma contains_spec (n h : string) :
  contains n h = true ↔ ∃ pre post, h = pre +:+ n +:+ post.
Proof.
  split.
  - induction h as [|c h IH]; intros H.
    + rewrite contains_nil in H. destruct (prefix_inv _ _ H) as [post E].
      by exists EmptyString, post.
    + rewrite contains_cons in H. apply orb_true_iff in H as [H|H].
      * destruct (prefix_inv _ _ H) as [post E]. by exists EmptyString, post.
      * destruct (IH H) as (pre & post & ->). by exists (String c pre), post.
  - intros (pre & post & ->). induction pre as [|c pre IH].
    + change (EmptyString +:+ n +:+ post) with (n +:+ post).
      destruct (n +:+ post) eqn:E.
      * rewrite contains_nil, <- E. apply prefix_app.
      * rewrite contains_cons, <- E, prefix_app. done.
    + change (String c pre +:+ n +:+ post) with (String c (pre +:+ n +:+ post)).
      rewrite contains_cons, IH. apply orb_true_r.
Qed.

Lemma lower_app (a b : string) : lower (a +:+ b) = lower a +:+ lower b.
Proof. induction a as [|c a IH]; simpl; [done | by rewrite IH]. Qed.

Lemma lower_split (s a b : string) :
  lower s = a +:+ b → ∃ a' b', s = a' +:+ b' ∧ lower a' = a ∧ lower b' = b.
Proof.
  revert s. induction a as [|c a IH]; intros s H.
  - by exists EmptyString, s.
  - destruct s as [|d s]; simpl in H; [done|].
    injection H as Hc Hs. destruct (IH _ Hs) as (a' & b' & -> & Ha & Hb).
    exists (String d a'), b'. simpl. by rewrite Hc, Ha.
Qed.

Lemma app_cons (x : ascii) (a b : string) : String x a +:+ b = String x (a +:+ b).
Proof. reflexivity. Qed.

Lemma app_nil_l (b : string) : EmptyString +:+ b = b.
Proof. reflexivity. Qed.

Lemma app_assoc (a b c : string) : (a +:+ b) +:+ c = a +:+ b +:+ c.
Proof. induction a as [|x a IH]; [done | by rewrite !app_cons, IH]. Qed.

Lemma app_nil_r (a : string) : a +:+ EmptyString = a.
Proof. induction a as [|x a IH]; [done | by rewrite app_cons, IH]. Qed.

Lemma contains_app_r (n a b : string) : contains n b = true → contains n (a +:+ b) = true.
Proof.
  rewrite !contains_spec. intros (pre & post & ->).
  exists (a +:+ pre), post. by rewrite app_assoc.
Qed.

Lemma contains_app_l (n a b : string) : contains n a = true → contains n (a +:+ b) = true.
Proof.
  rewrite !contains_spec. intros (pre & post & ->).
  exists pre, (post +:+ b). by rewrite !app_assoc.
Qed.

Lemma isspace_lower (c : ascii) : isspace (lower_ascii c) = isspace c.
Proof. destruct c as [[] [] [] [] [] [] [] []]; reflexivity. Qed.

(** [rstrip] cuts a run of blanks off the end. *)
Lemma rstrip_prefix (s : string) : ∃ t, s = rstrip s +:+ t.
Proof.
  induction s as [|c s [t IH]].
  - by exists EmptyString.
  - simpl. destruct (rstrip s) as [|d r] eqn:E.
    + destruct (isspace c).
      * by exists (String c s).
      * exists t. rewrite app_cons. f_equal. exact IH.
    + exists t. rewrite app_cons. f_equal. exact IH.
Qed.

Lemma rstrip_cons_nonspace (c : ascii) (b : string) :
  isspace c = false → rstrip (String c b) = String c (rstrip b).
Proof. intros H. simpl. rewrite H. by destruct (rstrip b). Qed.

Lemma rstrip_app_nonspace (a : string) (c : ascii) (b : string) :
  isspace c = false → rstrip (a +:+ String c b) = a +:+ String c (rstrip b).
Proof.
  intros H. induction a as [|x a IH].
  - by apply rstrip_cons_nonspace.
  - change (String x a +:+ String c b) with (String x (a +:+ String c b)).
    change (rstrip (String x (a +:+ String c b))) with
      (match rstrip (a +:+ String c b) with
       | EmptyString => if isspace x then EmptyString else String x EmptyString
       | r => String x r
       end).
    rewrite IH. by destruct a.
Qed.

Lemma contains_occurs (w s : string) : contains w s = true ↔ occurs w s.
Proof. apply contains_spec. Qed.

End PyFacts.

(** ** Prompt detection in the stream reader *)

Module StreamFacts.
Import Py PyFacts Stream.

(** The test the reader performs, on the stripped and lowered line, is the
    occurrence in the line as it was read, for a word that does not end with
    a blank. *)
Lemma contains_lower_rstrip (w' : string) (d : ascii) (line : string) :
  isspace d = false →
  contains (w' +:+ String d EmptyString) (lower (rstrip line)) = true
  ↔ occurs_ci (w' +:+ String d EmptyString) line.
Proof.
  intros Hd. set (w := w' +:+ String d EmptyString). split.
  - intros H. apply contains_spec in H as (pre & post & H).
    apply lower_split in H as (a & bc & Hs & Ha & Hbc).
    apply lower_split in Hbc as (m & b & -> & Hm & Hb).
    destruct (rstrip_prefix line) as [t Ht].
    exists a, m, (b +:+ t). split; [|done].
    rewrite Ht, Hs at 1. by rewrite !app_assoc.
  - intros (pre & mid & post & -> & Hmid).
    unfold w in Hmid. apply lower_split in Hmid as (m' & c1 & -> & Hm' & Hc).
    destruct c1 as [|c [|? ?]]; simpl in Hc; try done.
    injection Hc as Hc.
    assert (isspace c = false) as Hsp by (by rewrite <- isspace_lower, Hc).
    rewrite app_assoc, <- (app_assoc pre m').
    change (String c EmptyString +:+ post) with (String c post).
    rewrite rstrip_app_nonspace by done.
    rewrite lower_app.
    change (lower (String c (rstrip post))) with (String (lower_ascii c) (lower (rstrip post))).
    rewrite lower_app, Hm', Hc.
    apply contains_spec. exists (lower pre), (lower (rstrip post)).
    unfold w. rewrite !app_assoc. done.
Qed.

Lemma stop_codon_iff (line : string) :
  is_stop_codon line = true ↔ occurs_ci "stop" line ∧ occurs_ci "codon" line.
Proof.
  unfold is_stop_codon. rewrite andb_true_iff.
  rewrite (contains_lower_rstrip "sto" "p") by done.
  rewrite (contains_lower_rstrip "codo" "n") by done. done.
Qed.

Lemma press_enter_iff (line : string) :
  is_press_enter line = true ↔ occurs_ci "press" line ∧ occurs_ci "enter" line.
Proof.
  unfold is_press_enter. rewrite andb_true_iff.
  rewrite (contains_lower_rstrip "pres" "s") by done.
  rewrite (contains_lower_rstrip "ente" "r") by done. done.
Qed.

(** C8.  A line read from the external process is taken for a blocking
    prompt exactly when, letter case ignored, it holds both "stop" and
    "codon" (anywhere, in any order) or both "press" and "enter"; so a line
    without "stop" (one that holds "codon" only, say) that is no
    press-enter line is not taken for a prompt. *)
Theorem prompt_detection (line : string) :
  (is_prompt line = true ↔
     (occurs_ci "stop" line ∧ occurs_ci "codon" line)
     ∨ (occurs_ci "press" line ∧ occurs_ci "enter" line))
  ∧ (¬ occurs_ci "stop" line →
     ¬ (occurs_ci "press" line ∧ occurs_ci "enter" line) →
     is_prompt line = false).
Proof.
  assert (is_prompt line = true ↔
     (occurs_ci "stop" line ∧ occurs_ci "codon" line)
     ∨ (occurs_ci "press" line ∧ occurs_ci "enter" line)) as Hiff.
  { unfold is_prompt. rewrite orb_true_iff, stop_codon_iff, press_enter_iff. done. }
  split; [exact Hiff|].
  intros Hstop Hpress. destruct (is_prompt line) eqn:E; [|done].
  exfalso. destruct Hiff as [Hiff _]. destruct (Hiff eq_refl) as [[? _]|?]; auto.
Qed.

(** Occurrence is decided by the test of the reader. *)
Lemma occurs_ci_dec (w' : string) (d : ascii) (line : string) :
  isspace d = false →
  contains (w' +:+ String d EmptyString) (lower (rstrip line)) = false →
  ¬ occurs_ci (w' +:+ String d EmptyString) line.
Proof.
  intros Hd Hc Ho. apply (contains_lower_rstrip w' d line Hd) in Ho. congruence.
Qed.

(** The theorem at the line "Codon table loaded": "codon" without "stop". *)
Lemma prompt_detection_witness :
  is_prompt ("Codon table loaded" +:+ String LF EmptyString) = false.
Proof.
  apply (prompt_detection ("Codon table loaded" +:+ String LF EmptyString)).
  - apply (occurs_ci_dec "sto" "p"); reflexivity.
  - intros [H _]. revert H. apply (occurs_ci_dec "pres" "s"); reflexivity.
Defined.

End StreamFacts.

(** ** The ratio extractors *)

Module SitesParserFacts.
Import Py Num PyFacts SitesParser TableSpec.

(** C4.  A text that holds "site class", "background w" and "foreground w"
    gets no single ratio from the robust extractor, whatever else it
    holds: a branch table that reads well, a labelled ratio. *)
Theorem robust_not_applicable (content : string) :
  occurs "site class" content →
  occurs "background w" content →
  occurs "foreground w" content →
  extract_omega_robust content = None.
Proof.
  intros H1 H2 H3. unfold extract_omega_robust.
  apply contains_occurs in H1, H2, H3. by rewrite H1, H2, H3.
Qed.

(** The theorem at a branch-site report whose branch table alone would give
    the ratio 0.42, and its labelled ratio 0.35. *)
Lemma robust_not_applicable_witness :
  extract_omega_global Samples.report_branchsite = Some (21 # 50)
  ∧ extract_omega_values_from_model_params Samples.report_branchsite = Some (7 # 20)
  ∧ extract_omega_robust Samples.report_branchsite = None.
Proof.
  split; [vm_compute; reflexivity|]. split; [vm_compute; reflexivity|].
  apply (robust_not_applicable Samples.report_branchsite);
    apply contains_occurs; vm_compute; reflexivity.
Defined.


(** [split] does not see the blanks [strip] removes. *)
Lemma split_ws_lstrip (s : string) : split_ws (lstrip s) = split_ws s.
Proof.
  induction s as [|c s IH]; [done|].
  simpl. destruct (isspace c) eqn:E; [exact IH|]. simpl. by rewrite E.
Qed.

Lemma rstrip_empty_inv (s : string) :
  rstrip s = EmptyString → s = EmptyString ∨ ∃ c s', s = String c s' ∧ isspace c = true.
Proof.
  destruct s as [|c s]; [by left|]. intros H. right. exists c, s. split; [done|].
  simpl in H. destruct (rstrip s); [|done]. by destruct (isspace c).
Qed.

Lemma rstrip_cons_inv (s : string) (d : ascii) (r : string) :
  rstrip s = String d r → ∃ s', s = String d s'.
Proof.
  intros H. destruct (rstrip_prefix s) as [t Ht]. rewrite H in Ht.
  exists (r +:+ t). exact Ht.
Qed.

Lemma split_ws_rstrip (s : string) : split_ws (rstrip s) = split_ws s.
Proof.
  induction s as [|c s IH]; [done|].
  change (rstrip (String c s)) with
    (match rstrip s with
     | EmptyString => if isspace c then EmptyString else String c EmptyString
     | r => String c r
     end).
  destruct (rstrip s) as [|d r] eqn:E.
  - assert (split_ws s = []) as Hs by (by rewrite <- IH).
    destruct (isspace c) eqn:Hc.
    + simpl. by rewrite Hc, Hs.
    + destruct (rstrip_empty_inv _ E) as [->|(c' & s' & -> & Hc')].
      * simpl. by rewrite Hc.
      * simpl. rewrite Hc, Hc'. simpl in Hs. rewrite Hc' in Hs. by rewrite Hs.
  - destruct (rstrip_cons_inv _ _ _ E) as [s' ->].
    change (split_ws (String c (String d r))) with
      (if isspace c then split_ws (String d r)
       else if isspace d then String c EmptyString :: split_ws (String d r)
       else match split_ws (String d r) with
            | t :: ts => String c t :: ts
            | [] => [String c EmptyString]
            end).
    change (split_ws (String c (String d s'))) with
      (if isspace c then split_ws (String d s')
       else if isspace d then String c EmptyString :: split_ws (String d s')
       else match split_ws (String d s') with
            | t :: ts => String c t :: ts
            | [] => [String c EmptyString]
            end).
    by rewrite IH.
Qed.

Lemma split_ws_strip (s : string) : split_ws (strip s) = split_ws s.
Proof. unfold strip. by rewrite split_ws_rstrip, split_ws_lstrip. Qed.










Lemma omap_keep_value (l : list string) :
  omap keep_value l = List.filter TagSpec.kept (omap float_of_string l).
Proof.
  induction l as [|x l IH]; [done|].
  cbn [omap list_omap]. unfold keep_value at 1.
  destruct (float_of_string x) as [v|]; [|exact IH].
  cbn [List.filter]. fold (TagSpec.kept v).
  destruct (TagSpec.kept v); [by rewrite IH | exact IH].
Qed.

End SitesParserFacts.

(** ** The control file *)

Module CtlFacts.
Import Py Num PyFacts Backend.

Lemma ctl_template_tail (seqfile treefile outfile cleandata model NSsites CodonFreq
    fix_omega final_omega : string) :
  ctl_template seqfile treefile outfile cleandata model NSsites CodonFreq
    fix_omega final_omega
  = ctl_head seqfile treefile outfile cleandata model NSsites CodonFreq
    +:+ ctl_tail fix_omega final_omega.
Proof. unfold ctl_template, ctl_head, ctl_tail. rewrite !app_assoc. reflexivity. Qed.

(** For a model of [NEUTRAL_MODELS] and a profile that holds the four keys
    read, the control file ends with the fixed ratio 1, whatever ratio the
    caller passes and whatever the profile says. *)
Lemma generate_ctl_content_neutral (seqfile treefile outfile : string)
    (model_config : gmap string pyval) (omega : Q) (cleandata : Z) (model_name : string) :
  is_Some (NEUTRAL_MODELS !! model_name) →
  is_Some (model_config !! "fix_omega") →
  is_Some (model_config !! "model") →
  is_Some (model_config !! "NSsites") →
  is_Some (model_config !! "CodonFreq") →
  ∃ head,
    generate_ctl_content seqfile treefile outfile model_config omega cleandata
      (Some model_name) = Some (head +:+ ctl_tail "1" "1.0").
Proof.
  intros Hn [f Hf] [m Hm] [ns Hns] [cf Hcf].
  unfold generate_ctl_content, is_neutral.
  rewrite Hf, Hm, Hns, Hcf, (bool_decide_eq_true_2 _ Hn).
  rewrite ctl_template_tail. eexists. reflexivity.
Qed.

(** The whole catalog of neutral models: nothing else is forced. *)
Lemma neutral_models (model_name : string) :
  is_Some (NEUTRAL_MODELS !! model_name) ↔
  model_name = "M0" ∨ model_name = "M1a" ∨ model_name = "BranchSite_A_null".
Proof.
  unfold NEUTRAL_MODELS. cbn [list_to_map foldr uncurry fst snd].
  destruct (decide (model_name = "M0")) as [->|H0];
    [split; [auto | intros _; by rewrite lookup_insert_eq]|].
  rewrite lookup_insert_ne by done.
  destruct (decide (model_name = "M1a")) as [->|H1];
    [split; [auto | intros _; by rewrite lookup_insert_eq]|].
  rewrite lookup_insert_ne by done.
  destruct (decide (model_name = "BranchSite_A_null")) as [->|H2];
    [split; [auto | intros _; by rewrite lookup_insert_eq]|].
  rewrite lookup_insert_ne by done. rewrite lookup_empty.
  split; [by intros [? ?] | intros [?|[?|?]]; done].
Qed.

(** C1 at the branch-site null model.  With a profile overridden to a free
    ratio the control file ends with [fix_omega = 0] and the caller's initial
    ratio 0.5; with the profile of the catalog it ends with [fix_omega = 1]
    and, again, the caller's 0.5.  Neither holds [omega = 1.0]: the model is
    not in [NEUTRAL_MODELS], which lists it under its former name. *)
Theorem generate_ctl_content_branch_site_null :
  is_neutral (Some "Branch-site_null") = false
  ∧ (∃ head,
       generate_ctl_content "/data/gene1.fas" "tree.nwk" "gene1_Branch-site_null_results.txt"
         (resolve_model_config Samples.override_free "Branch-site_null") (1 # 2) 1
         (Some "Branch-site_null") = Some (head +:+ ctl_tail "0" "0.5")
       ∧ contains "fix_omega = 1" (head +:+ ctl_tail "0" "0.5") = false
       ∧ contains "omega = 1.0" (head +:+ ctl_tail "0" "0.5") = false)
  ∧ (∃ head,
       generate_ctl_content "/data/gene1.fas" "tree.nwk" "gene1_Branch-site_null_results.txt"
         (resolve_model_config ∅ "Branch-site_null") (1 # 2) 1
         (Some "Branch-site_null") = Some (head +:+ ctl_tail "1" "0.5")
       ∧ contains "omega = 1.0" (head +:+ ctl_tail "1" "0.5") = false).
Proof.
  split; [vm_compute; reflexivity|]. split.
  - exists (ctl_head "/data/gene1.fas" "tree.nwk" "gene1_Branch-site_null_results.txt"
              "1" "2" "2" "7").
    repeat split; vm_compute; reflexivity.
  - exists (ctl_head "/data/gene1.fas" "tree.nwk" "gene1_Branch-site_null_results.txt"
              "1" "2" "2" "7").
    repeat split; vm_compute; reflexivity.
Qed.

End CtlFacts.

(** ** Stable sorting by a key *)

Module SortFacts.
Import Num.
Local Open Scope nat_scope.

Section Sort.
Context {A : Type} (key : A → nat).

Lemma insert_by_perm (le : A → A → bool) (x : A) (l : list A) :
  insert_by le x l ≡ₚ x :: l.
Proof.
  induction l as [|y l IH]; [done|]. simpl. destruct (le x y); [done|].
  rewrite IH. apply perm_swap.
Qed.

Lemma sort_by_perm (le : A → A → bool) (l : list A) : sort_by le l ≡ₚ l.
Proof.
  induction l as [|x l IH]; [done|].
  unfold sort_by in *. simpl. by rewrite insert_by_perm, IH.
Qed.

Lemma sort_by_cons (le : A → A → bool) (x : A) (l : list A) :
  sort_by le (x :: l) = insert_by le x (sort_by le l).
Proof. reflexivity. Qed.

Lemma insert_by_sorted (x : A) (l : list A) :
  StronglySorted (λ a b, key a ≤ key b) l →
  StronglySorted (λ a b, key a ≤ key b) (insert_by (key_le key) x l).
Proof.
  induction 1 as [|y l Hl IH Hy]; simpl.
  - repeat constructor.
  - unfold key_le at 1. destruct (key x <=? key y)%nat eqn:E.
    + apply Nat.leb_le in E. constructor; [by constructor|].
      constructor; [done|]. eapply Forall_impl; [exact Hy|]. simpl. lia.
    + apply Nat.leb_gt in E. constructor; [done|].
      rewrite insert_by_perm. constructor; [lia | done].
Qed.

Lemma sort_by_sorted (l : list A) :
  StronglySorted (λ a b, key a ≤ key b) (sort_by (key_le key) l).
Proof.
  induction l as [|x l IH]; [constructor|].
  rewrite sort_by_cons. by apply insert_by_sorted.
Qed.

(** Inserting in front of a run of larger keys, and behind a run of
    strictly smaller ones. *)
Lemma insert_by_app_l (x : A) (l1 l2 : list A) :
  Forall (λ b, key x ≤ key b) l2 →
  insert_by (key_le key) x (l1 ++ l2) = insert_by (key_le key) x l1 ++ l2.
Proof.
  intros H2. induction l1 as [|a l1 IH]; simpl.
  - destruct H2 as [|b l2 Hb _]; [done|]. simpl. unfold key_le.
    by rewrite (proj2 (Nat.leb_le _ _) Hb).
  - destruct (key_le key x a); [done | by rewrite IH].
Qed.

Lemma insert_by_app_r (x : A) (l1 l2 : list A) :
  Forall (λ a, key a < key x) l1 →
  Forall (λ b, key x ≤ key b) l2 →
  insert_by (key_le key) x (l1 ++ l2) = l1 ++ x :: l2.
Proof.
  intros H1 H2. induction H1 as [|a l1 Ha _ IH]; simpl.
  - destruct H2 as [|b l2 Hb _]; [done|]. simpl. unfold key_le.
    by rewrite (proj2 (Nat.leb_le _ _) Hb).
  - unfold key_le at 1. rewrite (proj2 (Nat.leb_gt _ _) Ha). by rewrite IH.
Qed.

(** A stable sort keeps the elements of the largest key, when they all
    share it, behind the others and in their order. *)
Lemma sort_by_partition (P : A → Prop) `{∀ x, Decision (P x)} (K : nat) (l : list A) :
  (∀ x, P x → key x < K) →
  (∀ x, ¬ P x → key x = K) →
  sort_by (key_le key) l = sort_by (key_le key) (filter P l) ++ filter (λ x, ¬ P x) l.
Proof.
  intros HP HN. induction l as [|x l IH]; [done|].
  rewrite sort_by_cons, IH.
  assert (Forall (λ a, P a) (sort_by (key_le key) (filter P l))) as HA.
  { rewrite sort_by_perm. apply Forall_forall. intros a Ha.
    by apply list_elem_of_filter in Ha as [? _]. }
  assert (Forall (λ b, ¬ P b) (filter (λ x, ¬ P x) l)) as HB.
  { apply Forall_forall. intros b Hb. by apply list_elem_of_filter in Hb as [? _]. }
  destruct (decide (P x)) as [Hx|Hx].
  - rewrite (filter_cons_True P) by done.
    rewrite (filter_cons_False (λ x, ¬ P x)) by tauto.
    rewrite sort_by_cons. apply insert_by_app_l.
    eapply Forall_impl; [exact HB|]. intros b Hb. simpl.
    rewrite (HN b Hb). specialize (HP x Hx). lia.
  - rewrite (filter_cons_False P) by done.
    rewrite (filter_cons_True (λ x, ¬ P x)) by done.
    apply insert_by_app_r.
    + eapply Forall_impl; [exact HA|]. intros a Ha. simpl.
      rewrite (HN x Hx). by apply HP.
    + eapply Forall_impl; [exact HB|]. intros b Hb. simpl.
      rewrite (HN b Hb), (HN x Hx). lia.
Qed.

(** With keys that tell the elements apart, the sorted list is the only
    sorted arrangement. *)
Lemma sort_by_unique (l t : list A) :
  (∀ x y, x ∈ l → y ∈ l → key x = key y → x = y) →
  StronglySorted (λ a b, key a ≤ key b) t →
  l ≡ₚ t →
  sort_by (key_le key) l = t.
Proof.
  intros Hinj Ht Hp.
  apply (StronglySorted_unique_strong (λ a b, key a ≤ key b)).
  - intros x y Hx Hy H1 H2. apply Hinj; [by rewrite <- (sort_by_perm (key_le key) l)
      | by rewrite Hp | lia].
  - apply sort_by_sorted.
  - exact Ht.
  - by rewrite sort_by_perm.
Qed.

End Sort.

End SortFacts.

(** ** Completion of the selection with null models *)

Module AutoCompleteFacts.
Import Py Num Backend SortFacts.
Local Open Scope nat_scope.

Lemma mem_iff (x : string) (l : list string) : mem x l = true ↔ x ∈ l.
Proof.
  unfold mem. rewrite existsb_exists. split.
  - intros (y & Hy & E). apply String.eqb_eq in E as ->. by apply list_elem_of_In.
  - intros H. exists x. split; [by apply list_elem_of_In | apply String.eqb_refl].
Qed.

Lemma mem_false_iff (x : string) (l : list string) : mem x l = false ↔ x ∉ l.
Proof. rewrite <- mem_iff. by destruct (mem x l). Qed.

Lemma index_cons_ne (x y : string) (l : list string) :
  x ≠ y → index x (y :: l) = S (index x l).
Proof. intros H. simpl. by rewrite (proj2 (String.eqb_neq x y) H). Qed.

Lemma index_lookup (x : string) (l : list string) : x ∈ l → l !! index x l = Some x.
Proof.
  induction l as [|y l IH]; intros H; [by apply elem_of_nil in H|].
  simpl. destruct (String.eqb_spec x y) as [->|Hne]; [done|].
  simpl. apply IH. apply elem_of_cons in H as [?|?]; done.
Qed.

Lemma index_lt (x : string) (l : list string) : x ∈ l → index x l < length l.
Proof. intros H. eapply lookup_lt_Some, index_lookup, H. Qed.

Lemma index_inj (x y : string) (l : list string) :
  x ∈ l → y ∈ l → index x l = index y l → x = y.
Proof.
  intros Hx Hy E. apply index_lookup in Hx, Hy. rewrite E in Hx. congruence.
Qed.

Lemma order_key_in (S0 : list string) (x : string) :
  x ∈ S0 → order_key S0 x = index x S0.
Proof. intros H. unfold order_key. by rewrite (proj2 (mem_iff x S0) H). Qed.

Lemma order_key_out (S0 : list string) (x : string) : x ∉ S0 → order_key S0 x = 999.
Proof. intros H. unfold order_key. by rewrite (proj2 (mem_false_iff x S0) H). Qed.

Lemma elem_of_firsts (x : string) (l : list string) : x ∈ firsts l ↔ x ∈ l.
Proof.
  induction l as [|y l IH]; [done|]. simpl.
  rewrite !elem_of_cons, list_elem_of_filter, IH.
  destruct (decide (x = y)); tauto.
Qed.

Lemma NoDup_firsts (l : list string) : NoDup (firsts l).
Proof.
  induction l as [|y l IH]; simpl; [constructor|].
  constructor; [|by apply NoDup_filter].
  rewrite list_elem_of_filter. tauto.
Qed.

Lemma filter_Forall_id {A} (P : A → Prop) `{∀ x, Decision (P x)} (l : list A) :
  Forall P l → filter P l = l.
Proof.
  induction 1 as [|x l Hx _ IH]; [done|]. by rewrite filter_cons_True, IH.
Qed.

Lemma firsts_NoDup (l : list string) : NoDup l → firsts l = l.
Proof.
  induction 1 as [|y l Hy _ IH]; [done|]. simpl. rewrite IH. f_equal.
  apply filter_Forall_id, Forall_forall. intros x Hx ->. done.
Qed.

Lemma StronglySorted_filter_impl {A} (R R' : relation A) (P : A → Prop)
    `{∀ x, Decision (P x)} (l : list A) :
  (∀ a b, P a → P b → R a b → R' a b) →
  StronglySorted R l → StronglySorted R' (filter P l).
Proof.
  intros HR. induction 1 as [|x l _ IH Hx]; [constructor|].
  destruct (decide (P x)) as [Hp|Hp].
  - rewrite filter_cons_True by done. constructor; [done|].
    apply Forall_forall. intros b Hb. apply list_elem_of_filter in Hb as [Hpb Hb].
    rewrite Forall_forall in Hx. by apply HR, Hx.
  - by rewrite filter_cons_False.
Qed.

Lemma StronglySorted_elem_impl {A} (R R' : relation A) (l : list A) :
  (∀ a b, a ∈ l → b ∈ l → R a b → R' a b) →
  StronglySorted R l → StronglySorted R' l.
Proof.
  intros HR Hl. induction Hl as [|x l _ IH Hx]; [constructor|].
  constructor.
  - apply IH. intros a b Ha Hb. apply HR; by right.
  - apply Forall_forall. intros b Hb. rewrite Forall_forall in Hx.
    apply HR; [by left | by right | by apply Hx].
Qed.

(** The distinct names of a list stand in the order of their indices. *)
Lemma firsts_sorted (S0 : list string) :
  StronglySorted (λ a b, index a S0 <= index b S0) (firsts S0).
Proof.
  induction S0 as [|x S0 IH]; simpl; [constructor|].
  constructor.
  - eapply StronglySorted_filter_impl; [|exact IH].
    intros a b Ha Hb Hab. simpl in *.
    rewrite (proj2 (String.eqb_neq a x) Ha), (proj2 (String.eqb_neq b x) Hb). lia.
  - apply Forall_forall. intros b _. rewrite String.eqb_refl. lia.
Qed.

(** The catalog of pairs: four alternatives, none of them a null model. *)
Lemma null_pairs_inv (a n : string) :
  NULL_MODEL_PAIRS !! a = Some n →
  (a = "M2a" ∧ n = "M1a") ∨ (a = "M8" ∧ n = "M7") ∨ (a = "Branch" ∧ n = "M0")
  ∨ (a = "Branch-site" ∧ n = "Branch-site_null").
Proof.
  unfold NULL_MODEL_PAIRS. cbn [list_to_map foldr uncurry fst snd].
  rewrite !lookup_insert_Some, lookup_empty. intuition congruence.
Qed.

Lemma null_not_alternative (a n : string) :
  NULL_MODEL_PAIRS !! a = Some n → NULL_MODEL_PAIRS !! n = None.
Proof.
  intros H. apply null_pairs_inv in H as [[_ ->]|[[_ ->]|[[_ ->]|[_ ->]]]];
    vm_compute; reflexivity.
Qed.

Lemma add_nulls_eq (S0 : list string) :
  add_nulls S0 = S0 ++ omap (λ model, NULL_MODEL_PAIRS !! model) S0.
Proof.
  unfold add_nulls. generalize S0 at 1 3 as acc.
  induction S0 as [|m S0 IH]; intros acc; simpl.
  - by rewrite List.app_nil_r.
  - destruct (NULL_MODEL_PAIRS !! m) as [n|]; rewrite IH; [|done].
    by rewrite <- List.app_assoc.
Qed.

Lemma elem_of_add_nulls (S0 : list string) (x : string) :
  x ∈ add_nulls S0 ↔ x ∈ S0 ∨ ∃ a, a ∈ S0 ∧ NULL_MODEL_PAIRS !! a = Some x.
Proof. by rewrite add_nulls_eq, elem_of_app, list_elem_of_omap. Qed.

(** The second policy adds nothing the first has not added. *)
Lemma add_neutral_noop (S0 : list string) : add_neutral S0 (add_nulls S0) = add_nulls S0.
Proof.
  unfold add_neutral.
  assert (mem "M2a" S0 && negb (mem "M1a" (add_nulls S0)) = false) as ->.
  { destruct (mem "M2a" S0) eqn:E; [|done]. apply mem_iff in E.
    rewrite (proj2 (mem_iff "M1a" (add_nulls S0))); [done|].
    apply elem_of_add_nulls. right. by exists "M2a". }
  assert (mem "Branch-site" S0 && negb (mem "Branch-site_null" (add_nulls S0)) = false)
    as ->; [|done].
  destruct (mem "Branch-site" S0) eqn:E; [|done]. apply mem_iff in E.
  rewrite (proj2 (mem_iff "Branch-site_null" (add_nulls S0))); [done|].
  apply elem_of_add_nulls. right. by exists "Branch-site".
Qed.

Section WithOrder.

Variable set_iter : list string → list string.
Hypothesis set_iter_perm : ∀ l, set_iter l ≡ₚ remove_dups l.

Lemma expand_eq (S0 : list string) (b : bool) :
  auto_complete_null_models set_iter S0 b
  = sort_by (key_le (order_key S0)) (set_iter (add_nulls S0)).
Proof.
  unfold auto_complete_null_models. destruct b; [rewrite add_neutral_noop|]; reflexivity.
Qed.

Lemma elem_of_set_iter (l : list string) (x : string) : x ∈ set_iter l ↔ x ∈ l.
Proof. by rewrite set_iter_perm, elem_of_remove_dups. Qed.

Lemma NoDup_set_iter (l : list string) : NoDup (set_iter l).
Proof. rewrite set_iter_perm. apply NoDup_remove_dups. Qed.

Lemma elem_of_expand (S0 : list string) (b : bool) (x : string) :
  x ∈ auto_complete_null_models set_iter S0 b ↔ x ∈ S0 ∨ ∃ a, a ∈ S0 ∧ NULL_MODEL_PAIRS !! a = Some x.
Proof. by rewrite expand_eq, sort_by_perm, elem_of_set_iter, elem_of_add_nulls. Qed.

Lemma NoDup_expand (S0 : list string) (b : bool) :
  NoDup (auto_complete_null_models set_iter S0 b).
Proof. rewrite expand_eq, sort_by_perm. apply NoDup_set_iter. Qed.

(** A selection without repetition that holds the null model of each of
    its alternatives is left as it is. *)
Lemma expand_closed (T : list string) (b : bool) :
  NoDup T →
  (∀ a n, a ∈ T → NULL_MODEL_PAIRS !! a = Some n → n ∈ T) →
  auto_complete_null_models set_iter T b = T.
Proof.
  intros Hnd Hcl. rewrite expand_eq. apply sort_by_unique.
  - intros x y Hx Hy. apply elem_of_set_iter, elem_of_add_nulls in Hx, Hy.
    assert (x ∈ T) as Hx' by (destruct Hx as [?|(? & ? & ?)]; eauto).
    assert (y ∈ T) as Hy' by (destruct Hy as [?|(? & ? & ?)]; eauto).
    rewrite !order_key_in by done. by apply index_inj.
  - pose proof (firsts_sorted T) as Hs. rewrite (firsts_NoDup T Hnd) in Hs.
    apply (StronglySorted_elem_impl (λ a c, index a T <= index c T)); [|exact Hs].
    intros a c Ha Hc. by rewrite !order_key_in.
  - apply NoDup_Permutation; [apply NoDup_set_iter | done|].
    intros x. rewrite elem_of_set_iter, elem_of_add_nulls.
    split; [intros [?|(a & ? & ?)]; eauto | by left].
Qed.

(** C3, as the code has it.  For every selection, in whatever order a set
    yields its elements: completing twice is completing once; the result
    holds the null model of every alternative selected, for each pair of
    the catalog, which are four; and when the selection has at most 999
    names, the result is the distinct selected
    names in the order of their first occurrence, followed by the null
    models that were not selected, each once. *)
Theorem auto_complete_null_models_spec (S0 : list string) (b : bool) :
  (∀ b',
     auto_complete_null_models set_iter (auto_complete_null_models set_iter S0 b) b'
     = auto_complete_null_models set_iter S0 b)
  ∧ (∀ a n,
       a ∈ S0 → NULL_MODEL_PAIRS !! a = Some n →
       n ∈ auto_complete_null_models set_iter S0 b)
  ∧ (∀ a n,
       (a, n) ∈ [("M2a", "M1a"); ("M8", "M7"); ("Branch", "M0");
                 ("Branch-site", "Branch-site_null")] →
       a ∈ S0 → n ∈ auto_complete_null_models set_iter S0 b)
  ∧ (length S0 <= 999 →
     ∃ added,
       auto_complete_null_models set_iter S0 b = firsts S0 ++ added
       ∧ NoDup added
       ∧ ∀ x, x ∈ added ↔ ((x ∉ S0) ∧ ∃ a, a ∈ S0 ∧ NULL_MODEL_PAIRS !! a = Some x)).
Proof.
  split; [|split; [|split]].
  - intros b'. apply expand_closed; [apply NoDup_expand|].
    intros a n Ha Hn. apply elem_of_expand.
    apply elem_of_expand in Ha as [Ha|(a' & Ha' & E)].
    + right. by exists a.
    + apply null_not_alternative in E. congruence.
  - intros a n Ha Hn. apply elem_of_expand. right. by exists a.
  - intros a n Hp Ha. apply elem_of_expand. right. exists a. split; [done|].
    repeat (apply elem_of_cons in Hp as [[= -> ->]|Hp]; [vm_compute; reflexivity|]).
    by apply elem_of_nil in Hp.
  - intros Hlen. exists (filter (λ x, x ∉ S0) (set_iter (add_nulls S0))).
    split; [|split].
    + rewrite expand_eq.
      rewrite (sort_by_partition (order_key S0) (λ x, x ∈ S0) 999).
      * f_equal. apply sort_by_unique.
        -- intros x y Hx Hy. apply list_elem_of_filter in Hx as [Hx _], Hy as [Hy _].
           rewrite !order_key_in by done. by apply index_inj.
        -- apply (StronglySorted_elem_impl (λ a c, index a S0 <= index c S0));
             [|apply firsts_sorted].
           intros a c Ha Hc. rewrite elem_of_firsts in Ha, Hc.
           by rewrite !order_key_in.
        -- apply NoDup_Permutation;
             [apply NoDup_filter, NoDup_set_iter | apply NoDup_firsts|].
           intros x. rewrite list_elem_of_filter, elem_of_set_iter, elem_of_add_nulls,
             elem_of_firsts. tauto.
      * intros x Hx. rewrite order_key_in by done. pose proof (index_lt x S0 Hx). lia.
      * intros x Hx. by apply order_key_out.
    + apply NoDup_filter, NoDup_set_iter.
    + intros x. rewrite list_elem_of_filter, elem_of_set_iter, elem_of_add_nulls.
      tauto.
Qed.

End WithOrder.

Lemma remove_dups_order (l : list string) : remove_dups l ≡ₚ remove_dups l.
Proof. done. Qed.

(** The theorem at the selection M8, M2a, M0, Branch-site, M2a, the set
    yielding its elements in the order of [remove_dups]. *)
Lemma auto_complete_null_models_spec_witness :
  ∃ added,
    auto_complete_null_models remove_dups ["M8"; "M2a"; "M0"; "Branch-site"; "M2a"] true
      = ["M8"; "M2a"; "M0"; "Branch-site"] ++ added
    ∧ NoDup added.
Proof.
  destruct (auto_complete_null_models_spec remove_dups remove_dups_order
              ["M8"; "M2a"; "M0"; "Branch-site"; "M2a"] true) as (_ & _ & _ & H).
  destruct H as (added & E & Hnd & _); [simpl; lia|].
  exists added. split; [exact E | exact Hnd].
Defined.

Lemma long_selection_last : Samples.long_selection !! 1000 = Some "M2a".
Proof. vm_compute. reflexivity. Qed.

Lemma long_selection_completed_at_1000 :
  auto_complete_null_models remove_dups Samples.long_selection true !! 1000 = Some "M1a".
Proof. vm_compute. reflexivity. Qed.

(** C3 as stated fails on a long selection: with M2a selected at index
    1000, its null model M1a, of key 999, is put before it. *)
Lemma auto_complete_null_models_long_selection :
  length Samples.long_selection = 1001
  ∧ NoDup Samples.long_selection
  ∧ auto_complete_null_models remove_dups Samples.long_selection true !! 1000 = Some "M1a"
  ∧ ¬ ∃ added,
        auto_complete_null_models remove_dups Samples.long_selection true
          = Samples.long_selection ++ added.
Proof.
  split; [vm_compute; reflexivity|]. split; [|split].
  - apply (bool_decide_unpack (NoDup Samples.long_selection)). vm_compute. reflexivity.
  - exact long_selection_completed_at_1000.
  - intros [added E]. pose proof long_selection_completed_at_1000 as H.
    rewrite E in H.
    erewrite lookup_app_l_Some in H by exact long_selection_last.
    discriminate.
Qed.

End AutoCompleteFacts.

(** ** The likelihood-ratio tests *)

Module LrtFacts.
Import Py Num Backend.

(** In the analysis that follows the runs, a comparison with no degree of
    freedom or a negative statistic changes neither the counts nor the
    entries. *)
Lemma live_gene_excluded (chi2_cdf : Q → Z → Q) (null_model alt_model gene_name : string)
    (gr : gmap string run_result) (null_res alt_res : run_result)
    (lnL_null lnL_alt : Q) (np_null np_alt : Z) (c : lrt_counts) :
  gr !! null_model = Some null_res → gr !! alt_model = Some alt_res →
  lnL null_res = Some lnL_null → lnL alt_res = Some lnL_alt →
  np null_res = Some np_null → np alt_res = Some np_alt →
  Z.abs (np_alt - np_null) = 0%Z ∨ ((2 # 1) * (lnL_alt - lnL_null) < 0)%Q →
  live_gene chi2_cdf null_model alt_model gene_name gr c = Some c.
Proof.
  intros Hn Ha Hln Hla Hnn Hna Hex. unfold live_gene.
  rewrite Hn, Ha, Hln, Hla, Hnn, Hna.
  destruct Hex as [Hdf|Hneg].
  - by rewrite Hdf.
  - assert (Qltb (Qred ((2 # 1) * (lnL_alt - lnL_null))%Q) 0 = true) as ->;
      [|by rewrite orb_true_r].
    unfold Qltb. apply negb_true_iff. apply not_true_is_false. intros Hle.
    apply Qle_bool_iff in Hle. rewrite Qred_correct in Hle.
    apply (Qlt_not_le _ _ Hneg). exact Hle.
Qed.

(** C2 at the likelihoods -100.0 (null) and -105.0 (alternative), statistic
    -10.  The analysis that follows the runs excludes the gene; the report
    regenerated from disk counts it as valid and writes it, whatever the
    chi-square function answers.  The same happens with equal parameter
    counts, where the regenerated report does not look at them. *)
Theorem regenerated_lrt_counts_negative_statistic (chi2_cdf : Q → Z → Q) :
  live_gene chi2_cdf "M0" "M1a" "g1"
    (default ∅ (Samples.results_of (-100) 5 (-105) 6 !! "g1")) no_counts = Some no_counts
  ∧ map digest (regenerate_lrt_results chi2_cdf (Samples.folder_of "-100.0" "-105.0"))
    = [("M0", "M1a", 1%nat, ["g1"], [-10 # 1])]
  ∧ live_gene chi2_cdf "M0" "M1a" "g1"
      (default ∅ (Samples.results_of (-100) 5 (-98) 5 !! "g1")) no_counts = Some no_counts
  ∧ map digest
      (regenerate_lrt_results chi2_cdf (Samples.folder_with "-100.0" "5" "-98.0" "5"))
    = [("M0", "M1a", 1%nat, ["g1"], [4 # 1])].
Proof. repeat split; vm_compute; reflexivity. Qed.

(** With a chi-square function that gives no mass to negative values, the
    gene of the sample is written as "no significant difference". *)
Lemma regenerated_lrt_verdict (chi2_cdf : Q → Z → Q) :
  chi2_cdf (-10 # 1) 1%Z = 0%Q →
  map (λ r, map e_verdict (entries (snd r)))
      (regenerate_lrt_results chi2_cdf (Samples.folder_of "-100.0" "-105.0"))
  = [["[ERROR] No significant difference"]].
Proof.
  intros H.
  assert (map (λ r, map e_verdict (entries (snd r)))
            (regenerate_lrt_results chi2_cdf (Samples.folder_of "-100.0" "-105.0"))
          = [[verdict "M1a" (Qred (1 - chi2_cdf (-10 # 1) 1%Z)%Q)]]) as ->
    by (vm_compute; reflexivity).
  rewrite H. reflexivity.
Qed.

End LrtFacts.

(** ** Runs that exceed the timeout *)

Module BatchFacts.
Import Py Num Backend.

(** The status of a result is one of two. *)
Lemma status_values (cfg : config) (fas : fas_file) (model_name : string) (env : run_env)
    (r : run_result) :
  fst (run_single_analysis cfg fas model_name env) = Some r →
  status r = "success" ∨ status r = "partial".
Proof.
  unfold run_single_analysis. destruct (ctl_content cfg fas model_name); [|done].
  destruct (proc env) as [rc| |msg]; simpl; try done.
  intros [= <-]. simpl.
  destruct ((rc =? 0)%Z && bool_decide (is_Some (output_text env))); auto.
Qed.


Lemma run_model_eq (cfg : config) (env : string → string → run_env) (fas : fas_file)
    (m : gmap string run_result) (lg : list string) (a : string) :
  run_model cfg env fas (m, lg) a
  = (record cfg env fas m a,
     lg ++ snd (run_single_analysis cfg fas a (env (stem fas) a))).
Proof.
  unfold run_model, record, outcome.
  by destruct (run_single_analysis cfg fas a (env (stem fas) a)) as [[r|] lines].
Qed.

Lemma run_model_fst (cfg : config) (env : string → string → run_env) (fas : fas_file)
    (l : list string) (m : gmap string run_result) (lg : list string) :
  fst (foldl (run_model cfg env fas) (m, lg) l) = foldl (record cfg env fas) m l.
Proof.
  revert m lg. induction l as [|a l IH]; intros m lg; [done|].
  cbn [foldl]. rewrite run_model_eq. apply IH.
Qed.


(** After the models of a gene, each model holds what its own run
    returned. *)
Lemma record_lookup (cfg : config) (env : string → string → run_env) (fas : fas_file)
    (l : list string) (m : gmap string run_result) (model_name : string) :
  model_name ∈ l →
  foldl (record cfg env fas) m l !! model_name
  = match outcome cfg env fas model_name with
    | Some r => Some r
    | None => m !! model_name
    end.
Proof.
  assert (∀ l m, model_name ∉ l →
            foldl (record cfg env fas) m l !! model_name = m !! model_name) as Hout.
  { clear. intros l. induction l as [|a l IH]; intros m Hn; [done|].
    simpl. rewrite IH by (intros ?; apply Hn; by right).
    unfold record. destruct (outcome cfg env fas a); [|done].
    apply lookup_insert_ne. intros ->. apply Hn. by left. }
  revert m. induction l as [|a l IH]; intros m Hin; [by apply elem_of_nil in Hin|].
  simpl. destruct (decide (model_name ∈ l)) as [Hl|Hl].
  - rewrite IH by done. destruct (outcome cfg env fas model_name) eqn:E; [done|].
    unfold record. destruct (outcome cfg env fas a) eqn:Ea; [|done].
    apply lookup_insert_ne. intros ->. congruence.
  - rewrite Hout by done. apply elem_of_cons in Hin as [->|?]; [|done].
    unfold record. destruct (outcome cfg env fas a); [|done].
    apply lookup_insert_eq.
Qed.

Lemma run_gene_results (cfg : config) (env : string → string → run_env) (b : batch)
    (fas : fas_file) :
  results (run_gene cfg env b fas) = <[stem fas := gene_results_of cfg env fas]> (results b).
Proof.
  unfold run_gene, gene_results_of.
  rewrite <- (run_model_fst cfg env fas (models cfg) ∅ (log b)).
  by destruct (foldl (run_model cfg env fas) (∅, log b) (models cfg)).
Qed.


Lemma run_all_other (cfg : config) (env : string → string → run_env)
    (l : list fas_file) (b : batch) (s : string) :
  s ∉ map stem l →
  results (foldl (run_gene cfg env) b l) !! s = results b !! s.
Proof.
  revert b. induction l as [|a l IH]; intros b Hs; [done|].
  simpl. rewrite IH by (intros ?; apply Hs; by right).
  rewrite run_gene_results. apply lookup_insert_ne. intros E. apply Hs.
  rewrite <- E. by left.
Qed.

Lemma run_all_lookup (cfg : config) (env : string → string → run_env)
    (l : list fas_file) (b : batch) (fas : fas_file) :
  NoDup (map stem l) → fas ∈ l →
  results (foldl (run_gene cfg env) b l) !! stem fas = Some (gene_results_of cfg env fas).
Proof.
  revert b. induction l as [|a l IH]; intros b Hnd Hin; [by apply elem_of_nil in Hin|].
  simpl in Hnd. apply NoDup_cons in Hnd as [Ha Hnd].
  simpl. apply elem_of_cons in Hin as [->|Hin].
  - rewrite run_all_other by done. rewrite run_gene_results. apply lookup_insert_eq.
  - by apply IH.
Qed.





End BatchFacts.

(** ** The summary table *)

Module SummaryFacts.
Import Py Num PyFacts Backend SortFacts BatchFacts.
Local Open Scope nat_scope.

Lemma model_cells_length (files : gmap string string) (gr : gmap string run_result)
    (model : string) :
  length (model_cells files gr model) = 5.
Proof. unfold model_cells. by destruct (gr !! model). Qed.

(** In a concatenation of blocks of five, the block of the i-th element. *)
Lemma block_at {A B} (f : A → list B) (l : list A) (rest : list B) (i : nat) (x : A) :
  (∀ a, length (f a) = 5) →
  l !! i = Some x →
  take 5 (drop (5 * i) (flat_map f l ++ rest)) = f x.
Proof.
  intros Hlen. revert i. induction l as [|a l IH]; intros i Hi; [done|].
  change (flat_map f (a :: l)) with (f a ++ flat_map f l).
  rewrite <- List.app_assoc.
  destruct i as [|i]; simpl in Hi.
  - injection Hi as ->. rewrite Nat.mul_0_r, drop_0.
    rewrite take_app_length'; [done | by rewrite Hlen].
  - replace (5 * S i) with (length (f a) + 5 * i) by (rewrite Hlen; lia).
    rewrite drop_app_add. by apply IH.
Qed.

Lemma remove_char_idem (c : ascii) (u : string) :
  remove_char c (remove_char c u) = remove_char c u.
Proof.
  induction u as [|x u IH]; [done|]. simpl.
  destruct (Ascii.eqb x c) eqn:E; [done|]. simpl. by rewrite E, IH.
Qed.

Lemma remove_char_comm (c d : ascii) (u : string) :
  remove_char c (remove_char d u) = remove_char d (remove_char c u).
Proof.
  induction u as [|x u IH]; [done|]. simpl.
  destruct (Ascii.eqb x d) eqn:E1, (Ascii.eqb x c) eqn:E2; simpl;
    rewrite ?E1, ?E2, ?IH; done.
Qed.

Lemma clean_idem (u : string) : clean (clean u) = clean u.
Proof.
  unfold clean. rewrite (remove_char_comm LF CR). by rewrite !remove_char_idem.
Qed.

Lemma sorted_keys_elem {V} (d : gmap string V) (k : string) :
  is_Some (d !! k) → k ∈ sorted_keys d.
Proof.
  intros [v Hv]. unfold sorted_keys. rewrite sort_by_perm.
  apply list_elem_of_fmap. exists (k, v). split; [done|].
  by apply elem_of_map_to_list.
Qed.

(** The cells of a model in a row of the table. *)
Lemma summary_row_cells (files : gmap string string) (selected_models : list string)
    (gene_name : string) (gr : gmap string run_result) (i : nat) (model : string) :
  selected_models !! i = Some model →
  take 5 (drop (1 + 5 * i) (summary_row files selected_models gene_name gr))
  = map clean (model_cells files gr model).
Proof.
  intros Hi. unfold summary_row.
  change (1 + 5 * i) with (S (5 * i)).
  rewrite map_app. simpl. rewrite List.skipn_map, List.firstn_map. f_equal.
  apply block_at; [apply model_cells_length | done].
Qed.

Lemma summary_header_columns (selected_models : list string) (i : nat) (model : string) :
  selected_models !! i = Some model →
  take 5 (drop (1 + 5 * i) (summary_header selected_models)) = model_columns model.
Proof.
  intros Hi. unfold summary_header. change (1 + 5 * i) with (S (5 * i)). simpl.
  apply block_at; [done | done].
Qed.

(** The row of a gene and the cells of a model without result. *)
Lemma absent_cell_row (files : gmap string string)
    (selected_models : list string) (res : gmap string (gmap string run_result))
    (gene_name : string) (gr : gmap string run_result) (i : nat) (model : string) :
  res !! gene_name = Some gr →
  selected_models !! i = Some model →
  gr !! model = None →
  ∃ header row,
    save_summary files selected_models res !! 0 = Some header
    ∧ take 5 (drop (1 + 5 * i) header) = model_columns model
    ∧ row ∈ drop 1 (save_summary files selected_models res)
    ∧ row !! 0 = Some (clean gene_name)
    ∧ take 5 (drop (1 + 5 * i) row) = ["NA"; "NA"; "NA"; "NA"; "0"].
Proof.
  intros Hg Hi Hm.
  exists (summary_header selected_models),
         (summary_row files selected_models gene_name gr).
  split; [done|]. split; [by apply summary_header_columns|]. split; [|split].
  - unfold save_summary. simpl. rewrite drop_0. apply list_elem_of_fmap.
    exists gene_name. rewrite Hg. split; [done|]. by apply sorted_keys_elem.
  - unfold summary_row. simpl. by rewrite clean_idem.
  - rewrite (summary_row_cells _ _ _ _ _ model) by done.
    unfold model_cells. rewrite Hm. reflexivity.
Qed.

(** C7, as the code has it.  In the table written from any results, every
    gene of the results has its row and every selected model its five
    columns, and a model without result for the gene has the cells NA for
    the likelihood, the parameter count, the ratio and the time, and 0 for
    the number of stops.  So has, in the table written after a batch, every
    run that returned nothing. *)
Theorem save_summary_absent_cell :
  (∀ (files : gmap string string) (selected_models : list string)
     (res : gmap string (gmap string run_result)) (gene_name : string)
     (gr : gmap string run_result) (i : nat) (model : string),
     res !! gene_name = Some gr →
     selected_models !! i = Some model →
     gr !! model = None →
     ∃ header row,
       save_summary files selected_models res !! 0 = Some header
       ∧ take 5 (drop (1 + 5 * i) header) = model_columns model
       ∧ row ∈ drop 1 (save_summary files selected_models res)
       ∧ row !! 0 = Some (clean gene_name)
       ∧ take 5 (drop (1 + 5 * i) row) = ["NA"; "NA"; "NA"; "NA"; "0"])
  ∧ (∀ (files : gmap string string) (cfg : config) (env : string → string → run_env)
       (fas_files : list fas_file) (fas : fas_file) (i : nat) (model : string),
       NoDup (map stem fas_files) →
       fas ∈ fas_files →
       models cfg !! i = Some model →
       outcome cfg env fas model = None →
       ∃ header row,
         save_summary files (models cfg) (results (run_all cfg env fas_files)) !! 0
           = Some header
         ∧ take 5 (drop (1 + 5 * i) header) = model_columns model
         ∧ row ∈ drop 1 (save_summary files (models cfg)
                           (results (run_all cfg env fas_files)))
         ∧ row !! 0 = Some (clean (stem fas))
         ∧ take 5 (drop (1 + 5 * i) row) = ["NA"; "NA"; "NA"; "NA"; "0"]).
Proof.
  split; [apply absent_cell_row|].
  intros files cfg env fas_files fas i model Hnd Hfas Hi Hout.
  apply (absent_cell_row files (models cfg) _ (stem fas) (gene_results_of cfg env fas));
    [by apply run_all_lookup | done|].
  unfold gene_results_of. rewrite record_lookup, Hout; [done|].
  eapply list_elem_of_lookup_2, Hi.
Qed.

(** The theorem at a batch of one gene whose only run gave no result, and
    at the batch of the sample, whose first run exceeds the timeout. *)
Lemma save_summary_absent_cell_witness :
  (∃ header row,
     save_summary ∅ ["M0"] {[ "geneA" := ∅ ]} !! 0 = Some header
     ∧ take 5 (drop 1 header) = model_columns "M0"
     ∧ row ∈ drop 1 (save_summary ∅ ["M0"] {[ "geneA" := ∅ ]})
     ∧ row !! 0 = Some "geneA"
     ∧ take 5 (drop 1 row) = ["NA"; "NA"; "NA"; "NA"; "0"])
  ∧ (∃ header row,
       save_summary ∅ ["M0"; "M1a"]
         (results (run_all Samples.gui_config Samples.timeout_env [Samples.geneA])) !! 0
         = Some header
       ∧ take 5 (drop 1 header) = model_columns "M0"
       ∧ row ∈ drop 1 (save_summary ∅ ["M0"; "M1a"]
                         (results (run_all Samples.gui_config Samples.timeout_env
                                     [Samples.geneA])))
       ∧ row !! 0 = Some "geneA"
       ∧ take 5 (drop 1 row) = ["NA"; "NA"; "NA"; "NA"; "0"]).
Proof.
  split.
  - apply (proj1 save_summary_absent_cell ∅ ["M0"] {[ "geneA" := ∅ ]} "geneA" ∅ 0 "M0");
      reflexivity.
  - apply (proj2 save_summary_absent_cell ∅ Samples.gui_config Samples.timeout_env
             [Samples.geneA] Samples.geneA 0 "M0").
    + repeat constructor. apply not_elem_of_nil.
    + by left.
    + reflexivity.
    + vm_compute. reflexivity.
Defined.

(** C7 as stated fails on the last of the five cells: the number of stops
    of a run without result is written 0, not NA. *)
Lemma save_summary_absent_stops_zero :
  save_summary ∅ ["M0"] {[ "geneA" := ∅ ]}
  = [ ["Gene"; "M0_lnL"; "M0_np"; "M0_omega"; "M0_time"; "M0_stops"];
      ["geneA"; "NA"; "NA"; "NA"; "NA"; "0"] ]
  ∧ ¬ (∀ row, row ∈ drop 1 (save_summary ∅ ["M0"] {[ "geneA" := ∅ ]}) →
         take 5 (drop 1 row) = ["NA"; "NA"; "NA"; "NA"; "NA"]).
Proof.
  assert (save_summary ∅ ["M0"] {[ "geneA" := ∅ ]}
          = [ ["Gene"; "M0_lnL"; "M0_np"; "M0_omega"; "M0_time"; "M0_stops"];
              ["geneA"; "NA"; "NA"; "NA"; "NA"; "0"] ]) as E
    by (vm_compute; reflexivity).
  split; [exact E|]. rewrite E. intros H.
  specialize (H ["geneA"; "NA"; "NA"; "NA"; "NA"; "0"]).
  discriminate H. simpl. by left.
Qed.

Lemma truthy_zero (x : Q) : x == 0 → truthy (VFloat x) = false.
Proof.
  intros H. unfold truthy, Qeqb. by rewrite (proj2 (Qeq_bool_iff x 0) H).
Qed.

Lemma lrt_column_lookup (null_model alt_model : string) (row : gmap string pyval)
    (k : string) :
  k ≠ "lrt_" +:+ null_model +:+ "_vs_" +:+ alt_model →
  lrt_column null_model alt_model row !! k = row !! k.
Proof.
  intros Hk. unfold lrt_column.
  destruct (row !! (null_model +:+ "_lnL")) as [a|]; [|done].
  destruct (row !! (alt_model +:+ "_lnL")) as [c|]; [|done].
  destruct (truthy a && truthy c); [|done].
  destruct a; try done. destruct c; try done. by rewrite lookup_insert_ne.
Qed.

Lemma lrt_column_zero_null (null_model alt_model : string) (row : gmap string pyval)
    (x : Q) :
  row !! (null_model +:+ "_lnL") = Some (VFloat x) → x == 0 →
  lrt_column null_model alt_model row = row.
Proof.
  intros H Hx. unfold lrt_column. rewrite H.
  destruct (row !! (alt_model +:+ "_lnL")); [|done]. by rewrite (truthy_zero x Hx).
Qed.

Lemma lrt_column_zero_alt (null_model alt_model : string) (row : gmap string pyval)
    (x : Q) :
  row !! (alt_model +:+ "_lnL") = Some (VFloat x) → x == 0 →
  lrt_column null_model alt_model row = row.
Proof.
  intros H Hx. unfold lrt_column. rewrite H.
  destruct (row !! (null_model +:+ "_lnL")); [|done].
  by rewrite (truthy_zero x Hx), andb_false_r.
Qed.

(** One step of the proof below: what the blocks of the other comparisons
    leave alone, and the block that is skipped. *)
Ltac other_blocks := repeat (rewrite lrt_column_lookup by (vm_compute; discriminate)).

Ltac skipped_block H Hx :=
  first
    [ erewrite lrt_column_zero_null; [|other_blocks; exact H | exact Hx]
    | erewrite lrt_column_zero_alt; [|other_blocks; exact H | exact Hx] ].

(** In the regenerated summary, a likelihood equal to 0.0 leaves every
    comparison of its model without value. *)
Lemma lrt_columns_zero (row : gmap string pyval) (model null_model alt_model : string)
    (x : Q) :
  (null_model, alt_model) ∈ REGEN_PAIRS →
  model = null_model ∨ model = alt_model →
  row !! (model +:+ "_lnL") = Some (VFloat x) → x == 0 →
  lrt_columns row !! ("lrt_" +:+ null_model +:+ "_vs_" +:+ alt_model)
  = row !! ("lrt_" +:+ null_model +:+ "_vs_" +:+ alt_model).
Proof.
  intros Hp Hm H Hx. unfold REGEN_PAIRS in Hp.
  unfold lrt_columns, REGEN_PAIRS. cbn [foldl fst snd].
  repeat (apply elem_of_cons in Hp as [Hp|Hp];
          [injection Hp as -> ->; destruct Hm as [->| ->];
           other_blocks; skipped_block H Hx; other_blocks; reflexivity|]).
  by apply elem_of_nil in Hp.
Qed.

(** C10.  A likelihood that is present and equal to 0.0 is written NA in
    its cell of the summary table; and in the summary regenerated from
    disk, every comparison column of that model is left as it was for that
    gene: none is computed.  A results folder whose M0 report gives the
    likelihood 0.000000 yields a row with [M0_lnL] 0 and no value under
    [lrt_M0_vs_M1a]; the same folder with -100.5 yields the value 4.5. *)
Theorem zero_likelihood_is_absent :
  (∀ (files : gmap string string) (selected_models : list string)
     (gene_name : string) (gr : gmap string run_result) (i : nat) (model : string)
     (result : run_result) (x : Q),
     selected_models !! i = Some model →
     gr !! model = Some result →
     lnL result = Some x → x == 0 →
     summary_row files selected_models gene_name gr !! (1 + 5 * i) = Some "NA")
  ∧ (∀ (row : gmap string pyval) (model null_model alt_model : string) (x : Q),
       (null_model, alt_model) ∈ REGEN_PAIRS →
       model = null_model ∨ model = alt_model →
       row !! (model +:+ "_lnL") = Some (VFloat x) → x == 0 →
       lrt_columns row !! ("lrt_" +:+ null_model +:+ "_vs_" +:+ alt_model)
       = row !! ("lrt_" +:+ null_model +:+ "_vs_" +:+ alt_model))
  ∧ regenerated_cell (Samples.folder_of "0.000000" "-98.25") "g1" "M0_lnL"
      = Some (VFloat 0)
  ∧ regenerated_cell (Samples.folder_of "0.000000" "-98.25") "g1" "M1a_lnL"
      = Some (VFloat (-393 # 4))
  ∧ regenerated_cell (Samples.folder_of "0.000000" "-98.25") "g1" "lrt_M0_vs_M1a" = None
  ∧ regenerated_cell (Samples.folder_of "-100.5" "-98.25") "g1" "lrt_M0_vs_M1a"
      = Some (VFloat (9 # 2)).
Proof.
  split; [|split; [|repeat split; vm_compute; reflexivity]].
  - intros files selected_models gene_name gr i model result x Hi Hr Hl Hx.
    pose proof (summary_row_cells files selected_models gene_name gr i model Hi) as H.
    apply (f_equal (λ l, l !! 0)) in H.
    rewrite lookup_take_lt, lookup_drop, Nat.add_0_r in H by lia.
    rewrite H. unfold model_cells. rewrite Hr, Hl, (truthy_zero x Hx). reflexivity.
  - apply lrt_columns_zero.
Qed.

(** The theorem at a result whose likelihood is 0.0, and at a row whose
    [M0_lnL] is 0.0. *)
Lemma zero_likelihood_is_absent_witness :
  summary_row ∅ ["M0"] "g1" {[ "M0" := Samples.result_of (Some 0%Q) (Some 5%Z) ]} !! 1
    = Some "NA"
  ∧ lrt_columns {[ "M0_lnL" := VFloat 0; "M1a_lnL" := VFloat (-393 # 4) ]}
      !! "lrt_M0_vs_M1a" = None.
Proof.
  split.
  - apply (proj1 zero_likelihood_is_absent ∅ ["M0"] "g1"
             {[ "M0" := Samples.result_of (Some 0%Q) (Some 5%Z) ]} 0 "M0"
             (Samples.result_of (Some 0%Q) (Some 5%Z)) 0%Q); reflexivity.
  - rewrite (proj1 (proj2 zero_likelihood_is_absent)
               {[ "M0_lnL" := VFloat 0; "M1a_lnL" := VFloat (-393 # 4) ]}
               "M0" "M0" "M1a" 0%Q); [reflexivity | | by left | reflexivity | reflexivity].
    unfold REGEN_PAIRS. by left.
Defined.

End SummaryFacts.

Module LrtMoreFacts.
Import Py Num Backend AutoCompleteFacts.
Local Open Scope nat_scope.

Section Counts.
Variable chi2_cdf : Q → Z → Q.

Lemma Qltb_weaken (p a b : Q) : (a <= b)%Q → Qltb p a = true → Qltb p b = true.
Proof.
  unfold Qltb. rewrite !negb_true_iff. intros Hab Hp.
  apply not_true_is_false. intros Hle. apply Qle_bool_iff in Hle.
  apply not_true_iff_false in Hp. apply Hp. apply Qle_bool_iff.
  by eapply Qle_trans.
Qed.

Lemma count_gene_counts (alt_model gene_name : string) (lnL_null lnL_alt lrt_stat : Q)
    (df : Z) (c : lrt_counts) :
  sig_count_01 c ≤ sig_count_05 c ≤ total_valid c →
  total_valid c = length (entries c) →
  let c' := count_gene chi2_cdf alt_model gene_name lnL_null lnL_alt lrt_stat df c in
  sig_count_01 c' ≤ sig_count_05 c' ≤ total_valid c'
  ∧ total_valid c' = length (entries c').
Proof.
  intros [H1 H2] H3. simpl. rewrite length_app. simpl.
  destruct (Qltb (p_value_of chi2_cdf lrt_stat df) (1 # 100)) eqn:E1.
  - rewrite (Qltb_weaken _ (1 # 100) (5 # 100)) by done. lia.
  - destruct (Qltb (p_value_of chi2_cdf lrt_stat df) (5 # 100)); lia.
Qed.

Lemma live_genes_ind (P : lrt_counts → Prop) (null_model alt_model : string)
    (res : gmap string (gmap string run_result)) (genes : list string) (c c' : lrt_counts) :
  P c →
  (∀ gene_name c0 c1, gene_name ∈ genes → P c0 →
     live_gene chi2_cdf null_model alt_model gene_name (default ∅ (res !! gene_name)) c0
       = Some c1 → P c1) →
  live_genes chi2_cdf null_model alt_model genes res c = Some c' → P c'.
Proof.
  revert c. induction genes as [|g genes IH]; intros c Hc Hstep; simpl.
  - by intros [= <-].
  - destruct (live_gene _ _ _ g _ c) as [c1|] eqn:E; [|done].
    apply IH.
    + eapply Hstep; [by left | exact Hc | exact E].
    + intros g' c0 c2 Hg'. apply Hstep. by right.
Qed.

Lemma live_gene_cases (null_model alt_model gene_name : string)
    (gr : gmap string run_result) (c c' : lrt_counts) :
  live_gene chi2_cdf null_model alt_model gene_name gr c = Some c' →
  c' = c
  ∨ ∃ null_res alt_res lnL_null lnL_alt np_null np_alt,
      gr !! null_model = Some null_res ∧ gr !! alt_model = Some alt_res
      ∧ lnL null_res = Some lnL_null ∧ lnL alt_res = Some lnL_alt
      ∧ np null_res = Some np_null ∧ np alt_res = Some np_alt
      ∧ (1 ≤ Z.abs (np_alt - np_null))%Z
      ∧ (0 <= (2 # 1) * (lnL_alt - lnL_null))%Q
      ∧ c' = count_gene chi2_cdf alt_model gene_name lnL_null lnL_alt
               (Qred ((2 # 1) * (lnL_alt - lnL_null))) (Z.abs (np_alt - np_null)) c.
Proof.
  unfold live_gene.
  destruct (gr !! null_model) as [null_res|] eqn:Hn; [|intros [= <-]; by left].
  destruct (gr !! alt_model) as [alt_res|] eqn:Ha; [|intros [= <-]; by left].
  destruct (lnL null_res) as [lnL_null|] eqn:Hln; [|intros [= <-]; by left].
  destruct (lnL alt_res) as [lnL_alt|] eqn:Hla; [|intros [= <-]; by left].
  destruct (np null_res) as [np_null|] eqn:Hnn; [|done].
  destruct (np alt_res) as [np_alt|] eqn:Hna; [|done].
  destruct (Z.abs (np_alt - np_null) =? 0)%Z eqn:Hdf; [intros [= <-]; by left|].
  destruct (Qltb (Qred ((2 # 1) * (lnL_alt - lnL_null))) 0) eqn:Hst;
    simpl; [intros [= <-]; by left|].
  intros [= <-]. right. exists null_res, alt_res, lnL_null, lnL_alt, np_null, np_alt.
  repeat split; try done.
  - apply Z.eqb_neq in Hdf. pose proof (Z.abs_nonneg (np_alt - np_null)). lia.
  - unfold Qltb in Hst. apply negb_false_iff, Qle_bool_iff in Hst.
    by rewrite Qred_correct in Hst.
Qed.

Lemma live_run_elem (res : gmap string (gmap string run_result))
    (cmps : list (string * string)) (r : string * string * lrt_counts) :
  r ∈ fst (live_run chi2_cdf res cmps) →
  fst r ∈ cmps ∧ live_comparison chi2_cdf res (fst r) = Some (snd r).
Proof.
  induction cmps as [|cmp cmps IH]; simpl; [by intros ?%elem_of_nil|].
  destruct (live_comparison chi2_cdf res cmp) as [c|] eqn:E;
    [|by intros ?%elem_of_nil].
  destruct (live_run chi2_cdf res cmps) as [done raised]. simpl in *.
  intros [->|Hr]%elem_of_cons.
  - simpl. destruct cmp. split; [by left | done].
  - destruct (IH Hr). split; [by right | done].
Qed.

Lemma regen_fold_ind (P : lrt_counts → Prop) (folder : list entry)
    (null_model alt_model : string) (df : Z) (genes : list string) (c : lrt_counts) :
  P c →
  (∀ gene c0, P c0 → P (regen_gene chi2_cdf folder null_model alt_model df gene c0)) →
  P (foldl (λ c gene, regen_gene chi2_cdf folder null_model alt_model df gene c) c genes).
Proof.
  revert c. induction genes as [|g genes IH]; intros c Hc Hstep; simpl; [done|].
  apply IH; [by apply Hstep | done].
Qed.

Lemma regen_gene_cases (folder : list entry) (null_model alt_model : string) (df : Z)
    (gene : string) (c : lrt_counts) :
  regen_gene chi2_cdf folder null_model alt_model df gene c = c
  ∨ ∃ lnL_null lnL_alt,
      regen_gene chi2_cdf folder null_model alt_model df gene c
      = count_gene chi2_cdf alt_model gene lnL_null lnL_alt
          (Qred ((2 # 1) * (lnL_alt - lnL_null))) df c.
Proof.
  unfold regen_gene.
  destruct (read_file folder _ _) as [null_content|]; [|by left].
  destruct (read_file folder _ _) as [alt_content|]; [|by left].
  destruct (Re.group1 (Re.search false regen_lnL_pattern null_content)) as [g0|]; [|by left].
  destruct (Re.group1 (Re.search false regen_lnL_pattern alt_content)) as [g1|]; [|by left].
  destruct (float_of_string g0) as [x0|]; [|by left].
  destruct (float_of_string g1) as [x1|]; [|by left].
  right. by exists x0, x1.
Qed.

(** X1.  In every comparison that the analysis after the runs completes,
    and in every comparison of the report regenerated from disk, the genes
    significant at 0.01 are at most those significant at 0.05, these are at
    most the genes counted as valid, and the genes counted are the entries
    written; a comparison completed by the analysis after the runs has one
    valid gene at least. *)
Theorem lrt_counts_consistent (selected_models : list string)
    (res : gmap string (gmap string run_result)) (folder : list entry) :
  Forall (λ r, 0 < total_valid (snd r)
               ∧ sig_count_01 (snd r) ≤ sig_count_05 (snd r) ≤ total_valid (snd r)
               ∧ total_valid (snd r) = length (entries (snd r)))
         (fst (run_lrt_analysis chi2_cdf selected_models res))
  ∧ Forall (λ r, sig_count_01 (snd r) ≤ sig_count_05 (snd r) ≤ total_valid (snd r)
                 ∧ total_valid (snd r) = length (entries (snd r)))
           (regenerate_lrt_results chi2_cdf folder).
Proof.
  split.
  - apply Forall_forall. intros r [_ Hr]%live_run_elem.
    unfold live_comparison in Hr.
    destruct (live_genes _ _ _ _ _ _) as [c|] eqn:E; [|done].
    destruct (total_valid c =? 0) eqn:Ez; [done|]. injection Hr as <-.
    apply Nat.eqb_neq in Ez. split; [lia|].
    revert E.
    apply (live_genes_ind (λ c, sig_count_01 c ≤ sig_count_05 c ≤ total_valid c
                                ∧ total_valid c = length (entries c))); [simpl; lia|].
    intros g c0 c1 _ Hc0 [->|(? & ? & ? & ? & ? & ? & _ & _ & _ & _ & _ & _ & _ & _ & ->)]%live_gene_cases;
      [done|].
    destruct Hc0 as [H1 H2]. by apply count_gene_counts.
  - apply Forall_forall. intros r Hr. unfold regenerate_lrt_results in Hr.
    apply list_elem_of_fmap in Hr as ([[null_model alt_model] df] & -> & _). simpl.
    apply (regen_fold_ind (λ c, sig_count_01 c ≤ sig_count_05 c ≤ total_valid c
                                ∧ total_valid c = length (entries c))); [simpl; lia|].
    intros g c0 Hc0.
    destruct (regen_gene_cases folder null_model alt_model df g c0) as [->|(x0 & x1 & ->)];
      [done|].
    destruct Hc0 as [H1 H2]. by apply count_gene_counts.
Qed.

(** X2.  Every entry that the analysis after the runs writes is a test
    that passed the guard: its gene has a result with a likelihood and a
    parameter count for both models, its degrees of freedom are the
    absolute difference of the parameter counts and are not zero, its
    statistic is twice the difference of the likelihoods and is not
    negative, and its p-value and verdict are those of this statistic. *)
Theorem live_lrt_entries_valid (selected_models : list string)
    (res : gmap string (gmap string run_result)) :
  Forall (λ r,
    fst r ∈ live_comparisons selected_models
    ∧ Forall (λ e,
        ∃ gr null_res alt_res np_null np_alt,
          res !! e_gene e = Some gr
          ∧ gr !! fst (fst r) = Some null_res ∧ gr !! snd (fst r) = Some alt_res
          ∧ lnL null_res = Some (e_lnL_null e) ∧ lnL alt_res = Some (e_lnL_alt e)
          ∧ np null_res = Some np_null ∧ np alt_res = Some np_alt
          ∧ e_df e = Z.abs (np_alt - np_null) ∧ (1 ≤ e_df e)%Z
          ∧ (e_stat e == (2 # 1) * (e_lnL_alt e - e_lnL_null e))%Q ∧ (0 <= e_stat e)%Q
          ∧ e_p_value e = p_value_of chi2_cdf (e_stat e) (e_df e)
          ∧ e_verdict e = verdict (snd (fst r)) (e_p_value e))
        (entries (snd r)))
    (fst (run_lrt_analysis chi2_cdf selected_models res)).
Proof.
  apply Forall_forall. intros [[null_model alt_model] c] [Hin Hr]%live_run_elem.
  split; [exact Hin|]. simpl in *. unfold live_comparison in Hr. simpl in Hr.
  destruct (live_genes _ _ _ _ _ _) as [c'|] eqn:E; [|done].
  destruct (total_valid c' =? 0)%nat; [done|]. injection Hr as ->.
  revert E. apply (live_genes_ind (λ c, Forall _ (entries c))); [by constructor|].
  intros g c0 c1 _ Hc0 [->|(null_res & alt_res & x0 & x1 & n0 & n1 & Hn & Ha & Hx0 & Hx1
                             & Hn0 & Hn1 & Hdf & Hst & ->)]%live_gene_cases; [done|].
  simpl. apply Forall_app. split; [done|]. constructor; [|constructor]. simpl.
  destruct (res !! g) as [gr|] eqn:Hg; simpl in Hn, Ha; [|done]. exists gr, null_res, alt_res, n0, n1.
  repeat split; try done.
  - apply Qred_correct.
  - by rewrite Qred_correct.
Qed.

(** X3.  In the report regenerated from disk the degrees of freedom of a
    test do not come from the parameter counts of the reports: they are 2
    for the comparison of the branch-site models and 1 for every other
    comparison; the statistic is twice the difference of the likelihoods
    read from the two reports. *)
Theorem regenerated_lrt_degrees_of_freedom (folder : list entry) :
  Forall (λ r,
    Forall (λ e,
        e_df e = (if String.eqb (snd (fst r)) "Branch-site" then 2 else 1)%Z
        ∧ (e_stat e == (2 # 1) * (e_lnL_alt e - e_lnL_null e))%Q
        ∧ e_p_value e = p_value_of chi2_cdf (e_stat e) (e_df e))
      (entries (snd r)))
    (regenerate_lrt_results chi2_cdf folder).
Proof.
  apply Forall_forall. intros r Hr. unfold regenerate_lrt_results in Hr.
  apply list_elem_of_fmap in Hr as ([[null_model alt_model] df] & -> & Hcmp). simpl.
  assert (df = (if String.eqb alt_model "Branch-site" then 2 else 1)%Z) as Hdf.
  { unfold regen_comparisons in Hcmp.
    repeat (apply elem_of_app in Hcmp as [Hcmp|Hcmp]);
      match type of Hcmp with
      | _ ∈ (if ?b then _ else _) => destruct b
      end;
      try (by apply elem_of_nil in Hcmp);
      apply list_elem_of_singleton in Hcmp; by injection Hcmp as -> -> ->. }
  apply (regen_fold_ind (λ c, Forall _ (entries c))); [by constructor|].
  intros g c0 Hc0.
  destruct (regen_gene_cases folder null_model alt_model df g c0) as [->|(x0 & x1 & ->)];
    [done|].
  simpl. apply Forall_app. split; [done|]. constructor; [|constructor]. simpl.
  split; [exact Hdf|]. split; [apply Qred_correct | done].
Qed.

Lemma live_run_raises (res : gmap string (gmap string run_result))
    (cmps : list (string * string)) (cmp : string * string) :
  cmp ∈ cmps → live_comparison chi2_cdf res cmp = None →
  snd (live_run chi2_cdf res cmps) = true
  ∧ cmp ∉ map fst (fst (live_run chi2_cdf res cmps)).
Proof.
  intros Hin Hnone. split.
  - induction cmps as [|a cmps IH]; [by apply elem_of_nil in Hin|]. simpl.
    destruct (live_comparison chi2_cdf res a) as [c|] eqn:E; [|done].
    apply elem_of_cons in Hin as [->|Hin]; [congruence|].
    specialize (IH Hin). by destruct (live_run chi2_cdf res cmps).
  - intros (r & -> & Hr)%list_elem_of_fmap. apply live_run_elem in Hr as [_ Hr]. congruence.
Qed.

(** X4.  When no gene of the results has a likelihood for both models of a
    comparison that the selection calls for, the analysis after the runs
    does not complete: the percentages of the summary divide by the number
    of valid genes, which is zero, and the exception ends the function
    before that comparison is completed. *)
Theorem live_lrt_raises_without_valid_gene (selected_models : list string)
    (res : gmap string (gmap string run_result)) (null_model alt_model : string) :
  (null_model, alt_model) ∈ live_comparisons selected_models →
  (∀ gene_name gr null_res alt_res,
     res !! gene_name = Some gr →
     gr !! null_model = Some null_res → gr !! alt_model = Some alt_res →
     lnL null_res = None ∨ lnL alt_res = None) →
  snd (run_lrt_analysis chi2_cdf selected_models res) = true
  ∧ (null_model, alt_model)
      ∉ map fst (fst (run_lrt_analysis chi2_cdf selected_models res)).
Proof.
  intros Hin Hno. apply live_run_raises; [exact Hin|].
  unfold live_comparison. simpl.
  assert (∀ genes, live_genes chi2_cdf null_model alt_model genes res no_counts
                   = Some no_counts) as ->; [|done].
  intros genes. induction genes as [|g genes IH]; [done|]. simpl.
  assert (live_gene chi2_cdf null_model alt_model g (default ∅ (res !! g)) no_counts
          = Some no_counts) as ->; [|exact IH].
  unfold live_gene.
  destruct (res !! g) as [gr|] eqn:Hg; simpl; [|by rewrite lookup_empty].
  destruct (gr !! null_model) as [null_res|] eqn:Hn; [|done].
  destruct (gr !! alt_model) as [alt_res|] eqn:Ha; [|done].
  destruct (Hno g gr null_res alt_res Hg Hn Ha) as [->| ->]; [done|].
  by destruct (lnL null_res).
Qed.

End Counts.

(** The theorem at a batch of one gene whose runs of M0 and M1a both
    returned nothing. *)
Lemma live_lrt_raises_without_valid_gene_witness :
  snd (run_lrt_analysis (λ _ _, 0%Q) ["M0"; "M1a"] {[ "geneA" := ∅ ]}) = true
  ∧ ("M0", "M1a")
      ∉ map fst (fst (run_lrt_analysis (λ _ _, 0%Q) ["M0"; "M1a"] {[ "geneA" := ∅ ]})).
Proof.
  apply (live_lrt_raises_without_valid_gene (λ _ _, 0%Q) ["M0"; "M1a"]
           {[ "geneA" := ∅ ]} "M0" "M1a").
  - by left.
  - intros g gr r0 r1 [<- <-]%lookup_singleton_Some. by rewrite lookup_empty.
Defined.

(** X5.  The analysis after the runs never tests the pair of branch-site
    models under the names the catalog gives them, although the summary
    table has a column for that test as soon as both are selected, as they
    are after completion whenever the branch-site model is selected. *)
Theorem live_lrt_skips_branch_site :
  (∀ selected_models cmp,
     cmp ∈ live_comparisons selected_models →
     fst cmp ≠ "Branch-site_null" ∧ snd cmp ≠ "Branch-site")
  ∧ (∀ selected_models,
       "Branch-site_null" ∈ selected_models → "Branch-site" ∈ selected_models →
       "lrt_Branch-site_null_vs_Branch-site" ∈ summary_header selected_models)
  ∧ (∀ (set_iter : list string → list string) selected_models include_neutral,
       (∀ l, set_iter l ≡ₚ remove_dups l) →
       "Branch-site" ∈ selected_models →
       "lrt_Branch-site_null_vs_Branch-site"
         ∈ summary_header (auto_complete_null_models set_iter selected_models include_neutral)).
Proof.
  assert (∀ selected_models,
            "Branch-site_null" ∈ selected_models → "Branch-site" ∈ selected_models →
            "lrt_Branch-site_null_vs_Branch-site" ∈ summary_header selected_models) as Hcol.
  { intros sel Hn Ha. unfold summary_header.
    apply elem_of_app. right. apply elem_of_app. right.
    apply list_elem_of_fmap.
    exists ("Branch-site_null", "Branch-site", "lrt_Branch-site_null_vs_Branch-site").
    split; [done|]. unfold summary_comparisons.
    apply mem_iff in Hn, Ha. rewrite Hn, Ha, orb_true_r. simpl.
    rewrite !elem_of_app. right. right. right. right. by left. }
  split; [|split; [exact Hcol|]].
  - intros sel cmp Hcmp. unfold live_comparisons in Hcmp.
    repeat (apply elem_of_app in Hcmp as [Hcmp|Hcmp]);
      match type of Hcmp with
      | _ ∈ (if ?b then _ else _) => destruct b
      end;
      try (by apply elem_of_nil in Hcmp);
      apply list_elem_of_singleton in Hcmp; subst cmp; done.
  - intros set_iter sel b Hperm Hin. apply Hcol.
    + apply (elem_of_expand set_iter Hperm). right. by exists "Branch-site".
    + apply (elem_of_expand set_iter Hperm). by left.
Qed.

(** The theorem at the selection of the branch-site model alone, completed
    by a set that yields its elements in the order they were added. *)
Lemma live_lrt_skips_branch_site_witness :
  live_comparisons ["Branch-site"; "Branch-site_null"] = []
  ∧ "lrt_Branch-site_null_vs_Branch-site"
      ∈ summary_header (auto_complete_null_models remove_dups ["Branch-site"] true).
Proof.
  split; [reflexivity|].
  apply (proj2 (proj2 live_lrt_skips_branch_site) remove_dups ["Branch-site"] true).
  - done.
  - by left.
Defined.

End LrtMoreFacts.

(** ** Dictionaries in insertion order, and texts *)

Module DictFacts.
Import Py PyFacts.

Lemma dict_get_set {V} (k k' : string) (v : V) (d : dict V) :
  dict_get k (dict_set k' v d) = if String.eqb k k' then Some v else dict_get k d.
Proof.
  induction d as [|[k0 v0] d IH]; simpl.
  - done.
  - destruct (String.eqb k' k0) eqn:E0; simpl.
    + apply String.eqb_eq in E0 as ->. by destruct (String.eqb k k0).
    + destruct (String.eqb k k0) eqn:E1.
      * apply String.eqb_eq in E1 as ->. by rewrite String.eqb_sym, E0.
      * exact IH.
Qed.

Lemma dict_set_keys {V} (k : string) (v : V) (d : dict V) :
  map fst (dict_set k v d) = if bool_decide (k ∈ map fst d) then map fst d else map fst d ++ [k].
Proof.
  induction d as [|[k0 v0] d IH]; simpl; [done|].
  destruct (String.eqb k k0) eqn:E0; simpl.
  - apply String.eqb_eq in E0 as ->. rewrite bool_decide_eq_true_2; [done | by left].
  - rewrite IH. apply String.eqb_neq in E0.
    destruct (decide (k ∈ map fst d)) as [Hin|Hin].
    + rewrite !bool_decide_eq_true_2; [done | by right | done].
    + rewrite !bool_decide_eq_false_2; [done | | done].
      intros [?|?]%elem_of_cons; done.
Qed.

Lemma dict_set_NoDup {V} (k : string) (v : V) (d : dict V) :
  NoDup (map fst d) → NoDup (map fst (dict_set k v d)).
Proof.
  intros Hnd. rewrite dict_set_keys. case_bool_decide as Hin; [done|].
  apply NoDup_app. split; [done|]. split; [|apply NoDup_singleton].
  intros x Hx ->%list_elem_of_singleton. done.
Qed.

Lemma dict_get_Some {V} (k : string) (v : V) (d : dict V) :
  dict_get k d = Some v → (k, v) ∈ d.
Proof.
  induction d as [|[k0 v0] d IH]; simpl; [done|].
  destruct (String.eqb k k0) eqn:E.
  - apply String.eqb_eq in E as ->. intros [= ->]. by left.
  - intros H. right. by apply IH.
Qed.

Lemma dict_get_elem {V} (k : string) (v : V) (d : dict V) :
  NoDup (map fst d) → (k, v) ∈ d → dict_get k d = Some v.
Proof.
  induction d as [|[k0 v0] d IH]; simpl; [by intros _ ?%elem_of_nil|].
  intros [Hk0 Hnd]%NoDup_cons [[= -> ->]|Hin]%elem_of_cons.
  - by rewrite String.eqb_refl.
  - destruct (String.eqb k k0) eqn:E; [|by apply IH].
    apply String.eqb_eq in E as ->. exfalso. apply Hk0.
    apply list_elem_of_fmap. by exists (k0, v).
Qed.

Lemma length_append (a b : string) :
  String.length (a +:+ b) = String.length a + String.length b.
Proof. induction a as [|c a IH]; [done|]. rewrite app_cons. simpl. by rewrite IH. Qed.

Lemma substring_all (s : string) : String.substring 0 (String.length s) s = s.
Proof. induction s as [|c s IH]; [done|]. simpl. by rewrite IH. Qed.

Lemma substring_append (a s : string) :
  String.substring (String.length a) (String.length s) (a +:+ s) = s.
Proof.
  induction a as [|c a IH]; [apply substring_all|]. rewrite app_cons. exact IH.
Qed.

Lemma endswith_app (a s : string) : endswith s (a +:+ s) = true.
Proof.
  unfold endswith. rewrite length_append.
  replace (String.length a + String.length s - String.length s) with (String.length a) by lia.
  rewrite substring_append, String.eqb_refl.
  apply andb_true_iff. split; [apply Nat.leb_le; lia | done].
Qed.

Lemma append_inj_l (a b s : string) : a +:+ s = b +:+ s → a = b.
Proof.
  revert b. induction a as [|c a IH]; intros [|d b]; rewrite ?app_cons, ?app_nil_l.
  - done.
  - intros H. apply (f_equal String.length) in H. simpl in H.
    rewrite length_append in H. lia.
  - intros H. apply (f_equal String.length) in H. simpl in H.
    rewrite length_append in H. lia.
  - intros [= -> H]. f_equal. by apply IH.
Qed.

End DictFacts.

(** ** Regeneration and the names of the model folders *)

Module RegenFacts.
Import Py Num PyFacts Backend DictFacts LrtMoreFacts AutoCompleteFacts SummaryFacts.

Lemma read_file_absent (folder : list entry) (dir file : string) :
  (∀ item, item ∈ folder → name item ≠ dir) → read_file folder dir file = None.
Proof.
  intros Hno. unfold read_file.
  destruct (List.find _ folder) as [item|] eqn:E; [|done].
  apply List.find_some in E as [Hin Heq]. apply String.eqb_eq in Heq.
  exfalso. apply (Hno item); [by apply list_elem_of_In | done].
Qed.

Lemma regen_comparisons_branch_site (found : list string) (null_model alt_model : string)
    (df : Z) :
  (null_model, alt_model, df) ∈ regen_comparisons found →
  alt_model = "Branch-site" → null_model = "Branch-site_null".
Proof.
  intros Hcmp. unfold regen_comparisons in Hcmp.
  repeat (apply elem_of_app in Hcmp as [Hcmp|Hcmp]);
    match type of Hcmp with
    | _ ∈ (if ?b then _ else _) => destruct b
    end;
    try (by apply elem_of_nil in Hcmp);
    apply list_elem_of_singleton in Hcmp; injection Hcmp as -> -> ->; done.
Qed.

(** X6.  The report of the tests regenerated from disk looks for the
    reports of the branch-site models in the folders BranchSite_A_null and
    BranchSite_A only.  In a results folder where one of the two is
    missing, as after a batch, which names its folders Branch-site_null
    and Branch-site, the comparison of the branch-site models counts no
    gene and writes no entry, whatever the reports hold. *)
Theorem regenerated_lrt_needs_legacy_folders (chi2_cdf : Q → Z → Q) (folder : list entry) :
  (∀ item, item ∈ folder → name item ≠ "BranchSite_A_null")
  ∨ (∀ item, item ∈ folder → name item ≠ "BranchSite_A") →
  Forall (λ r, snd (fst r) = "Branch-site" → snd r = no_counts)
         (regenerate_lrt_results chi2_cdf folder).
Proof.
  intros Hno. apply Forall_forall. intros r Hr Halt. unfold regenerate_lrt_results in Hr.
  apply list_elem_of_fmap in Hr as ([[null_model alt_model] df] & -> & Hcmp).
  simpl in *. subst alt_model.
  rewrite (regen_comparisons_branch_site _ _ _ _ Hcmp eq_refl).
  apply (regen_fold_ind chi2_cdf (λ c, c = no_counts)); [done|].
  intros g c0 ->. unfold regen_gene.
  change (reverse_mapping "Branch-site_null") with "BranchSite_A_null".
  change (reverse_mapping "Branch-site") with "BranchSite_A".
  destruct Hno as [Hno|Hno].
  - by rewrite (read_file_absent folder "BranchSite_A_null") by done.
  - destruct (read_file folder "BranchSite_A_null" _); [|done].
    by rewrite (read_file_absent folder "BranchSite_A") by done.
Qed.

(** The theorem at a results folder as a batch of the branch-site models
    leaves it, with one gene: the comparison is there and counts nothing. *)
Lemma regenerated_lrt_needs_legacy_folders_witness :
  Forall (λ r, snd (fst r) = "Branch-site" → snd r = no_counts)
    (regenerate_lrt_results (λ _ _, 0%Q)
       [ mk_entry_dir "Branch-site_null" true
           [("g1_Branch-site_null_results.txt", Samples.report_of "-100.0" "5")];
         mk_entry_dir "Branch-site" true
           [("g1_Branch-site_results.txt", Samples.report_of "-95.0" "6")] ])
  ∧ map fst
      (regenerate_lrt_results (λ _ _, 0%Q)
         [ mk_entry_dir "Branch-site_null" true
             [("g1_Branch-site_null_results.txt", Samples.report_of "-100.0" "5")];
           mk_entry_dir "Branch-site" true
             [("g1_Branch-site_results.txt", Samples.report_of "-95.0" "6")] ])
    = [("Branch-site_null", "Branch-site")].
Proof.
  split; [|reflexivity].
  apply regenerated_lrt_needs_legacy_folders. left.
  intros item Hin. rewrite !elem_of_cons, elem_of_nil in Hin.
  destruct Hin as [->|[->|[]]]; discriminate.
Defined.

(** The columns of the branch-site model in the summary. *)
Lemma branch_site_column_inv (model sfx c : string) :
  sfx ∈ ["_lnL"; "_np"; "_omega"; "_time"; "_stops"] →
  c ∈ ["Branch-site_lnL"; "Branch-site_np"; "Branch-site_omega"; "Branch-site_time";
       "Branch-site_stops"; "lrt_Branch-site_null_vs_Branch-site"] →
  model +:+ sfx = c → model = "Branch-site".
Proof.
  intros Hs Hc E. pose proof (endswith_app model sfx) as He. rewrite E in He.
  rewrite !elem_of_cons, elem_of_nil in Hs. rewrite !elem_of_cons, elem_of_nil in Hc.
  destruct Hs as [->|[->|[->|[->|[->|[]]]]]];
    destruct Hc as [->|[->|[->|[->|[->|[->|[]]]]]]];
    try (vm_compute in He; discriminate He);
    by apply (append_inj_l model "Branch-site" _ E).
Qed.

Lemma store_report_keeps (model content : string) (row row' : gmap string pyval)
    (c : string) :
  model ≠ "Branch-site" →
  c ∈ ["Branch-site_lnL"; "Branch-site_np"; "Branch-site_omega"; "Branch-site_time";
       "Branch-site_stops"; "lrt_Branch-site_null_vs_Branch-site"] →
  store_report model content row = Some row' → row' !! c = row !! c.
Proof.
  intros Hm Hc. unfold store_report.
  destruct (match Re.group1 _ with Some _ => _ | None => _ end); [|done].
  intros [= <-].
  rewrite !lookup_insert_ne; [done|..];
    intros E; apply Hm; refine (branch_site_column_inv model _ c _ Hc E);
    rewrite !elem_of_cons; tauto.
Qed.

Lemma dict_set_Forall {V} (P : V → Prop) (k : string) (v : V) (d : dict V) :
  Forall (λ kv, P (snd kv)) d → P v → Forall (λ kv, P (snd kv)) (dict_set k v d).
Proof.
  intros Hd Hv. induction d as [|[k0 v0] d IH]; simpl.
  - by repeat constructor.
  - apply Forall_cons in Hd as [H0 Hd].
    destruct (String.eqb k k0); constructor; auto.
Qed.

Lemma dict_get_Forall {V} (P : V → Prop) (k : string) (v : V) (d : dict V) :
  Forall (λ kv, P (snd kv)) d → dict_get k d = Some v → P v.
Proof.
  intros Hd Hg. apply dict_get_Some in Hg.
  by apply (proj1 (Forall_forall _ _) Hd (k, v)).
Qed.

Lemma foldl_keeps {A B} (P : B → Prop) (f : B → A → B) (l : list A) (b : B) :
  P b → (∀ b a, P b → P (f b a)) → P (foldl f b l).
Proof.
  revert b. induction l as [|a l IH]; intros b Hb Hstep; [done|].
  simpl. apply IH; [by apply Hstep | done].
Qed.

Lemma collect_keeps (folder : list entry) (c : string) :
  (∀ item, item ∈ folder → name item ≠ "BranchSite_A") →
  c ∈ ["Branch-site_lnL"; "Branch-site_np"; "Branch-site_omega"; "Branch-site_time";
       "Branch-site_stops"; "lrt_Branch-site_null_vs_Branch-site"] →
  Forall (λ kv, snd kv !! c = None) (collect folder).
Proof.
  intros Hno Hc. unfold collect.
  apply (foldl_keeps (Forall (λ kv, snd kv !! c = None))); [by constructor|].
  intros data model Hdata. unfold collect_model.
  destruct (List.find _ folder) as [item|] eqn:E; [|done].
  destruct (is_dir item); [|done].
  apply List.find_some in E as [Hin Heq]. apply String.eqb_eq in Heq.
  assert (model ≠ "Branch-site") as Hm.
  { intros ->. apply (Hno item); [by apply list_elem_of_In | done]. }
  apply (foldl_keeps (Forall (λ kv, snd kv !! c = None))); [done|].
  intros data' f Hdata'. unfold collect_file.
  set (g := gene_of (f.1) (reverse_mapping model)).
  assert ((default {[ "Gene" := VStr g ]} (dict_get g data')) !! c = None) as Hrow.
  { destruct (dict_get g data') as [r|] eqn:Eg; simpl.
    - by apply (dict_get_Forall (λ r, r !! c = None) g r data').
    - apply lookup_singleton_ne. intros <-.
      rewrite !elem_of_cons, elem_of_nil in Hc. intuition discriminate. }
  destruct (store_report model (f.2) _) as [row'|] eqn:Est;
    apply (dict_set_Forall (λ r, r !! c = None)); try done.
  by rewrite (store_report_keeps model _ _ row' c Hm Hc Est).
Qed.

(** X7.  The summary regenerated from disk reads the reports of the
    branch-site model in the folder BranchSite_A only.  In a results folder
    without an entry of that name, as after a batch, which names the folder
    Branch-site, no row of the regenerated summary has a value in one of the
    five columns of the model or in the column of its test, whatever the
    folder Branch-site holds. *)
Theorem regenerated_summary_needs_legacy_folder (folder : list entry)
    (gene column : string) :
  (∀ item, item ∈ folder → name item ≠ "BranchSite_A") →
  column ∈ ["Branch-site_lnL"; "Branch-site_np"; "Branch-site_omega"; "Branch-site_time";
            "Branch-site_stops"; "lrt_Branch-site_null_vs_Branch-site"] →
  regenerated_cell folder gene column = None.
Proof.
  intros Hno Hc. unfold regenerated_cell, regenerate_analysis_summary.
  destruct (dict_get gene (map _ (collect folder))) as [row|] eqn:E; [|done]. simpl.
  apply dict_get_Some, list_elem_of_fmap in E as ([g row0] & [= -> ->] & Hin).
  simpl.
  assert (∀ c, c ∈ ["Branch-site_lnL"; "Branch-site_np"; "Branch-site_omega";
                    "Branch-site_time"; "Branch-site_stops";
                    "lrt_Branch-site_null_vs_Branch-site"] → row0 !! c = None) as Hrow.
  { intros c Hc'.
    apply (proj1 (Forall_forall _ _) (collect_keeps folder c Hno Hc') (g, row0) Hin). }
  unfold lrt_columns, REGEN_PAIRS. cbn [foldl fst snd].
  assert (∀ row, lrt_column "Branch-site_null" "Branch-site" row !! column
                 = if decide (column = "lrt_Branch-site_null_vs_Branch-site")
                   then lrt_column "Branch-site_null" "Branch-site" row !! column
                   else row !! column) as Hlast.
  { intros row. destruct (decide _) as [->|Hne]; [done|]. by apply lrt_column_lookup. }
  rewrite !elem_of_cons, elem_of_nil in Hc.
  destruct Hc as [->|[->|[->|[->|[->|[->|[]]]]]]];
    try (other_blocks; apply Hrow; rewrite !elem_of_cons; tauto).
  unfold lrt_column at 1.
  assert (∀ row : gmap string pyval,
            row !! "Branch-site_lnL" = None →
            row !! ("Branch-site" +:+ "_lnL") = None) as Hk by done.
  rewrite (Hk _); [|other_blocks; apply Hrow; rewrite !elem_of_cons; tauto].
  destruct (_ !! ("Branch-site_null" +:+ "_lnL"));
    other_blocks; apply Hrow; rewrite !elem_of_cons; tauto.
Qed.

(** The theorem at a results folder with the folders M0 and Branch-site and
    one gene: the row of the gene has the likelihood of M0 and none for the
    branch-site model. *)
Lemma regenerated_summary_needs_legacy_folder_witness :
  regenerated_cell
    [ mk_entry_dir "M0" true [("g1_M0_results.txt", Samples.report_of "-100.5" "5")];
      mk_entry_dir "Branch-site" true
        [("g1_Branch-site_results.txt", Samples.report_of "-95.0" "6")] ]
    "g1" "Branch-site_lnL" = None
  ∧ regenerated_cell
      [ mk_entry_dir "M0" true [("g1_M0_results.txt", Samples.report_of "-100.5" "5")];
        mk_entry_dir "Branch-site" true
          [("g1_Branch-site_results.txt", Samples.report_of "-95.0" "6")] ]
      "g1" "M0_lnL" = Some (VFloat (-201 # 2)).
Proof.
  split; [|vm_compute; reflexivity].
  apply regenerated_summary_needs_legacy_folder.
  - intros item Hin. rewrite !elem_of_cons, elem_of_nil in Hin.
    destruct Hin as [->|[->|[]]]; discriminate.
  - by left.
Defined.

Lemma before_first_prefix (sep s : string) :
  String.prefix sep s = true → before_first sep s = EmptyString.
Proof. intros H. destruct s; cbn [before_first]; by rewrite H. Qed.

Lemma before_first_app (sep g rest : string) :
  (∀ a b, g = a +:+ b → b ≠ EmptyString → String.prefix sep (b +:+ sep +:+ rest) = false) →
  before_first sep (g +:+ sep +:+ rest) = g.
Proof.
  induction g as [|c g IH]; intros Hno.
  - rewrite app_nil_l. apply before_first_prefix, prefix_app.
  - rewrite app_cons. cbn [before_first]. rewrite <- app_cons.
    rewrite (Hno EmptyString (String c g)) by done.
    f_equal. apply IH. intros a b -> Hb.
    by apply (Hno (String c a) b).
Qed.

(** X11.  The name under which a run stores its report, read back as the
    regeneration reads it (what stands before the first
    [_<model>_results]), gives the gene of the run, provided that text
    does not already begin inside the name of the gene followed by it. *)
Theorem gene_of_output_filename (gene model : string) :
  (∀ a b, gene = a +:+ b → b ≠ EmptyString →
     String.prefix ("_" +:+ model +:+ "_results")
                   (b +:+ ("_" +:+ model +:+ "_results") +:+ ".txt") = false) →
  gene_of (output_filename gene model) model = gene.
Proof.
  intros Hno. unfold gene_of, output_filename.
  assert (gene +:+ "_" +:+ model +:+ "_results.txt"
          = gene +:+ ("_" +:+ model +:+ "_results") +:+ ".txt") as ->.
  { f_equal. rewrite !PyFacts.app_assoc. reflexivity. }
  by apply before_first_app.
Qed.

(** The theorem at a gene whose name has underscores; and a gene whose name
    holds the text that ends the name of a report: it is cut there. *)
Lemma gene_of_output_filename_witness :
  gene_of (output_filename "opsin_LWS_2" "M0") "M0" = "opsin_LWS_2"
  ∧ gene_of (output_filename "x_M0_results_old" "M0") "M0" = "x".
Proof.
  split; [|reflexivity].
  apply gene_of_output_filename. intros a b E Hb.
  repeat (destruct a as [|? a];
          [rewrite app_nil_l in E; subst b; try done; reflexivity
          |rewrite app_cons in E; injection E as <- E]).
  destruct a; [|discriminate E]. rewrite app_nil_l in E. by subst b.
Defined.

End RegenFacts.

(** ** The shape of the summary table *)

Module TableFacts.
Import Py Num PyFacts Backend SortFacts BatchFacts SummaryFacts DictFacts.
Local Open Scope nat_scope.

Lemma string_leb_trans (a b c : string) :
  String.leb a b = true → String.leb b c = true → String.leb a c = true.
Proof.
  unfold String.leb. revert b c.
  induction a as [|x a IH]; intros [|y b] [|z c]; simpl; try done.
  unfold Ascii.compare.
  destruct (N.compare_spec (N_of_ascii x) (N_of_ascii y)) as [Exy|Lxy|Gxy]; [|  |done].
  - rewrite Exy.
    destruct (N.compare_spec (N_of_ascii y) (N_of_ascii z)); [|done|done].
    by apply IH.
  - destruct (N.compare_spec (N_of_ascii y) (N_of_ascii z)) as [Eyz|Lyz|Gyz]; [| |done].
    + intros _ _. rewrite <- Eyz. by rewrite (proj2 (N.compare_lt_iff _ _) Lxy).
    + intros _ _. by rewrite (proj2 (N.compare_lt_iff _ _) (N.lt_trans _ _ _ Lxy Lyz)).
Qed.

Lemma insert_by_sorted_le {A} (le : A → A → bool) (x : A) (l : list A) :
  (∀ a b, le a b = true ∨ le b a = true) →
  (∀ a b c, le a b = true → le b c = true → le a c = true) →
  StronglySorted (λ a b, le a b = true) l →
  StronglySorted (λ a b, le a b = true) (insert_by le x l).
Proof.
  intros Htot Htr Hs. induction Hs as [|y l Hs IH Hy]; simpl.
  - repeat constructor.
  - destruct (le x y) eqn:E.
    + constructor; [by constructor|]. constructor; [done|].
      eapply Forall_impl; [exact Hy|]. intros z Hz. by eapply Htr.
    + constructor; [exact IH|].
      assert (le y x = true) as Hyx by (destruct (Htot x y); congruence).
      rewrite insert_by_perm. by constructor.
Qed.

Lemma sort_by_sorted_le {A} (le : A → A → bool) (l : list A) :
  (∀ a b, le a b = true ∨ le b a = true) →
  (∀ a b c, le a b = true → le b c = true → le a c = true) →
  StronglySorted (λ a b, le a b = true) (sort_by le l).
Proof.
  intros Htot Htr. induction l as [|x l IH]; [constructor|].
  rewrite sort_by_cons. by apply insert_by_sorted_le.
Qed.

Lemma flat_map_length5 {A B} (f : A → list B) (l : list A) :
  (∀ a, length (f a) = 5) → length (flat_map f l) = 5 * length l.
Proof.
  intros Hf. induction l as [|a l IH]; [done|].
  change (flat_map f (a :: l)) with (f a ++ flat_map f l).
  rewrite length_app, Hf, IH. simpl. lia.
Qed.

(** X8.  The summary table is rectangular and has one row per gene: the
    header and every row have one cell for the gene, five for each selected
    model and one for each comparison; the rows are as many as the genes of
    the results, and their first cells are the names of the genes (line
    breaks removed) in sorted order. *)
Theorem summary_table_shape (files : gmap string string) (selected_models : list string)
    (res : gmap string (gmap string run_result)) :
  length (save_summary files selected_models res) = 1 + size res
  ∧ Forall (λ row, length row
                   = 1 + 5 * length selected_models
                     + length (summary_comparisons selected_models))
           (save_summary files selected_models res)
  ∧ map (λ row, row !! 0) (drop 1 (save_summary files selected_models res))
    = map (λ gene_name, Some (clean gene_name)) (sorted_keys res)
  ∧ sorted_keys res ≡ₚ map fst (map_to_list res)
  ∧ StronglySorted (λ a b, String.leb a b = true) (sorted_keys res).
Proof.
  unfold save_summary. split; [|split; [|split; [|split]]].
  - simpl. rewrite length_map. unfold sorted_keys.
    rewrite sort_by_perm, length_map, length_map_to_list. done.
  - constructor.
    + unfold summary_header. rewrite !length_app, length_map. simpl.
      rewrite (flat_map_length5 model_columns); [lia | done].
    + apply Forall_forall. intros row (g & -> & _)%list_elem_of_fmap.
      unfold summary_row. rewrite length_map, !length_app, length_map. simpl.
      rewrite (flat_map_length5 (model_cells files _)); [lia|].
      apply model_cells_length.
  - simpl. rewrite drop_0, <- list_fmap_compose. apply list_fmap_ext.
    intros i g _. simpl. unfold summary_row. simpl. by rewrite clean_idem.
  - unfold sorted_keys. apply sort_by_perm.
  - unfold sorted_keys. apply sort_by_sorted_le;
      [apply String.leb_total | apply string_leb_trans].
Qed.

(** Texts without line feed. *)
Lemma remove_char_free (c : ascii) (u : string) :
  c ∉ list_ascii_of_string (remove_char c u).
Proof.
  induction u as [|x u IH]; simpl; [apply not_elem_of_nil|].
  destruct (Ascii.eqb x c) eqn:E; [done|]. simpl.
  apply Ascii.eqb_neq in E. intros [?|?]%elem_of_cons; [congruence | done].
Qed.

Lemma remove_char_keeps_free (c d : ascii) (u : string) :
  c ∉ list_ascii_of_string u → c ∉ list_ascii_of_string (remove_char d u).
Proof.
  induction u as [|x u IH]; simpl; [done|].
  intros Hn. destruct (Ascii.eqb x d).
  - apply IH. intros ?. apply Hn. by right.
  - simpl. intros [->|?]%elem_of_cons; [apply Hn; by left|].
    apply IH; [|done]. intros ?. apply Hn. by right.
Qed.

Lemma clean_free (u : string) :
  (LF ∉ list_ascii_of_string (clean u)) ∧ (CR ∉ list_ascii_of_string (clean u)).
Proof.
  unfold clean. split; [|apply remove_char_free].
  apply remove_char_keeps_free, remove_char_free.
Qed.

Lemma list_ascii_append (a b : string) :
  list_ascii_of_string (a +:+ b) = list_ascii_of_string a ++ list_ascii_of_string b.
Proof. induction a as [|c a IH]; [done|]. rewrite app_cons. simpl. by rewrite IH. Qed.

Lemma join_free (c : ascii) (sep : string) (row : list string) :
  c ∉ list_ascii_of_string sep →
  Forall (λ cell, c ∉ list_ascii_of_string cell) row →
  c ∉ list_ascii_of_string (join sep row).
Proof.
  intros Hsep Hrow. induction Hrow as [|cell row Hcell Hrow IH]; [apply not_elem_of_nil|].
  destruct row as [|cell' row]; [done|].
  change (join sep (cell :: cell' :: row)) with (cell +:+ sep +:+ join sep (cell' :: row)).
  rewrite !list_ascii_append, !elem_of_app. tauto.
Qed.

Lemma split_char_line (sep : ascii) (a b : string) :
  sep ∉ list_ascii_of_string a →
  split_char sep (a +:+ String sep b) = a :: split_char sep b.
Proof.
  induction a as [|c a IH]; intros Hn.
  - rewrite app_nil_l. simpl. by rewrite Ascii.eqb_refl.
  - rewrite app_cons. simpl. simpl in Hn.
    destruct (Ascii.eqb c sep) eqn:E.
    + apply Ascii.eqb_eq in E as ->. exfalso. apply Hn. by left.
    + rewrite IH; [done|]. intros ?. apply Hn. by right.
Qed.

Lemma concat_cons (x : string) (l : list string) :
  String.concat EmptyString (x :: l) = x +:+ String.concat EmptyString l.
Proof. destruct l; simpl; [by rewrite app_nil_r | done]. Qed.

Lemma tsv_lines (table : list (list string)) :
  Forall (Forall (λ cell, LF ∉ list_ascii_of_string cell)) table →
  split_char LF (tsv table) = map (join tab) table ++ [EmptyString].
Proof.
  intros Ht. unfold tsv. induction Ht as [|row table Hrow Ht IH]; [done|].
  cbn [List.map]. rewrite concat_cons, PyFacts.app_assoc.
  unfold nl at 1. rewrite app_cons, app_nil_l.
  rewrite split_char_line; [by rewrite IH|].
  apply join_free; [|done]. intros [?|?%elem_of_nil]%elem_of_cons; done.
Qed.

(** X9.  No cell of a row of the summary table holds a line feed or a
    carriage return, so every gene is one line of the file: the text
    written for the rows, read back line by line, is the rows with their
    cells joined by tabs, and an empty text after the last line feed. *)
Theorem summary_rows_are_lines (files : gmap string string) (selected_models : list string)
    (res : gmap string (gmap string run_result)) :
  Forall (Forall (λ cell, (LF ∉ list_ascii_of_string cell)
                          ∧ (CR ∉ list_ascii_of_string cell)))
         (drop 1 (save_summary files selected_models res))
  ∧ split_char LF (tsv (drop 1 (save_summary files selected_models res)))
    = map (join tab) (drop 1 (save_summary files selected_models res)) ++ [EmptyString].
Proof.
  assert (Forall (Forall (λ cell, (LF ∉ list_ascii_of_string cell)
                                  ∧ (CR ∉ list_ascii_of_string cell)))
                 (drop 1 (save_summary files selected_models res))) as Hcells.
  { unfold save_summary. simpl. rewrite drop_0. apply Forall_forall.
    intros row (g & -> & _)%list_elem_of_fmap. unfold summary_row.
    apply Forall_forall. intros cell (u & -> & _)%list_elem_of_fmap. apply clean_free. }
  split; [exact Hcells|]. apply tsv_lines.
  eapply Forall_impl; [exact Hcells|]. intros row Hrow.
  eapply Forall_impl; [exact Hrow|]. by intros cell [? _].
Qed.

(** X10.  A run whose process exits, with whatever code, and leaves no
    report is recorded all the same: its result has the status partial and
    neither likelihood, parameter count, ratio nor report path.  In the
    summary table written after the batch its first three cells read NA,
    None and NA: the parameter count that is missing is printed as the
    text None, not as NA. *)
Theorem run_without_report_cells (files : gmap string string) (cfg : config)
    (env : string → string → run_env) (fas_files : list fas_file) (fas : fas_file)
    (i : nat) (model : string) (rc : Z) :
  NoDup (map stem fas_files) →
  fas ∈ fas_files →
  models cfg !! i = Some model →
  is_Some (ctl_content cfg fas model) →
  proc (env (stem fas) model) = Exited rc →
  output_text (env (stem fas) model) = None →
  (∃ r, outcome cfg env fas model = Some r
        ∧ status r = "partial" ∧ lnL r = None ∧ np r = None ∧ omega r = None
        ∧ results_file r = None)
  ∧ ∃ row,
      row ∈ drop 1 (save_summary files (models cfg) (results (run_all cfg env fas_files)))
      ∧ row !! 0 = Some (clean (stem fas))
      ∧ take 3 (drop (1 + 5 * i) row) = ["NA"; "None"; "NA"].
Proof.
  intros Hnd Hfas Hi [ctl Hctl] Hproc Hout.
  assert (∃ r, outcome cfg env fas model = Some r
               ∧ status r = "partial" ∧ lnL r = None ∧ np r = None ∧ omega r = None
               ∧ results_file r = None) as (r & Hr & Hst & HlnL & Hnp & Hom & Hrf).
  { unfold outcome, run_single_analysis. rewrite Hctl, Hproc, Hout. simpl.
    eexists. split; [reflexivity|]. simpl. by rewrite andb_false_r. }
  split; [by exists r|].
  exists (summary_row files (models cfg) (stem fas) (gene_results_of cfg env fas)).
  assert (results (run_all cfg env fas_files) !! stem fas
          = Some (gene_results_of cfg env fas)) as Hg by (by apply run_all_lookup).
  split; [|split].
  - unfold save_summary. simpl. rewrite drop_0. apply list_elem_of_fmap.
    exists (stem fas). rewrite Hg. split; [done|]. by apply sorted_keys_elem.
  - unfold summary_row. simpl. by rewrite clean_idem.
  - assert (take 3 (drop (1 + 5 * i)
              (summary_row files (models cfg) (stem fas) (gene_results_of cfg env fas)))
            = take 3 (take 5 (drop (1 + 5 * i)
                (summary_row files (models cfg) (stem fas) (gene_results_of cfg env fas)))))
      as -> by (rewrite take_take; f_equal).
    rewrite (summary_row_cells _ _ _ _ _ model) by done.
    unfold model_cells, gene_results_of.
    rewrite record_lookup, Hr by (eapply list_elem_of_lookup_2, Hi).
    rewrite HlnL, Hnp, Hom, Hrf. reflexivity.
Qed.

(** The theorem at a batch of one gene and the model M0, whose process
    exits with code 1 and leaves no report. *)
Lemma run_without_report_cells_witness :
  (∃ r, outcome (mk_config ["M0"] ∅ (Some (VFloat (1 # 2))) 1 1600 true "tree.nwk" None None)
          (λ _ _, mk_env [] [] (Exited 1) None (3 # 2)) Samples.geneA "M0" = Some r
        ∧ status r = "partial" ∧ lnL r = None ∧ np r = None ∧ omega r = None
        ∧ results_file r = None)
  ∧ ∃ row,
      row ∈ drop 1 (save_summary ∅ ["M0"]
                      (results (run_all
                         (mk_config ["M0"] ∅ (Some (VFloat (1 # 2))) 1 1600 true "tree.nwk"
                            None None)
                         (λ _ _, mk_env [] [] (Exited 1) None (3 # 2)) [Samples.geneA])))
      ∧ row !! 0 = Some "geneA"
      ∧ take 3 (drop 1 row) = ["NA"; "None"; "NA"].
Proof.
  apply (run_without_report_cells ∅
           (mk_config ["M0"] ∅ (Some (VFloat (1 # 2))) 1 1600 true "tree.nwk" None None)
           (λ _ _, mk_env [] [] (Exited 1) None (3 # 2)) [Samples.geneA] Samples.geneA
           0 "M0" 1).
  - repeat constructor. apply not_elem_of_nil.
  - by left.
  - reflexivity.
  - vm_compute. eexists. reflexivity.
  - reflexivity.
  - reflexivity.
Defined.

End TableFacts.

(** ** Bounds of the ratios read from a report *)

Module BoundFacts.
Import Py Num PyFacts SitesParser SitesParserFacts SortFacts DictFacts RegenFacts.

Lemma in_bounds_iff (x : Q) : in_bounds x = true ↔ (-10 <= x)%Q ∧ (x <= 100)%Q.
Proof.
  unfold in_bounds, Qleb. rewrite andb_true_iff, !Qle_bool_iff.
  change (-10 # 1) with (-10)%Q. change (100 # 1) with 100%Q. tauto.
Qed.

Lemma row_omega_bounds (data_line : string) (x : Q) :
  row_omega data_line = Some x → in_bounds x = true.
Proof.
  unfold row_omega. destruct (5 <=? length (split_ws data_line))%nat; [|done].
  destruct (split_ws data_line !! 4%nat) as [omega_str|]; [|done].
  destruct (float_of_string omega_str) as [omega|]; [|done].
  destruct (in_bounds omega) eqn:E; [|done]. by intros [= <-].
Qed.

Lemma scan_global_bounds (rows : list string) (omegas : list Q) :
  Forall (λ x, in_bounds x = true) omegas →
  Forall (λ x, in_bounds x = true) (scan_global rows omegas).
Proof.
  revert omegas. induction rows as [|row rest IH]; intros omegas Ho; [done|].
  cbn [scan_global]. destruct (skipped (strip row)); [by apply IH|].
  destruct (at_end GLOBAL_END_MARKERS (strip row)); [done|].
  destruct (row_omega (strip row)) as [omega|] eqn:E; [|by apply IH].
  apply IH, Forall_app. split; [done|]. constructor; [|constructor].
  by eapply row_omega_bounds.
Qed.

Lemma median_bounds (l : list Q) (x : Q) :
  Forall (λ x, in_bounds x = true) l → median l = Some x → in_bounds x = true.
Proof.
  intros Hl. unfold median.
  assert (Forall (λ x, in_bounds x = true) (sort_by Qleb l)) as Hs
    by (by rewrite sort_by_perm).
  set (s := sort_by Qleb l) in *. clearbody s.
  destruct (length s =? 0)%nat; [done|].
  destruct (Nat.odd (length s)).
  - intros Hx. apply (proj1 (Forall_forall _ _) Hs). by eapply list_elem_of_lookup_2.
  - destruct (s !! (length s / 2 - 1)%nat) as [a|] eqn:Ea; [|done].
    destruct (s !! (length s / 2)%nat) as [b|] eqn:Eb; [|done].
    intros [= <-].
    assert (in_bounds a = true) as Ha
      by (apply (proj1 (Forall_forall _ _) Hs); by eapply list_elem_of_lookup_2).
    assert (in_bounds b = true) as Hb
      by (apply (proj1 (Forall_forall _ _) Hs); by eapply list_elem_of_lookup_2).
    apply in_bounds_iff in Ha as [Ha1 Ha2]. apply in_bounds_iff in Hb as [Hb1 Hb2].
    apply in_bounds_iff. rewrite Qred_correct.
    unfold Qdiv. change (/ (2 # 1))%Q with (1 # 2)%Q. split; lra.
Qed.

Lemma first_omega_bounds (patterns : list Re.re) (content : string) (x : Q) :
  first_omega patterns content = Some x → in_bounds x = true.
Proof.
  induction patterns as [|pattern rest IH]; [done|]. simpl.
  destruct (Re.group1 _) as [g|]; [|exact IH].
  destruct (float_of_string g) as [omega|]; [|done].
  destruct (in_bounds omega) eqn:E; [by intros [= <-] | exact IH].
Qed.

(** X12.  A ratio returned by the extractor of the branch table, by the
    extractor of the labelled values or by the robust extractor, which
    tries both, lies within -10..100. *)
Theorem omega_extractors_within_bounds (content : string) (x : Q) :
  (extract_omega_global content = Some x → (-10 <= x)%Q ∧ (x <= 100)%Q)
  ∧ (extract_omega_values_from_model_params content = Some x → (-10 <= x)%Q ∧ (x <= 100)%Q)
  ∧ (extract_omega_robust content = Some x → (-10 <= x)%Q ∧ (x <= 100)%Q).
Proof.
  assert (extract_omega_global content = Some x → in_bounds x = true) as Hg.
  { unfold extract_omega_global. destruct (negb _); [done|].
    apply median_bounds. destruct (lines_after_header _); [|constructor].
    apply scan_global_bounds. constructor. }
  assert (extract_omega_values_from_model_params content = Some x → in_bounds x = true)
    as Hp by apply first_omega_bounds.
  split; [|split]; intros H; apply in_bounds_iff; auto.
  unfold extract_omega_robust in H. destruct (_ && _); [done|].
  destruct (extract_omega_global content) as [y|] eqn:E.
  - injection H as ->. by apply Hg.
  - destruct (extract_omega_values_from_model_params content) eqn:E2; [|done].
    injection H as ->. by apply Hp.
Qed.

(** The theorem at the report with three rows, whose median is 0.42. *)
Lemma omega_extractors_within_bounds_witness :
  (-10 <= 21 # 50)%Q ∧ (21 # 50 <= 100)%Q.
Proof.
  apply (proj1 (omega_extractors_within_bounds Samples.report_3 (21 # 50))).
  vm_compute. reflexivity.
Defined.

Lemma lines_after_header_sub (lines rest : list string) :
  lines_after_header lines = Some rest → rest ⊆ lines.
Proof.
  induction lines as [|line lines IH]; [done|]. simpl.
  destruct (contains TABLE_HEADER line).
  - intros [= ->] x Hx. by right.
  - intros H x Hx. right. by apply IH.
Qed.

Lemma row_omega_Some (data_line : string) (x : Q) :
  row_omega data_line = Some x →
  in_bounds x = true
  ∧ ∃ branch, split_ws data_line !! 0%nat = Some branch
              ∧ (split_ws data_line !! 4%nat) ≫= float_of_string = Some x.
Proof.
  intros H. split; [by eapply row_omega_bounds|]. revert H. unfold row_omega.
  destruct (5 <=? length (split_ws data_line))%nat; [|done].
  destruct (split_ws data_line) as [|branch parts]; [done|].
  intros H. exists branch. split; [done|].
  destruct ((branch :: parts) !! 4%nat) as [omega_str|]; [|done]. simpl.
  destruct (float_of_string omega_str) as [omega|]; [|done].
  destruct (in_bounds omega); [|done]. by injection H as ->.
Qed.

Lemma scan_branches_keeps (P : string * Q → Prop) (rows : list string)
    (branch_omegas : dict Q) :
  (∀ row branch x, row ∈ rows → split_ws row !! 0%nat = Some branch →
     row_omega (strip row) = Some x → P (branch, x)) →
  Forall P branch_omegas ∧ NoDup (map fst branch_omegas) →
  Forall P (scan_branches rows branch_omegas)
  ∧ NoDup (map fst (scan_branches rows branch_omegas)).
Proof.
  revert branch_omegas. induction rows as [|row rest IH]; intros d Hrow Hd; [done|].
  assert (∀ r branch x, r ∈ rest → split_ws r !! 0%nat = Some branch →
            row_omega (strip r) = Some x → P (branch, x)) as Hrest.
  { intros r branch x Hr. apply Hrow. by right. }
  cbn [scan_branches]. destruct (skipped (strip row)); [by apply IH|].
  destruct (at_end BRANCH_END_MARKERS (strip row)); [done|].
  destruct (split_ws (strip row)) as [|branch parts] eqn:Es; [by apply IH|].
  destruct (row_omega (strip row)) as [omega|] eqn:Er; [|by apply IH].
  apply IH; [done|]. destruct Hd as [Hd Hnd]. split; [|by apply dict_set_NoDup].
  assert (P (branch, omega)) as Hp.
  { apply (Hrow row); [by left| |done]. rewrite <- split_ws_strip, Es. done. }
  clear -Hd Hp. induction d as [|[k0 v0] d IH]; simpl.
  - by repeat constructor.
  - apply Forall_cons in Hd as [H0 Hd].
    destruct (String.eqb branch k0); constructor; auto.
Qed.

(** X13.  The map of branches read from the branch table has every branch
    once; each ratio lies within -10..100 and stands, as fifth field, on a
    line of the report whose first field is the branch; a report without
    the header of the table gives the empty map. *)
Theorem extract_omega_by_branches_sound (content : string) :
  NoDup (map fst (extract_omega_by_branches content))
  ∧ Forall (λ kv, ((-10 <= snd kv)%Q ∧ (snd kv <= 100)%Q)
                  ∧ ∃ line, line ∈ split_char LF content
                            ∧ split_ws line !! 0%nat = Some (fst kv)
                            ∧ (split_ws line !! 4%nat) ≫= float_of_string = Some (snd kv))
           (extract_omega_by_branches content)
  ∧ (¬ occurs TABLE_HEADER content → extract_omega_by_branches content = []).
Proof.
  assert (¬ occurs TABLE_HEADER content → extract_omega_by_branches content = []) as H0.
  { intros Hno. unfold extract_omega_by_branches.
    destruct (contains TABLE_HEADER content) eqn:E; [|done].
    by apply contains_occurs in E. }
  unfold extract_omega_by_branches in *.
  destruct (negb (contains TABLE_HEADER content)); [repeat split; by constructor|].
  destruct (lines_after_header (split_char LF content)) as [rest|] eqn:E;
    [|repeat split; by constructor].
  apply lines_after_header_sub in E.
  destruct (scan_branches_keeps
              (λ kv, ((-10 <= snd kv)%Q ∧ (snd kv <= 100)%Q)
                     ∧ ∃ line, line ∈ split_char LF content
                               ∧ split_ws line !! 0%nat = Some (fst kv)
                               ∧ (split_ws line !! 4%nat) ≫= float_of_string
                                 = Some (snd kv))
              (take TABLE_BUDGET rest) []) as [Hp Hnd];
    [| |split; [exact Hnd | split; [exact Hp | exact H0]]].
  - intros row branch x Hrow Hb (Hx & branch' & _ & H5)%row_omega_Some. simpl.
    split; [by apply in_bounds_iff|]. exists row. rewrite split_ws_strip in H5.
    split; [|done]. apply E. by apply (subseteq_take TABLE_BUDGET rest).
  - split; constructor.
Qed.

(** The theorem at the report with three rows and at a text without
    table. *)
Lemma extract_omega_by_branches_sound_witness :
  map fst (extract_omega_by_branches Samples.report_3) = ["4..1"; "4..2"; "4..3"]
  ∧ NoDup (map fst (extract_omega_by_branches Samples.report_3))
  ∧ extract_omega_by_branches "lnL = -100.5" = [].
Proof.
  split; [vm_compute; reflexivity|]. split.
  - apply (proj1 (extract_omega_by_branches_sound Samples.report_3)).
  - apply (proj2 (proj2 (extract_omega_by_branches_sound "lnL = -100.5"))).
    intros H%contains_occurs. vm_compute in H. discriminate H.
Defined.

End BoundFacts.

(** ** The matcher finds only what the pattern matches *)

Module ReFacts.
Import Py Num Re ReSem PyFacts DictFacts TableFacts.

Lemma rep_sound (greedy : bool) (p : ascii → bool) (prev : option ascii) (s : string)
    (caps : list string) (k : cont) (res : list string) :
  rep greedy p prev s caps k = Some res →
  ∃ m s' prev', s = m +:+ s' ∧ all_in p m ∧ k prev' s' caps = Some res.
Proof.
  revert prev. induction s as [|c s IH]; intros prev; simpl.
  - intros H. exists EmptyString, EmptyString, prev. repeat split; [constructor | done].
  - assert (k prev (String c s) caps = Some res →
            ∃ m s' prev', String c s = m +:+ s' ∧ all_in p m ∧ k prev' s' caps = Some res)
      as Hstop.
    { intros H. exists EmptyString, (String c s), prev.
      repeat split; [constructor | done]. }
    destruct (p c) eqn:Hp; [|exact Hstop].
    assert (rep greedy p (Some c) s caps k = Some res →
            ∃ m s' prev', String c s = m +:+ s' ∧ all_in p m ∧ k prev' s' caps = Some res)
      as Hgo.
    { intros (m & s' & prev' & -> & Hm & Hk)%IH.
      exists (String c m), s', prev'. rewrite app_cons. repeat split; [|done].
      by constructor. }
    destruct greedy.
    + destruct (rep true p (Some c) s caps k) as [r|] eqn:E; [|exact Hstop].
      intros [= ->]. by apply Hgo.
    + destruct (k prev (String c s) caps) as [r|] eqn:E; [|exact Hgo].
      intros [= ->]. by apply Hstop.
Qed.

Lemma substring_prefix (m s' : string) :
  String.substring 0 (String.length (m +:+ s') - String.length s') (m +:+ s') = m.
Proof.
  rewrite length_append.
  replace (String.length m + String.length s' - String.length s') with (String.length m)
    by lia.
  induction m as [|c m IH]; [by destruct s'|]. rewrite app_cons. simpl. by rewrite IH.
Qed.

(** A match of [r] at the head of [s] consumes a text [m] that [r] matches
    and hands the groups of [m], after those it was given, to the
    continuation. *)
Lemma run_sound (ic : bool) (r : re) (prev : option ascii) (s : string)
    (caps : list string) (k : cont) (res : list string) :
  run ic r prev s caps k = Some res →
  ∃ m s' gs prev', s = m +:+ s' ∧ den ic r m gs ∧ k prev' s' (caps ++ gs) = Some res.
Proof.
  revert prev s caps k.
  induction r as [|c|p|p g|p g|r1 IH1|r1 IH1 r2 IH2|r1 IH1 r2 IH2|r1 IH1| |];
    intros prev s caps k; cbn [run].
  - intros H. exists EmptyString, s, [], prev. by rewrite List.app_nil_r.
  - destruct s as [|d s]; [done|]. destruct (chr_eq ic c d) eqn:E; [|done].
    intros H. exists (String d EmptyString), s, [], (Some d).
    rewrite List.app_nil_r. repeat split; [|done]. by exists d.
  - destruct s as [|d s]; [done|]. destruct (p d) eqn:E; [|done].
    intros H. exists (String d EmptyString), s, [], (Some d).
    rewrite List.app_nil_r. repeat split; [|done]. by exists d.
  - intros (m & s' & prev' & -> & Hm & Hk)%rep_sound.
    exists m, s', [], prev'. by rewrite List.app_nil_r.
  - destruct s as [|d s]; [done|]. destruct (p d) eqn:E; [|done].
    intros (m & s' & prev' & -> & Hm & Hk)%rep_sound.
    exists (String d m), s', [], prev'. rewrite List.app_nil_r, app_cons.
    repeat split; [done| |done]. by constructor.
  - destruct (run ic r1 prev s caps k) as [x|] eqn:E.
    + intros [= ->]. apply IH1 in E as (m & s' & gs & prev' & -> & Hm & Hk).
      exists m, s', gs, prev'. repeat split; [by left | done].
    + intros H. exists EmptyString, s, [], prev. rewrite List.app_nil_r.
      repeat split; [by right | done].
  - intros (m1 & s1 & g1 & prev1 & -> & Hm1 & Hk)%IH1.
    apply IH2 in Hk as (m2 & s2 & g2 & prev2 & -> & Hm2 & Hk).
    exists (m1 +:+ m2), s2, (g1 ++ g2), prev2.
    rewrite PyFacts.app_assoc, List.app_assoc. repeat split; [|done].
    by exists m1, m2, g1, g2.
  - destruct (run ic r1 prev s caps k) as [x|] eqn:E.
    + intros [= ->]. apply IH1 in E as (m & s' & gs & prev' & -> & Hm & Hk).
      exists m, s', gs, prev'. repeat split; [by left | done].
    + intros (m & s' & gs & prev' & -> & Hm & Hk)%IH2.
      exists m, s', gs, prev'. repeat split; [by right | done].
  - intros (m & s' & g1 & prev' & -> & Hm & Hk)%IH1.
    rewrite substring_prefix in Hk.
    exists m, s', (g1 ++ [m]), prev'. rewrite List.app_assoc.
    repeat split; [|done]. by exists g1.
  - assert (k prev s caps = Some res →
            ∃ m s' gs prev', s = m +:+ s' ∧ den ic Eos m gs
                             ∧ k prev' s' (caps ++ gs) = Some res) as Hk.
    { intros H. exists EmptyString, s, [], prev. by rewrite List.app_nil_r. }
    destruct s as [|c [|c' s]]; [exact Hk | | done].
    destruct (Ascii.eqb c LF); [exact Hk | done].
  - destruct (xorb _ _); [|done].
    intros H. exists EmptyString, s, [], prev. by rewrite List.app_nil_r.
Qed.

(** What [re.search] returns are the groups of a match somewhere in the
    text. *)
Lemma search_sound (ic : bool) (r : re) (s : string) (caps : list string) :
  search ic r s = Some caps → ∃ pre m post, s = pre +:+ m +:+ post ∧ den ic r m caps.
Proof.
  unfold search. generalize (@None ascii) as prev.
  induction s as [|c s IH]; intros prev; cbn [search_from].
  - destruct (run ic r prev EmptyString [] _) as [x|] eqn:E; [|done].
    intros [= ->]. apply run_sound in E as (m & s' & gs & prev' & Hs & Hm & [= <-]).
    by exists EmptyString, m, s'.
  - destruct (run ic r prev (String c s) [] _) as [x|] eqn:E.
    + intros [= ->]. apply run_sound in E as (m & s' & gs & prev' & Hs & Hm & [= <-]).
      by exists EmptyString, m, s'.
    + intros (pre & m & post & -> & Hm)%IH.
      exists (String c pre), m, post. by rewrite app_cons.
Qed.

(** Unfolds what a concrete pattern matches into its parts. *)
Ltac den_parts H :=
  cbn [seq lit den eol Backend.signed_decimal] in H;
  repeat match goal with
         | H' : ∃ _, _ |- _ => destruct H' as [? H']
         | H' : _ ∧ _ |- _ => destruct H'
         end;
  subst; cbn [List.app] in *.

Lemma all_in_app (p : ascii → bool) (a b : string) :
  all_in p (a +:+ b) ↔ all_in p a ∧ all_in p b.
Proof. unfold all_in. rewrite list_ascii_append. apply Forall_app. Qed.

Lemma all_in_lstrip (p : ascii → bool) (s : string) : all_in p s → all_in p (lstrip s).
Proof.
  induction s as [|c s IH]; [done|]. simpl. intros H.
  destruct (isspace c); [|done]. apply IH. by apply Forall_cons in H as [_ H].
Qed.

Lemma all_in_rstrip (p : ascii → bool) (s : string) : all_in p s → all_in p (rstrip s).
Proof.
  intros H. destruct (rstrip_prefix s) as [t Ht]. rewrite Ht in H.
  by apply all_in_app in H as [H _].
Qed.

Lemma all_in_strip (p : ascii → bool) (s : string) : all_in p s → all_in p (strip s).
Proof. intros H. by apply all_in_rstrip, all_in_lstrip. Qed.

(** Numbers read from digits are not negative. *)
Lemma digit_val_nonneg (c : ascii) : isdigit c = true → (0 ≤ digit_val c)%Z.
Proof.
  unfold isdigit, digit_val. intros [H _]%andb_true_iff. apply Nat.leb_le in H. lia.
Qed.

Lemma scan_digits_nonneg (acc : Z) (n : nat) (s : string) :
  (0 ≤ acc)%Z → (0 ≤ fst (fst (scan_digits acc n s)))%Z.
Proof.
  remember (String.length s) as len eqn:Hlen.
  revert s acc n Hlen. induction (lt_wf len) as [len _ IH].
  intros [|c s] acc n -> Hacc; [done|].
  cbn [scan_digits]. destruct (isdigit c) eqn:E.
  - eapply IH; [|reflexivity|]; [simpl; lia|].
    pose proof (digit_val_nonneg c E). lia.
  - destruct (Ascii.eqb c "_"); [|done]. destruct s as [|c2 s]; [done|].
    destruct (isdigit c2) eqn:E2; [|done].
    eapply IH; [|reflexivity|]; [simpl; lia|].
    pose proof (digit_val_nonneg c2 E2). lia.
Qed.

Lemma digitpart_nonneg (s : string) : (0 ≤ fst (fst (digitpart s)))%Z.
Proof.
  unfold digitpart. destruct s as [|c s]; [done|].
  destruct (isdigit c) eqn:E; [|done].
  apply scan_digits_nonneg. by apply digit_val_nonneg.
Qed.

Lemma scale10_nonneg (m e : Z) : (0 ≤ m)%Z → (0 <= scale10 m e)%Q.
Proof.
  intros Hm. unfold scale10. destruct (0 <=? e)%Z eqn:E; rewrite Qred_correct.
  - unfold Qle. simpl. apply Z.leb_le in E.
    pose proof (Z.pow_nonneg 10 e). nia.
  - unfold Qle. simpl. lia.
Qed.

(** A text that does not begin with a minus sign reads as a number that is
    not negative. *)
Lemma float_of_string_nonneg (s : string) (x : Q) :
  fst (sign (strip s)) = false → float_of_string s = Some x → (0 <= x)%Q.
Proof.
  unfold float_of_string. destruct (sign (strip s)) as [neg s1]. simpl. intros ->.
  pose proof (digitpart_nonneg s1) as Hip.
  destruct (digitpart s1) as [[ip ni] r1]. simpl in Hip.
  assert (∃ fp nf r2, match r1 with
                      | String "."%char r => digitpart r
                      | _ => (0%Z, 0%nat, r1)
                      end = (fp, nf, r2) ∧ (0 ≤ fp)%Z) as (fp & nf & r2 & -> & Hfp).
  { destruct r1 as [|c r]; [by exists 0%Z, 0%nat, EmptyString|].
    destruct (Ascii.eqb_spec c "."%char) as [->|Hc].
    - pose proof (digitpart_nonneg r) as H. destruct (digitpart r) as [[fp nf] r2].
      by exists fp, nf, r2.
    - exists 0%Z, 0%nat, (String c r). split; [|done].
      destruct c as [[] [] [] [] [] [] [] []]; done. }
  destruct (ni + nf =? 0)%nat; [done|].
  assert (0 ≤ ip * 10 ^ Z.of_nat nf + fp)%Z as Hm.
  { pose proof (Z.pow_nonneg 10 (Z.of_nat nf)). nia. }
  destruct r2 as [|c r3]; [intros [= <-]; by apply scale10_nonneg|].
  destruct (_ || _); [|done]. destruct (sign r3) as [eneg r4].
  destruct (digitpart r4) as [[ev [|k]] [|]]; try done.
  intros [= <-]. by apply scale10_nonneg.
Qed.

Lemma sign_unsigned (s : string) : all_in dg_dot s → fst (sign (strip s)) = false.
Proof.
  intros H%all_in_strip. destruct (strip s) as [|c r]; [done|].
  apply Forall_cons in H as [Hc _]. unfold sign.
  destruct c as [[] [] [] [] [] [] [] []]; try done; vm_compute in Hc; discriminate Hc.
Qed.

End ReFacts.

(** ** The labelled values of a report *)

Module LabelFacts.
Import Py Num Re ReSem PyFacts DictFacts ReFacts SitesParser BoundFacts.

(** The group of each of the five patterns is a run of digits and points. *)
Lemma omega_patterns_group (pattern : re) (content g : string) :
  pattern ∈ omega_patterns →
  group1 (search true pattern content) = Some g →
  g ≠ EmptyString ∧ all_in dg_dot g.
Proof.
  intros Hp Hg.
  destruct (search true pattern content) as [caps|] eqn:E; [|done].
  apply search_sound in E as (pre & m & post & -> & Hm).
  unfold omega_patterns in Hp. rewrite !elem_of_cons, elem_of_nil in Hp.
  destruct Hp as [->|[->|[->|[->|[->|[]]]]]]; den_parts Hm;
    (simpl in Hg; injection Hg as <-; split; assumption).
Qed.

(** X14.  The extractor of the labelled values never returns a negative
    ratio: what it returns lies within 0..100. *)
Theorem extract_omega_values_from_model_params_range (content : string) (x : Q) :
  extract_omega_values_from_model_params content = Some x → (0 <= x)%Q ∧ (x <= 100)%Q.
Proof.
  intros H. split; [|by apply in_bounds_iff, (first_omega_bounds omega_patterns content)].
  revert H. unfold extract_omega_values_from_model_params.
  assert (∀ patterns, patterns ⊆ omega_patterns →
            first_omega patterns content = Some x → (0 <= x)%Q) as Hall;
    [|by apply Hall].
  intros patterns. induction patterns as [|pattern rest IH]; intros Hsub; [done|].
  assert (rest ⊆ omega_patterns) as Hrest by (intros p Hp; apply Hsub; by right).
  simpl. destruct (group1 (search true pattern content)) as [g|] eqn:Eg; [|by apply IH].
  destruct (omega_patterns_group pattern content g) as [_ Hg]; [apply Hsub; by left|done|].
  destruct (float_of_string g) as [omega|] eqn:Ef; [|done].
  destruct (in_bounds omega); [|by apply IH]. intros [= <-].
  eapply float_of_string_nonneg; [|exact Ef]. by apply sign_unsigned.
Qed.

(** The theorem at a report that labels its ratio. *)
Lemma extract_omega_values_from_model_params_range_witness :
  (0 <= 2469 # 20000)%Q ∧ (2469 # 20000 <= 100)%Q.
Proof.
  apply (extract_omega_values_from_model_params_range "omega (dN/dS) =  0.12345").
  vm_compute. reflexivity.
Defined.

End LabelFacts.

(** ** The configuration asked on the console *)

Module SetupFacts.
Import Py Num Backend Setup.

Lemma descriptions_listed : descriptions LISTED = KeyError "BranchSite_A_null".
Proof. vm_compute. reflexivity. Qed.

Lemma ask_input_folder_cases (fs : file_system) (inputs : list string) :
  ask_input_folder fs inputs = EOFError
  ∨ ∃ input_folder fas_files rest,
      ask_input_folder fs inputs = Returned (input_folder, fas_files, rest).
Proof.
  induction inputs as [|line rest IH]; [by left|]. simpl.
  destruct (is_dir fs (unquote line)); [|exact IH].
  destruct (glob_fas fs (unquote line)) as [|f fas]; [exact IH|].
  right. by eexists _, _, _.
Qed.

Lemma ask_tree_file_cases (fs : file_system) (inputs : list string) :
  ask_tree_file fs inputs = EOFError
  ∨ ∃ tree_file rest, ask_tree_file fs inputs = Returned (tree_file, rest).
Proof.
  induction inputs as [|line rest IH]; [by left|]. simpl.
  destruct (is_file fs (unquote line)); [|exact IH].
  right. by eexists _, _.
Qed.

(** X15.  The console setup never returns a configuration.  Whatever is
    typed and whatever the file system holds, it ends with the end of the
    input, with the failure to create the output folder, or with the
    [KeyError] of the model BranchSite_A_null, whose description the
    listing of the models asks from a catalog that does not have it; the
    last is what happens as soon as a folder with sequence files, a tree
    file and an output folder that can be created have been entered. *)
Theorem interactive_setup_never_returns (fs : file_system) :
  (∀ inputs,
     interactive_setup fs inputs = EOFError
     ∨ interactive_setup fs inputs = OSError
     ∨ interactive_setup fs inputs = KeyError "BranchSite_A_null")
  ∧ (∀ folder tree out rest,
       is_dir fs (unquote folder) = true →
       glob_fas fs (unquote folder) ≠ [] →
       is_file fs (unquote tree) = true →
       mkdir fs (unquote out) = true →
       interactive_setup fs (folder :: tree :: out :: rest) = KeyError "BranchSite_A_null").
Proof.
  split.
  - intros inputs. unfold interactive_setup.
    destruct (ask_input_folder_cases fs inputs) as [->|(d & fas & rest & ->)]; [by left|].
    cbn [mbind outcome_bind bind].
    destruct (ask_tree_file_cases fs rest) as [->|(t & rest' & ->)]; [by left|].
    cbn [mbind outcome_bind bind].
    destruct rest' as [|line rest'']; [by left|]. cbn [input mbind outcome_bind bind].
    destruct (mkdir fs (unquote line)); cbn [negb]; [|by right; left].
    rewrite descriptions_listed. by right; right.
  - intros folder tree out rest Hd Hf Ht Hm. unfold interactive_setup.
    cbn [ask_input_folder]. rewrite Hd.
    destruct (glob_fas fs (unquote folder)) as [|f fas]; [done|].
    cbn [mbind outcome_bind bind ask_tree_file]. rewrite Ht.
    cbn [mbind outcome_bind bind input]. rewrite Hm. cbn [negb].
    by rewrite descriptions_listed.
Qed.

(** The theorem at a file system that has the folder, the tree and lets
    the output folder be created, with every question answered. *)
Lemma interactive_setup_never_returns_witness :
  interactive_setup
    (mk_fs (λ p, String.eqb p "genes") (λ _, ["a.fas"]) (λ p, String.eqb p "tree.nwk")
       (λ _, true))
    ["  genes "; "tree.nwk"; "out"; "all"; ""; "y"; "y"]
  = KeyError "BranchSite_A_null".
Proof.
  apply (proj2 (interactive_setup_never_returns _)); done.
Defined.

End SetupFacts.

(** ** Codons of the sites *)

Module CodonFacts.
Import Py PyFacts DictFacts TableFacts Codons.
Local Open Scope Z_scope.

Lemma substring_length (s : string) (a n : nat) :
  (a + n ≤ String.length s)%nat → String.length (String.substring a n s) = n.
Proof.
  revert a n. induction s as [|c s IH]; intros [|a] [|n]; simpl; try done; try lia.
  - intros H. f_equal. apply (IH 0%nat). lia.
  - intros H. apply (IH a 0%nat). lia.
  - intros H. apply (IH a (S n)). lia.
Qed.

Lemma substring_split (s : string) (a n m : nat) :
  String.substring a (n + m) s = String.substring a n s +:+ String.substring (a + n) m s.
Proof.
  revert a n. induction s as [|c s IH]; intros a n.
  - destruct a, n, m; done.
  - destruct a as [|a]; simpl.
    + destruct n as [|n]; simpl; [by rewrite app_nil_l|].
      rewrite app_cons. f_equal. apply (IH 0%nat).
    + apply IH.
Qed.

(** The slice of a codon that lies within the sequence. *)
Lemma py_slice_codon (ref_seq : string) (pos : Z) :
  1 ≤ pos → pos * 3 ≤ Z.of_nat (String.length ref_seq) →
  py_slice ref_seq ((pos - 1) * 3) ((pos - 1) * 3 + 3)
  = String.substring (3 * (Z.to_nat pos - 1)) 3 ref_seq.
Proof.
  intros H1 H2. unfold py_slice, clamp.
  destruct ((pos - 1) * 3 <? 0) eqn:E1; [apply Z.ltb_lt in E1; lia|].
  destruct ((pos - 1) * 3 + 3 <? 0) eqn:E2; [apply Z.ltb_lt in E2; lia|].
  rewrite !Z.min_l by lia.
  destruct ((pos - 1) * 3 <? (pos - 1) * 3 + 3) eqn:E3; [|apply Z.ltb_ge in E3; lia].
  f_equal; lia.
Qed.

Lemma add_codon_lookup (ref_seq : string) (positions : list Z) (codons : gmap Z string)
    (pos : Z) :
  foldl (add_codon ref_seq) codons positions !! pos
  = if bool_decide (pos ∈ positions ∧ (pos - 1) * 3 + 3 ≤ Z.of_nat (String.length ref_seq))
    then Some (py_slice ref_seq ((pos - 1) * 3) ((pos - 1) * 3 + 3))
    else codons !! pos.
Proof.
  revert codons. induction positions as [|p positions IH]; intros codons.
  - cbn [foldl]. rewrite bool_decide_eq_false_2; [done|]. by intros [?%elem_of_nil _].
  - cbn [foldl]. rewrite IH. clear IH.
    case_bool_decide as H; case_bool_decide as H'.
    + done.
    + exfalso. apply H'. destruct H. split; [by right | done].
    + unfold add_codon. destruct H' as [[->|Hin]%elem_of_cons Hle]; [|by destruct H].
      apply Z.leb_le in Hle. by rewrite Hle, lookup_insert_eq.
    + unfold add_codon.
      destruct ((p - 1) * 3 + 3 <=? Z.of_nat (String.length ref_seq)) eqn:E; [|done].
      apply Z.leb_le in E. apply lookup_insert_ne. intros ->. apply H'.
      split; [by left | done].
Qed.

(** X16.  With the first sequence of the file as reference, the codon
    stored for a position is the slice of three letters that ends at three
    times the position: a position from 1 up to a third of the length gets
    its three letters; a position beyond the sequence gets no entry; and a
    position that is not positive is not rejected: position 0 gets the
    empty text. *)
Theorem get_codons_for_sites_lookup (ref_seq : string) (others : list string)
    (positions : list Z) :
  ∃ codons,
    get_codons_for_sites (ref_seq :: others) positions 0 = Some codons
    ∧ (∀ pos, pos ∈ positions → 1 ≤ pos → pos * 3 ≤ Z.of_nat (String.length ref_seq) →
         codons !! pos = Some (String.substring (3 * (Z.to_nat pos - 1)) 3 ref_seq)
         ∧ String.length (String.substring (3 * (Z.to_nat pos - 1)) 3 ref_seq) = 3%nat)
    ∧ (∀ pos, Z.of_nat (String.length ref_seq) < pos * 3 → codons !! pos = None)
    ∧ (∀ pos, pos ∉ positions → codons !! pos = None)
    ∧ (0 ∈ positions → codons !! 0 = Some EmptyString).
Proof.
  exists (foldl (add_codon ref_seq) ∅ positions). split; [done|]. 
  split; [|split; [|split]].
  - intros pos Hin H1 H2. split.
    + rewrite add_codon_lookup, bool_decide_eq_true_2 by (split; [done | lia]).
      by rewrite py_slice_codon.
    + apply substring_length. lia.
  - intros pos H. rewrite add_codon_lookup, bool_decide_eq_false_2; [done|].
    intros [_ ?]. lia.
  - intros pos H. rewrite add_codon_lookup, bool_decide_eq_false_2; [done|].
    by intros [? _].
  - intros H. rewrite add_codon_lookup, bool_decide_eq_true_2 by (split; [done | lia]).
    unfold py_slice, clamp.
    change ((0 - 1) * 3 + 3) with 0. change ((0 - 1) * 3) with (-3).
    change (0 <? 0) with false. change (-3 <? 0) with true. cbn iota.
    rewrite Z.min_l by lia.
    destruct (Z.max 0 (-3 + Z.of_nat (String.length ref_seq)) <? 0) eqn:E; [|done].
    apply Z.ltb_lt in E. lia.
Qed.

(** The theorem at a sequence of three codons. *)
Lemma get_codons_for_sites_lookup_witness :
  ∃ codons,
    get_codons_for_sites ["ATGGCCTAA"; "ATGGCATAA"] [1; 3; 4; 0] 0 = Some codons
    ∧ codons !! 3 = Some "TAA" ∧ codons !! 4 = None ∧ codons !! 2 = None
    ∧ codons !! 0 = Some EmptyString.
Proof.
  destruct (get_codons_for_sites_lookup "ATGGCCTAA" ["ATGGCATAA"] [1; 3; 4; 0])
    as (codons & Hc & Hin & Hout & Hno & H0).
  exists codons. split; [exact Hc|]. split; [|split; [|split]].
  - apply (Hin 3); [rewrite !elem_of_cons; tauto | lia | simpl; lia].
  - apply Hout. simpl. lia.
  - apply Hno. rewrite !elem_of_cons, elem_of_nil. lia.
  - apply H0. rewrite !elem_of_cons. tauto.
Defined.

Lemma concat_codons (ref_seq : string) (a n : nat) :
  String.concat EmptyString (map (λ i, String.substring (3 * i) 3 ref_seq) (seq a n))
  = String.substring (3 * a) (3 * n) ref_seq.
Proof.
  revert a. induction n as [|n IH]; intros a.
  - change (3 * 0)%nat with 0%nat. cbn [seq List.map String.concat].
    generalize (3 * a)%nat as k. intros k. revert k.
    induction ref_seq as [|c r IHr]; intros [|k]; simpl; auto.
  - cbn [seq List.map]. rewrite concat_cons, IH.
    replace (3 * S n)%nat with (3 + 3 * n)%nat by lia.
    rewrite substring_split. do 2 f_equal. lia.
Qed.

(** X17.  The column of codons added to a table of sites whose positions
    are all positive: a position within the reference sequence gets its
    three letters, a position beyond it gets the text N/A.  For the
    positions 1..n of a sequence of 3n letters or more, the codons of the
    column, put end to end, are the first 3n letters of the sequence. *)
Theorem enrich_sites_with_codons_column (ref_seq : string) (others : list string) :
  (∀ positions,
     Forall (λ pos, 1 ≤ pos) positions →
     enrich_sites_with_codons positions (Some (ref_seq :: others))
     = map (λ pos, if pos * 3 <=? Z.of_nat (String.length ref_seq)
                   then String.substring (3 * (Z.to_nat pos - 1)) 3 ref_seq
                   else "N/A"%string) positions)
  ∧ (∀ n : nat,
       (3 * n ≤ String.length ref_seq)%nat →
       String.concat EmptyString
         (enrich_sites_with_codons (map Z.of_nat (seq 1 n)) (Some (ref_seq :: others)))
       = String.substring 0 (3 * n) ref_seq).
Proof.
  assert (∀ positions,
     Forall (λ pos, 1 ≤ pos) positions →
     enrich_sites_with_codons positions (Some (ref_seq :: others))
     = map (λ pos, if pos * 3 <=? Z.of_nat (String.length ref_seq)
                   then String.substring (3 * (Z.to_nat pos - 1)) 3 ref_seq
                   else "N/A"%string) positions) as Hcol.
  { intros positions Hpos. unfold enrich_sites_with_codons.
    destruct positions as [|p0 positions]; [done|].
    cbn [get_codons_for_sites py_index]. 
    change (py_index (ref_seq :: others) 0) with (Some ref_seq).
    apply map_ext_in. intros pos Hin%list_elem_of_In.
    pose proof (proj1 (Forall_forall _ _) Hpos pos Hin) as H1.
    rewrite add_codon_lookup. case_bool_decide as H.
    - destruct H as [_ H]. simpl in H1.
      assert ((pos * 3 <=? Z.of_nat (String.length ref_seq)) = true) as ->
        by (apply Z.leb_le; lia).
      simpl. apply py_slice_codon; lia.
    - assert ((pos * 3 <=? Z.of_nat (String.length ref_seq)) = false) as ->;
        [|by rewrite lookup_empty].
      apply Z.leb_gt.
      destruct (Z.le_gt_cases (pos * 3) (Z.of_nat (String.length ref_seq))); [|lia].
      exfalso. apply H. split; [done | lia]. }
  split; [exact Hcol|].
  intros n Hn. rewrite Hcol.
  - transitivity (String.concat EmptyString
                    (map (λ i, String.substring (3 * i) 3 ref_seq) (seq 0 n)));
      [|apply (concat_codons ref_seq 0 n)].
    rewrite <- seq_shift, !List.map_map. f_equal.
    apply map_ext_in. intros i Hi%List.in_seq.
    assert ((Z.of_nat (S i) * 3 <=? Z.of_nat (String.length ref_seq)) = true) as ->
      by (apply Z.leb_le; lia).
    f_equal. lia.
  - apply Forall_forall. intros pos (i & -> & Hi%elem_of_seq)%list_elem_of_fmap. lia.
Qed.

(** The theorem at a sequence of three codons and a position beyond it. *)
Lemma enrich_sites_with_codons_column_witness :
  enrich_sites_with_codons [2; 4] (Some ["ATGGCCTAA"]) = ["GCC"; "N/A"]
  ∧ String.concat EmptyString
      (enrich_sites_with_codons (map Z.of_nat (seq 1 3)) (Some ["ATGGCCTAA"]))
    = "ATGGCCTAA".
Proof.
  split.
  - apply (proj1 (enrich_sites_with_codons_column "ATGGCCTAA" []) [2; 4]).
    repeat constructor; lia.
  - apply (proj2 (enrich_sites_with_codons_column "ATGGCCTAA" []) 3%nat). simpl. lia.
Defined.

End CodonFacts.

(** ** The names of the catalog and the completion of a selection *)

Module GuiFacts.
Import Py Num PyFacts Backend AutoCompleteFacts.

Lemma catalog_names (m : string) :
  is_Some (MODEL_CONFIGS !! m) →
  m ∈ ["M0"; "M1a"; "M2a"; "M7"; "M8"; "Branch"; "Branch-site"; "Branch-site_null"].
Proof.
  intros [p Hp]. revert Hp. unfold MODEL_CONFIGS.
  cbn [list_to_map foldr uncurry fst snd].
  rewrite !lookup_insert_Some, lookup_empty, !elem_of_cons.
  intuition (subst; auto; discriminate).
Qed.

Section FrontEnd.

Variable set_iter : list string → list string.
Hypothesis set_iter_perm : ∀ l, set_iter l ≡ₚ remove_dups l.

Lemma completion_in_catalog (checked : list string) (b : bool) (m : string) :
  (∀ m, m ∈ checked → is_Some (MODEL_CONFIGS !! m)) →
  m ∈ auto_complete_null_models set_iter checked b →
  m ∈ ["M0"; "M1a"; "M2a"; "M7"; "M8"; "Branch"; "Branch-site"; "Branch-site_null"].
Proof.
  intros Hcat [Hm|(a & _ & Ha)]%(elem_of_expand set_iter set_iter_perm).
  - by apply catalog_names, Hcat.
  - apply null_pairs_inv in Ha. rewrite !elem_of_cons. intuition.
Qed.

Lemma completion_twice (checked : list string) (b : bool) :
  auto_complete_null_models set_iter (auto_complete_null_models set_iter checked b) true
  = auto_complete_null_models set_iter checked b.
Proof.
  apply (expand_closed set_iter set_iter_perm); [apply (NoDup_expand set_iter set_iter_perm)|].
  intros a n Ha Hn. apply (elem_of_expand set_iter set_iter_perm).
  apply (elem_of_expand set_iter set_iter_perm) in Ha as [Ha|(a' & _ & Ha')].
  - right. by exists a.
  - by rewrite (null_not_alternative a' a Ha') in Hn.
Qed.

End FrontEnd.

End GuiFacts.

(** ** The sites under selection *)

Module SitesFacts.
Import Py Num Re ReSem PyFacts DictFacts ReFacts Sites.

(** What a literal matches is the literal, up to letter case when case is
    ignored. *)
Lemma den_lit (ic : bool) (w m : string) (gs : list string) :
  den ic (lit w) m gs → (if ic then lower m = lower w else m = w) ∧ gs = [].
Proof.
  revert m gs. induction w as [|c w IH]; intros m gs; cbn [lit den].
  - intros [-> ->]. by destruct ic.
  - intros (m1 & m2 & g1 & g2 & -> & -> & (d & -> & Hd & ->) & [H ->]%IH).
    split; [|done]. rewrite app_cons, app_nil_l. unfold chr_eq in Hd.
    destruct ic; simpl; apply Ascii.eqb_eq in Hd; congruence.
Qed.

Lemma max0_bounds (x m : Q) : (0 <= m)%Q → (x <= m)%Q → (0 <= max0 x)%Q ∧ (max0 x <= m)%Q.
Proof.
  intros Hm Hx. unfold max0, Qltb.
  destruct (Qle_bool x 0) eqn:E; simpl; [split; [lra|done]|].
  split; [|done]. destruct (Qlt_le_dec 0 x) as [H|H]; [lra|].
  apply Qle_bool_iff in H. congruence.
Qed.

Lemma int_of_digits_nonneg (s : string) (z : Z) : int_of_digits s = Some z → (0 ≤ z)%Z.
Proof.
  unfold int_of_digits. pose proof (digitpart_nonneg s) as H.
  destruct (digitpart s) as [[v [|n]] [|]]; try done.
  destruct (contains _ _); [done|]. by intros [= <-].
Qed.

Lemma site_of_groups_inv (g1 g2 g3 g4 g5 g6 : string) (s : site) :
  site_of_groups [g1; g2; g3; g4; g5; g6] = Some s →
  ∃ pos pr mean se,
    int_of_digits g1 = Some pos ∧ float_of_string g3 = Some pr
    ∧ float_of_string g5 = Some mean ∧ float_of_string g6 = Some se
    ∧ s = {| position := pos; amino_acid := g2; pr_w_gt_1 := pr; post_mean := mean;
             post_se := se; omega_lower := max0 (Qred (mean - se));
             omega_upper := Qred (mean + se); significance := g4;
             is_significant_95 := Qleb (95 # 100) pr;
             is_significant_99 := Qleb (99 # 100) pr |}.
Proof.
  cbn [site_of_groups].
  destruct (int_of_digits g1) as [pos|]; [|done].
  destruct (float_of_string g3) as [pr|]; [|done].
  destruct (float_of_string g5) as [mean|]; [|done].
  destruct (float_of_string g6) as [se|]; [|done].
  intros [= <-]. by exists pos, pr, mean, se.
Qed.

(** The row made from the groups of a line that matched. *)
Lemma site_of_groups_row (line : string) (groups : list string) (s : site) :
  search false site_pattern line = Some groups →
  site_of_groups groups = Some s →
  (0 ≤ position s)%Z
  ∧ (∃ c, amino_acid s = String c EmptyString ∧ isupper c = true)
  ∧ all_in star (significance s)
  ∧ (0 <= pr_w_gt_1 s)%Q ∧ (0 <= post_se s)%Q
  ∧ (0 <= omega_lower s)%Q ∧ (omega_lower s <= post_mean s)%Q
  ∧ (post_mean s <= omega_upper s)%Q.
Proof.
  intros (pre & m & post & -> & Hm)%search_sound. unfold site_pattern in Hm.
  den_parts Hm.
  intros (pos & pr & mean & se & Ep & E3 & E5 & E6 & ->)%site_of_groups_inv.
  cbn [position amino_acid significance pr_w_gt_1 post_se omega_lower post_mean omega_upper
       is_significant_95 is_significant_99].
  apply int_of_digits_nonneg in Ep.
  apply float_of_string_nonneg in E3; [|by apply sign_unsigned].
  apply float_of_string_nonneg in E5; [|by apply sign_unsigned].
  apply float_of_string_nonneg in E6; [|by apply sign_unsigned].
  destruct (max0_bounds (Qred (mean - se)) mean) as [Hlo Hhi];
    [done|rewrite Qred_correct; lra|].
  pose proof (Qred_correct (mean + se)) as Hr.
  repeat split; try done; [by eexists|lra].
Qed.

Lemma sites_of_lines_rows (P : site → Prop) (lines : list string) (sites : list site) :
  (∀ line groups s, search false site_pattern line = Some groups →
                    site_of_groups groups = Some s → P s) →
  sites_of_lines lines = Some sites → Forall P sites.
Proof.
  intros HP. revert sites. induction lines as [|line rest IH]; intros sites; cbn [sites_of_lines].
  - by intros [= <-].
  - destruct (String.eqb _ _); [apply IH|].
    destruct (search false site_pattern line) as [groups|] eqn:E; [|apply IH].
    destruct (site_of_groups groups) as [s|] eqn:Es; [|done].
    destruct (sites_of_lines rest) as [sites'|]; [|done].
    intros [= <-]. constructor; [by eapply HP|by apply IH].
Qed.

Lemma Qleb_trans_const (pr : Q) : Qleb (99 # 100) pr = true → Qleb (95 # 100) pr = true.
Proof.
  unfold Qleb. rewrite !Qle_bool_iff. intros H. lra.
Qed.

(** X19.  Every row the parser of the sites returns is well formed: the
    position is no negative number, the amino acid is one capital letter,
    the marks are stars only, the probability and the standard error are
    not negative, the lower bound lies between 0 and the mean, the upper
    bound is the mean plus the standard error, and a site flagged at 99% is
    flagged at 95% too, the flag at 95% saying that the probability is 0.95
    at least. *)
Theorem parse_sites_from_file_rows (content method : string) (sites : list site) :
  parse_sites_from_file content method = Some sites →
  Forall (λ s, (0 ≤ position s)%Z
               ∧ (∃ c, amino_acid s = String c EmptyString ∧ isupper c = true)
               ∧ all_in star (significance s)
               ∧ (0 <= pr_w_gt_1 s)%Q ∧ (0 <= post_se s)%Q
               ∧ (0 <= omega_lower s)%Q ∧ (omega_lower s <= post_mean s)%Q
               ∧ (omega_upper s == post_mean s + post_se s)%Q
               ∧ (is_significant_95 s = true ↔ (95 # 100 <= pr_w_gt_1 s)%Q)
               ∧ (is_significant_99 s = true → is_significant_95 s = true)) sites.
Proof.
  unfold parse_sites_from_file.
  destruct (group1 _) as [sites_text|]; [|by intros [= <-]].
  apply sites_of_lines_rows. intros line groups s Hs Hg.
  destruct (site_of_groups_row line groups s Hs Hg) as (K1 & K2 & K3 & K4 & K5 & K6 & K7 & _).
  repeat (split; [assumption|]).
  destruct groups as [|g1 [|g2 [|g3 [|g4 [|g5 [|g6 [|]]]]]]]; try done.
  apply site_of_groups_inv in Hg as (pos & pr & mean & se & _ & _ & _ & _ & ->).
  cbn [position amino_acid significance pr_w_gt_1 post_se omega_lower post_mean omega_upper
       is_significant_95 is_significant_99].
  split; [apply Qred_correct|]. split; [apply Qle_bool_iff|apply Qleb_trans_const].
Qed.

(** The theorem at a report with two sites. *)
Lemma parse_sites_from_file_rows_witness :
  Forall (λ s, (0 ≤ position s)%Z
               ∧ (∃ c, amino_acid s = String c EmptyString ∧ isupper c = true)
               ∧ all_in star (significance s)
               ∧ (0 <= pr_w_gt_1 s)%Q ∧ (0 <= post_se s)%Q
               ∧ (0 <= omega_lower s)%Q ∧ (omega_lower s <= post_mean s)%Q
               ∧ (omega_upper s == post_mean s + post_se s)%Q
               ∧ (is_significant_95 s = true ↔ (95 # 100 <= pr_w_gt_1 s)%Q)
               ∧ (is_significant_99 s = true → is_significant_95 s = true))
    [ mk_site 159 "R" (99 # 100) (1122 # 125) (1573 # 1000) (7403 # 1000) (10549 # 1000)
        "**" true true;
      mk_site 233 "P" (97 # 100) (1 # 2) (3 # 4) 0 (5 # 4) "*" true false ].
Proof.
  apply (parse_sites_from_file_rows
           ("Bayes Empirical Bayes (BEB) analysis" +:+ String LF
            ("Positively selected sites (*: P>95%; **: P>99%)" +:+ String LF
            ("(amino acids refer to 1st sequence: a)" +:+ String LF
            (String LF
            ("            Pr(w>1)     post mean +- SE for w" +:+ String LF
            (String LF
            ("   159 R      0.990**       8.976 +- 1.573" +:+ String LF
            ("   233 P      0.970*        0.500 +- 0.750" +:+ String LF
            (String LF (String LF "Time used:  0:10"))))))))))
           "BEB").
  vm_compute. reflexivity.
Defined.

(** What a sequence of patterns matches holds a match of each of them. *)
Lemma den_seq_elem (ic : bool) (rs : list re) (r : re) (m : string) (gs : list string) :
  den ic (seq rs) m gs → r ∈ rs →
  ∃ a w b g, m = a +:+ w +:+ b ∧ den ic r w g.
Proof.
  revert m gs. induction rs as [|r1 rs IH]; intros m gs; cbn [seq den].
  - intros _ []%elem_of_nil.
  - intros (m1 & m2 & g1 & g2 & -> & -> & H1 & H2) [->|Hr]%elem_of_cons.
    + by exists EmptyString, m1, m2, g1.
    + destruct (IH _ _ H2 Hr) as (a & w & b & g & -> & Hw).
      exists (m1 +:+ a), w, b, g. by rewrite app_assoc.
Qed.

Lemma section_title_needed (pattern : re) (content : string) (caps : list string) :
  pattern = beb_pattern ∨ pattern = neb_pattern →
  search true pattern content = Some caps →
  contains "positively selected sites" (lower content) = true.
Proof.
  intros Hp (pre & m & post & -> & Hm)%search_sound.
  assert (∃ a w b g, m = a +:+ w +:+ b ∧ den true (lit "Positively selected sites") w g)
    as (a & w & b & g & -> & [Hw _]%den_lit).
  { destruct Hp as [->| ->]; eapply den_seq_elem; try exact Hm;
      cbn [List.app table_head]; rewrite !elem_of_cons; tauto. }
  apply contains_spec. exists (lower pre +:+ lower a), (lower b +:+ lower post).
  rewrite !lower_app, Hw, !app_assoc. reflexivity.
Qed.

(** X20.  A report that does not hold the words [positively selected
    sites], in any letter case, gives an empty table of sites and no
    error, whichever analysis is asked for. *)
Theorem parse_sites_from_file_without_section (content method : string) :
  contains "positively selected sites" (lower content) = false →
  parse_sites_from_file content method = Some [].
Proof.
  intros H. unfold parse_sites_from_file.
  destruct (search true _ content) as [caps|] eqn:E; [|done].
  apply section_title_needed in E; [congruence|].
  destruct (String.eqb method "BEB"); auto.
Qed.

(** The theorem at a report of the model M0. *)
Lemma parse_sites_from_file_without_section_witness :
  parse_sites_from_file "omega (dN/dS) =  0.12345" "NEB" = Some [].
Proof.
  apply parse_sites_from_file_without_section. vm_compute. reflexivity.
Defined.

End SitesFacts.

(** ** The control file of a run *)

Module RunFacts.
Import Py Num PyFacts Backend CtlFacts BatchFacts GuiFacts.

(** The control file made from a profile of the catalog. *)
Lemma generate_ctl_content_profile (seqfile treefile outfile description : string)
    (model NSsites fix_omega : Z) (omega1 : Q) (CodonFreq : Z) (omega : Q) (cleandata : Z)
    (model_name : string) :
  generate_ctl_content seqfile treefile outfile
    (profile description model NSsites fix_omega omega1 CodonFreq) omega cleandata
    (Some model_name)
  = Some (ctl_head seqfile treefile outfile (str_of_Z cleandata) (str_of_Z model)
            (str_of_Z NSsites) (str_of_Z CodonFreq)
          +:+ ctl_tail (if is_neutral (Some model_name) then "1" else str_of_Z fix_omega)
                (if is_neutral (Some model_name) then "1.0" else repr_float omega)).
Proof.
  unfold generate_ctl_content, profile. cbn [list_to_map foldr uncurry fst snd].
  repeat (rewrite ?lookup_insert_eq; rewrite ?lookup_insert_ne by done).
  rewrite <- ctl_template_tail. by destruct (is_neutral (Some model_name)).
Qed.

(** Four keys of the profile are read, and nothing else. *)
Lemma generate_ctl_content_ext (seqfile treefile outfile : string)
    (c1 c2 : gmap string pyval) (omega : Q) (cleandata : Z) (model_name : option string) :
  (∀ k, k ∈ ["fix_omega"; "model"; "NSsites"; "CodonFreq"] → c1 !! k = c2 !! k) →
  generate_ctl_content seqfile treefile outfile c1 omega cleandata model_name
  = generate_ctl_content seqfile treefile outfile c2 omega cleandata model_name.
Proof.
  intros H. unfold generate_ctl_content.
  rewrite (H "fix_omega"), (H "model"), (H "NSsites"), (H "CodonFreq");
    [done|rewrite !elem_of_cons; tauto..].
Qed.

(** X21.  The control file of a run of a model of the catalog, when the
    caller gives an initial ratio and no profile or control file of its own
    for the model: it names the sequence file, the tree and the output file
    of the run, and it ends with the ratio fixed to 1.0 for M0 and M1a, with
    the ratio fixed to the caller's value for Branch-site_null, and with a
    free ratio that starts at the caller's value for every other model. *)
Theorem ctl_content_catalog (cfg : config) (fas : fas_file) (model_name : string)
    (omega0 : Q) :
  is_Some (MODEL_CONFIGS !! model_name) →
  custom_model_params cfg !! model_name = None →
  config_omega cfg = Some (VFloat omega0) →
  ∃ model NSsites CodonFreq,
    ctl_content cfg fas model_name
    = Some (ctl_head (abs_path fas) (tree_filename cfg model_name)
              (output_filename (stem fas) model_name) (str_of_Z (cleandata cfg))
              model NSsites CodonFreq
            +:+ ctl_tail
                  (if mem model_name ["M0"; "M1a"; "Branch-site_null"] then "1" else "0")
                  (if mem model_name ["M0"; "M1a"] then "1.0" else repr_float omega0)).
Proof.
  intros Hcat Hcustom Homega. unfold ctl_content, resolve_model_config.
  rewrite Hcustom, Homega. cbn [initial_omega py_float].
  apply catalog_names in Hcat. rewrite !elem_of_cons, elem_of_nil in Hcat.
  unfold MODEL_CONFIGS. cbn [list_to_map foldr uncurry fst snd].
  destruct Hcat as [->|[->|[->|[->|[->|[->|[->|[->|[]]]]]]]]];
    repeat (rewrite ?lookup_insert_eq; rewrite ?lookup_insert_ne by done);
    cbn [default from_option id];
    try (rewrite (generate_ctl_content_ext _ _ _ (<["display_name" := _]> _)
                    (profile "Branch-site model - ω varies across sites and branches"
                       2 2 0 (1 # 2) 7));
         [|intros k; rewrite !elem_of_cons, elem_of_nil;
           intros [->|[->|[->|[->|[]]]]]; by rewrite lookup_insert_ne]);
    rewrite generate_ctl_content_profile; do 3 eexists; reflexivity.
Qed.

(** The theorem at the null model of the branch-site test, started with the
    initial ratio 0.5: the ratio is fixed at 0.5. *)
Lemma ctl_content_catalog_witness :
  ∃ model NSsites CodonFreq,
    ctl_content (mk_config ["Branch-site"; "Branch-site_null"] ∅ (Some (VFloat (1 # 2))) 1
                   1600 true "tree.nwk" None None)
      (mk_fas "gene1" "/data/gene1.fas") "Branch-site_null"
    = Some (ctl_head "/data/gene1.fas" "tree.nwk" "gene1_Branch-site_null_results.txt" "1"
              model NSsites CodonFreq
            +:+ ctl_tail "1" "0.5").
Proof.
  apply (ctl_content_catalog
           (mk_config ["Branch-site"; "Branch-site_null"] ∅ (Some (VFloat (1 # 2))) 1
              1600 true "tree.nwk" None None)
           (mk_fas "gene1" "/data/gene1.fas") "Branch-site_null" (1 # 2)).
  - vm_compute. eexists. reflexivity.
  - reflexivity.
  - reflexivity.
Defined.

End RunFacts.

(** ** A ratio printed with a fixed number of decimals and read back *)

Module NumFacts.
Import Py Num PyFacts DictFacts ReSem ReFacts CodonFacts.
Local Open Scope Z_scope.

(** Digits in front are read one after the other. *)
Lemma scan_digits_digits (s : string) :
  all_in isdigit s →
  ∀ acc n t,
    scan_digits acc n (s +:+ t)
    = scan_digits (acc * 10 ^ Z.of_nat (String.length s) + fst (fst (scan_digits 0 0 s)))
        (n + String.length s) t.
Proof.
  induction s as [|c s IH]; intros Hs acc n t.
  - rewrite app_nil_l. cbn [String.length scan_digits fst]. f_equal; [lia|by rewrite Nat.add_0_r].
  - apply Forall_cons in Hs as [Hc Hs]. rewrite app_cons. cbn [scan_digits]. rewrite Hc.
    rewrite (IH Hs).
    replace (scan_digits (10 * 0 + digit_val c) 1 s)
      with (scan_digits (10 * 0 + digit_val c) 1 (s +:+ EmptyString))
      by (by rewrite app_nil_r).
    rewrite (IH Hs (10 * 0 + digit_val c) 1%nat).
    cbn [scan_digits fst String.length]. f_equal; [|lia].
    rewrite Nat2Z.inj_succ, Z.pow_succ_r by lia. ring.
Qed.

(** The value of a run of digits. *)
Lemma digits_value_cons (c : ascii) (s : string) :
  isdigit c = true → all_in isdigit s →
  fst (fst (scan_digits 0 0 (String c s)))
  = digit_val c * 10 ^ Z.of_nat (String.length s) + fst (fst (scan_digits 0 0 s)).
Proof.
  intros Hc Hs. cbn [scan_digits]. rewrite Hc.
  replace (scan_digits (10 * 0 + digit_val c) 1 s)
    with (scan_digits (10 * 0 + digit_val c) 1 (s +:+ EmptyString))
    by (by rewrite app_nil_r).
  rewrite (scan_digits_digits s Hs). cbn [scan_digits fst]. ring.
Qed.

Lemma digits_value_app (a b : string) :
  all_in isdigit a → all_in isdigit b →
  fst (fst (scan_digits 0 0 (a +:+ b)))
  = fst (fst (scan_digits 0 0 a)) * 10 ^ Z.of_nat (String.length b)
    + fst (fst (scan_digits 0 0 b)).
Proof.
  intros Ha Hb. rewrite (scan_digits_digits a Ha).
  replace (scan_digits (0 * 10 ^ Z.of_nat (String.length a) + (scan_digits 0 0 a).1.1)
             (0 + String.length a) b)
    with (scan_digits (0 * 10 ^ Z.of_nat (String.length a) + (scan_digits 0 0 a).1.1)
            (0 + String.length a) (b +:+ EmptyString))
    by (by rewrite app_nil_r).
  rewrite (scan_digits_digits b Hb). cbn [scan_digits fst]. ring.
Qed.

(** A digit part stops at the point and at the end. *)
Lemma digitpart_digits (s rest : string) :
  s ≠ EmptyString → all_in isdigit s →
  rest = EmptyString ∨ (∃ x, rest = String "."%char x) →
  digitpart (s +:+ rest) = (fst (fst (scan_digits 0 0 s)), String.length s, rest).
Proof.
  intros Hne Hs Hrest. destruct s as [|c s]; [done|]. pose proof Hs as Hs0.
  apply Forall_cons in Hs as [Hc Hs]. rewrite app_cons. cbn [digitpart]. rewrite Hc.
  rewrite (scan_digits_digits s Hs), (digits_value_cons c s Hc Hs).
  assert (∀ acc n, scan_digits acc n rest = (acc, n, rest)) as ->
    by (by destruct Hrest as [->|[x ->]]).
  reflexivity.
Qed.

Lemma zeros_digits (k : nat) :
  all_in isdigit (zeros k) ∧ fst (fst (scan_digits 0 0 (zeros k))) = 0
  ∧ String.length (zeros k) = k.
Proof.
  induction k as [|k (IH1 & IH2 & IH3)]; [split; [constructor|done]|].
  cbn [zeros]. split; [by constructor|].
  split; [|by rewrite <- IH3 at 2].
  rewrite digits_value_cons by done. rewrite IH2. change (digit_val "0") with 0. ring.
Qed.

(** The digits of a number written in base ten. *)
Lemma uint_digits (d : Decimal.uint) : all_in isdigit (NilEmpty.string_of_uint d).
Proof. induction d; cbn [NilEmpty.string_of_uint]; by constructor. Qed.

Lemma scan_uint_pos (d : Decimal.uint) (p : positive) (n : nat) :
  fst (fst (scan_digits (Z.pos p) n (NilEmpty.string_of_uint d)))
  = Z.pos (Pos.of_uint_acc d p).
Proof.
  revert p n. induction d as [|d IH|d IH|d IH|d IH|d IH|d IH|d IH|d IH|d IH|d IH];
    intros p n; [done|..];
    cbn [NilEmpty.string_of_uint scan_digits Pos.of_uint_acc];
    match goal with
    | |- context [isdigit ?c] => change (isdigit c) with true; cbn iota
    end;
    match goal with
    | |- context [scan_digits ?a _ _] =>
        match goal with
        | |- context [Pos.of_uint_acc d ?q] =>
            replace a with (Z.pos q) by (vm_compute digit_val; lia)
        end
    end; apply IH.
Qed.

Lemma scan_uint (d : Decimal.uint) (n : nat) :
  fst (fst (scan_digits 0 n (NilEmpty.string_of_uint d))) = Z.of_N (Pos.of_uint d).
Proof.
  revert n. induction d as [|d IH|d IH|d IH|d IH|d IH|d IH|d IH|d IH|d IH|d IH];
    intros n; [done|..];
    cbn [NilEmpty.string_of_uint scan_digits Pos.of_uint];
    match goal with
    | |- context [isdigit ?c] => change (isdigit c) with true; cbn iota
    end;
    [change (10 * 0 + digit_val "0") with 0; apply IH|..];
    match goal with
    | |- context [Pos.of_uint_acc d ?q] =>
        change (10 * 0 + digit_val _) with (Z.pos q)
    end; rewrite scan_uint_pos; reflexivity.
Qed.

Lemma str_of_Z_digits (z : Z) :
  0 ≤ z →
  str_of_Z z ≠ EmptyString ∧ all_in isdigit (str_of_Z z)
  ∧ fst (fst (scan_digits 0 0 (str_of_Z z))) = z.
Proof.
  intros Hz. unfold str_of_Z.
  destruct z as [|p|p]; [split; [done|split; [by repeat constructor|done]]| |lia].
  cbn [Z.to_int NilZero.string_of_int]. pose proof (Unsigned.to_uint_nonnil p) as Hnil.
  assert (NilZero.string_of_uint (Pos.to_uint p) = NilEmpty.string_of_uint (Pos.to_uint p))
    as -> by (by destruct (Pos.to_uint p)).
  split; [by destruct (Pos.to_uint p)|]. split; [apply uint_digits|].
  by rewrite scan_uint, DecimalPos.Unsigned.of_to.
Qed.

Lemma split_fraction_digits (prec : nat) (s0 ip fp : string) :
  all_in isdigit s0 → split_fraction prec s0 = (ip, fp) →
  ip ≠ EmptyString ∧ all_in isdigit ip ∧ all_in isdigit fp ∧ String.length fp = prec
  ∧ fst (fst (scan_digits 0 0 ip)) * 10 ^ Z.of_nat prec + fst (fst (scan_digits 0 0 fp))
    = fst (fst (scan_digits 0 0 s0)).
Proof.
  intros Hs0. unfold split_fraction.
  destruct (zeros_digits (S prec - String.length s0)) as (Hz1 & Hz2 & Hz3).
  set (s := zeros (S prec - String.length s0) +:+ s0).
  assert (all_in isdigit s) as Hs by (by apply all_in_app).
  assert (S prec ≤ String.length s)%nat as Hlen
    by (unfold s; rewrite length_append, Hz3; lia).
  set (k := (String.length s - prec)%nat).
  assert (s = String.substring 0 k s +:+ String.substring k prec s) as Hsplit.
  { pose proof (substring_split s 0 k prec) as Hsp. rewrite Nat.add_0_l in Hsp.
    rewrite <- Hsp.
    replace (k + prec)%nat with (String.length s) by (unfold k; lia).
    by rewrite substring_all. }
  intros [= <- <-].
  assert (String.length (String.substring 0 k s) = k) as Hk
    by (apply substring_length; unfold k; lia).
  assert (String.length (String.substring k prec s) = prec) as Hp
    by (apply substring_length; unfold k; lia).
  rewrite Hsplit in Hs. apply all_in_app in Hs as [Hi Hf].
  split; [intros H0; rewrite H0 in Hk; simpl in Hk; unfold k in Hk; lia|].
  repeat (split; [assumption|]).
  rewrite <- Hp at 1. rewrite <- digits_value_app, <- Hsplit by done.
  unfold s. rewrite digits_value_app, Hz2 by done. ring.
Qed.

Lemma digit_not_space (c : ascii) : isdigit c = true → isspace c = false.
Proof. destruct c as [[] [] [] [] [] [] [] []]; vm_compute; congruence. Qed.

Lemma sign_digit (c : ascii) (s : string) :
  isdigit c = true → sign (String c s) = (false, String c s).
Proof. destruct c as [[] [] [] [] [] [] [] []]; vm_compute; congruence. Qed.

Lemma rstrip_no_space (s : string) :
  all_in (λ c, negb (isspace c)) s → rstrip s = s.
Proof.
  induction s as [|c s IH]; [done|]. intros [Hc Hs]%Forall_cons. cbn [rstrip].
  rewrite (IH Hs). apply negb_true_iff in Hc. rewrite Hc. by destruct s.
Qed.

Lemma strip_no_space (s : string) :
  all_in (λ c, negb (isspace c)) s → strip s = s.
Proof.
  intros H. unfold strip.
  assert (lstrip s = s) as ->; [|by apply rstrip_no_space].
  destruct s as [|c s]; [done|]. apply Forall_cons in H as [Hc _].
  apply negb_true_iff in Hc. simpl. by rewrite Hc.
Qed.

Lemma digits_no_space (s : string) :
  all_in isdigit s → all_in (λ c, negb (isspace c)) s.
Proof.
  intros H. eapply Forall_impl; [exact H|]. intros c Hc. simpl.
  by rewrite (digit_not_space c Hc).
Qed.

(** [float] on a sign, digits, a point and digits. *)
Lemma float_of_decimal (neg : bool) (ip fp : string) :
  ip ≠ EmptyString → fp ≠ EmptyString → all_in isdigit ip → all_in isdigit fp →
  float_of_string ((if neg then "-" else EmptyString) +:+ ip +:+ "." +:+ fp)
  = Some (scale10
            (let m := fst (fst (scan_digits 0 0 ip)) * 10 ^ Z.of_nat (String.length fp)
                      + fst (fst (scan_digits 0 0 fp)) in
             if neg then - m else m)
            (- Z.of_nat (String.length fp))).
Proof.
  intros Hi Hf Hdi Hdf. unfold float_of_string.
  rewrite strip_no_space.
  2:{ apply all_in_app. split; [destruct neg; by repeat constructor|].
      apply all_in_app. split; [by apply digits_no_space|].
      apply all_in_app. split; [by repeat constructor|by apply digits_no_space]. }
  assert (sign ((if neg then "-" else EmptyString) +:+ ip +:+ "." +:+ fp)
          = (neg, ip +:+ "." +:+ fp)) as ->.
  { destruct neg; [done|]. rewrite app_nil_l. destruct ip as [|c ip]; [done|].
    apply Forall_cons in Hdi as [Hc _]. rewrite app_cons. by apply sign_digit. }
  change ("." +:+ fp) with (String "."%char fp).
  rewrite (digitpart_digits ip (String "."%char fp)) by eauto.
  rewrite <- (app_nil_r fp) at 1. rewrite (digitpart_digits fp EmptyString) by eauto.
  destruct ip as [|c ip]; [done|]. cbn [String.length Nat.add Nat.eqb]. reflexivity.
Qed.

(** Rounding to the nearest integer stays on its side of an integer. *)
Lemma round_half_even_le (x : Q) (K : Z) :
  (x <= inject_Z K)%Q → round_half_even x ≤ K.
Proof.
  unfold Qle, round_half_even. cbn [Qnum Qden inject_Z]. intros H.
  pose proof (Z.div_mod (Qnum x) (Z.pos (Qden x)) ltac:(done)) as Hdm.
  pose proof (Z.mod_pos_bound (Qnum x) (Z.pos (Qden x)) ltac:(done)) as Hb.
  repeat case_match; try nia; rewrite ?Z.ltb_lt, ?Z.ltb_ge in *; nia.
Qed.

Lemma round_half_even_ge (x : Q) (K : Z) :
  (inject_Z K <= x)%Q → K ≤ round_half_even x.
Proof.
  unfold Qle, round_half_even. cbn [Qnum Qden inject_Z]. intros H.
  pose proof (Z.div_mod (Qnum x) (Z.pos (Qden x)) ltac:(done)) as Hdm.
  pose proof (Z.mod_pos_bound (Qnum x) (Z.pos (Qden x)) ltac:(done)) as Hb.
  repeat case_match; try nia; rewrite ?Z.ltb_lt, ?Z.ltb_ge in *; nia.
Qed.

(** A ratio printed with [prec] decimals reads back as the ratio rounded to
    [prec] decimals. *)
Lemma float_of_format_fixed (prec : nat) (q : Q) :
  (0 < prec)%nat →
  float_of_string (format_fixed prec q)
  = Some (scale10 (round_half_even (q * (10 ^ Z.of_nat prec # 1))) (- Z.of_nat prec)).
Proof.
  intros Hprec. unfold format_fixed.
  set (n := round_half_even (q * (10 ^ Z.of_nat prec # 1))).
  destruct (str_of_Z_digits (Z.abs n) (Z.abs_nonneg n)) as (_ & Hd & Hv).
  destruct (split_fraction prec (str_of_Z (Z.abs n))) as [ip fp] eqn:E.
  apply split_fraction_digits in E as (Hi & Hdi & Hdf & Hlen & Hval); [|done].
  assert (fp ≠ EmptyString) as Hf by (intros ->; simpl in Hlen; lia).
  assert ((prec =? 0)%nat = false) as -> by (apply Nat.eqb_neq; lia).
  assert (0 < 10 ^ Z.of_nat prec) as Hpow by (apply Z.pow_pos_nonneg; lia).
  destruct (Qlt_le_dec q 0) as [Hq|Hq].
  - rewrite (float_of_decimal true ip fp) by done. cbn zeta. rewrite Hlen, Hval, Hv.
    assert (n ≤ 0) as Hn; [|by replace (- Z.abs n) with n by lia].
    apply round_half_even_le. unfold Qle, Qlt in *. cbn in *. nia.
  - rewrite <- (app_nil_l (ip +:+ "." +:+ fp)).
    rewrite (float_of_decimal false ip fp) by done. cbn zeta. rewrite Hlen, Hval, Hv.
    assert (0 ≤ n) as Hn; [|by replace (Z.abs n) with n by lia].
    apply round_half_even_ge. unfold Qle in *. cbn in *. nia.
Qed.
End NumFacts.

(** ** The ratios by tag *)

Module TagFacts.
Import Py Num Re ReSem PyFacts SitesParser SortFacts DictFacts TableFacts BoundFacts ReFacts
  SitesFacts NumFacts.

Lemma dict_set_Forall_pair {V} (P : string * V → Prop) (k : string) (v : V) (d : dict V) :
  Forall P d → P (k, v) → Forall P (dict_set k v d).
Proof.
  intros Hd Hk. induction d as [|[k' v'] d IH]; simpl; [by constructor|].
  apply Forall_cons in Hd as [H1 H2].
  destruct (String.eqb k k'); constructor; auto.
Qed.

Lemma dict_set_keeps_key {V} (k k' : string) (v : V) (d : dict V) :
  is_Some (dict_get k d) → is_Some (dict_get k (dict_set k' v d)).
Proof. rewrite dict_get_set. by destruct (String.eqb k k'). Qed.

Lemma number_tags_Forall (P : string * Q → Prop) (l : list Q) (i : nat) (d : dict Q) :
  (∀ j x, (i ≤ j)%nat → x ∈ l → P ("#" +:+ str_of_nat j, x)) →
  Forall P d → Forall P (number_tags i l d).
Proof.
  revert i d. induction l as [|x l IH]; intros i d Hl Hd; [done|]. cbn [number_tags].
  apply IH.
  - intros j y Hj Hy. apply Hl; [lia|by right].
  - apply dict_set_Forall_pair; [done|]. apply Hl; [lia|by left].
Qed.

Lemma number_tags_keeps_key (k : string) (l : list Q) (i : nat) (d : dict Q) :
  is_Some (dict_get k d) → is_Some (dict_get k (number_tags i l d)).
Proof.
  revert i d. induction l as [|x l IH]; intros i d Hd; [done|]. cbn [number_tags].
  by apply IH, dict_set_keeps_key.
Qed.

(** The ratios of the table of branches lie within the bound. *)
Lemma branches_in_bounds (content : string) :
  Forall (λ kv, in_bounds (snd kv) = true) (extract_omega_by_branches content).
Proof.
  unfold extract_omega_by_branches. destruct (negb _); [constructor|].
  destruct (lines_after_header _); [|constructor].
  apply scan_branches_keeps; [|split; constructor].
  intros row branch x _ _ Hx. by apply row_omega_bounds in Hx.
Qed.

(** A ratio within the bound, printed with six decimals and read back, is
    within the bound. *)
Lemma read_back_in_bounds (omega : Q) :
  in_bounds omega = true →
  ∃ x, float_of_string (format_fixed 6 omega) = Some x ∧ in_bounds x = true.
Proof.
  intros [Hlo Hhi]%in_bounds_iff. rewrite float_of_format_fixed by lia.
  eexists. split; [reflexivity|]. apply in_bounds_iff.
  set (n := round_half_even _).
  assert (-10000000 ≤ n ≤ 100000000)%Z as Hn.
  { split; [apply round_half_even_ge|apply round_half_even_le];
      unfold Qle in *; cbn in *; lia. }
  unfold scale10. change (0 <=? - Z.of_nat 6)%Z with false. cbn iota.
  change (Z.to_pos (10 ^ (- - Z.of_nat 6))) with 1000000%positive.
  rewrite Qred_correct. unfold Qle. cbn. lia.
Qed.

(** Rounding to the nearest integer moves by a half at most. *)
Lemma round_half_even_near (x : Q) :
  (x - (1 # 2) <= inject_Z (round_half_even x))%Q
  ∧ (inject_Z (round_half_even x) <= x + (1 # 2))%Q.
Proof.
  unfold Qle, round_half_even, Qminus, Qplus, Qopp. cbn [Qnum Qden inject_Z].
  pose proof (Z.div_mod (Qnum x) (Z.pos (Qden x)) ltac:(done)) as Hdm.
  pose proof (Z.mod_pos_bound (Qnum x) (Z.pos (Qden x)) ltac:(done)) as Hb.
  rewrite !Pos2Z.inj_mul.
  repeat case_match; rewrite ?Z.ltb_lt, ?Z.ltb_ge in *; split; nia.
Qed.

(** A ratio printed with six decimals and read back has moved by half a
    millionth at most. *)
Lemma read_back_near (omega x : Q) :
  float_of_string (format_fixed 6 omega) = Some x →
  (omega - (1 # 2000000) <= x)%Q ∧ (x <= omega + (1 # 2000000))%Q.
Proof.
  rewrite float_of_format_fixed by lia. intros [= <-].
  destruct (round_half_even_near (omega * (10 ^ Z.of_nat 6 # 1))) as [H1 H2].
  set (n := round_half_even _) in *.
  unfold scale10. change (0 <=? - Z.of_nat 6)%Z with false. cbn iota.
  change (Z.to_pos (10 ^ (- - Z.of_nat 6))) with 1000000%positive.
  change (10 ^ Z.of_nat 6 # 1) with (1000000 # 1) in *.
  rewrite Qred_correct.
  assert (n # 1000000 == inject_Z n * (1 # 1000000))%Q as ->
    by (unfold Qeq; cbn; lia).
  split; lra.
Qed.

(** The keys of the grouping by printed ratio come from the items. *)
Lemma unique_by_value_keys (R : Q → Prop) (items : dict Q)
    (unique_omegas : dict (list string)) :
  Forall (λ kv, R (snd kv)) items →
  Forall (λ kv, ∃ omega, R omega ∧ fst kv = format_fixed 6 omega) unique_omegas →
  Forall (λ kv, ∃ omega, R omega ∧ fst kv = format_fixed 6 omega)
    (unique_by_value items unique_omegas).
Proof.
  revert unique_omegas. induction items as [|[branch omega] items IH];
    intros unique_omegas Hi Hu; [done|].
  apply Forall_cons in Hi as [Ho Hi]. cbn [unique_by_value]. apply IH; [done|].
  apply dict_set_Forall_pair; [done|]. by exists omega.
Qed.

(** The keys read back: none fails. *)
Lemma float_keys_read_back (R : Q → Prop) (d : dict (list string)) :
  Forall (λ kv, ∃ omega, (R omega ∧ in_bounds omega = true)
                         ∧ fst kv = format_fixed 6 omega) d →
  ∃ keyed, float_keys d = Some keyed
           ∧ Forall (λ xv, ∃ omega, R omega ∧ in_bounds omega = true
                            ∧ float_of_string (format_fixed 6 omega) = Some (fst xv)) keyed.
Proof.
  induction d as [|[k v] d IH]; intros Hd; [by exists []|].
  apply Forall_cons in Hd as [(omega & [Hr Ho] & Hk) Hd]. simpl in Hk. subst k.
  destruct (IH Hd) as (keyed & E & Hb).
  destruct (read_back_in_bounds omega Ho) as (x & Ex & Hx).
  exists ((x, v) :: keyed). cbn [float_keys]. rewrite Ex, E.
  split; [done|]. constructor; [|done]. by exists omega.
Qed.

(** The entries of the dict of branches. *)
Lemma branches_entries (content : string) :
  Forall (λ kv, dict_get (fst kv) (extract_omega_by_branches content) = Some (snd kv)
                ∧ in_bounds (snd kv) = true) (extract_omega_by_branches content).
Proof.
  assert (Forall (λ kv, in_bounds (snd kv) = true) (extract_omega_by_branches content)
          ∧ NoDup (map fst (extract_omega_by_branches content))) as [Hb Hnd].
  { unfold extract_omega_by_branches. destruct (negb _); [split; constructor|].
    destruct (lines_after_header _); [|split; constructor].
    apply scan_branches_keeps; [|split; constructor].
    intros row branch x _ _ Hx. by apply row_omega_bounds in Hx. }
  apply Forall_forall. intros [branch omega] Hin. cbn [fst snd]. split.
  - by apply dict_get_elem.
  - by apply (proj1 (Forall_forall _ _) Hb (branch, omega)).
Qed.

(** The fallback on the table: every ratio it returns is a ratio of the
    table, printed with six decimals and read back. *)
Lemma tags_from_table_values (content : string) :
  Forall (λ kv, ∃ omega,
            (∃ branch, dict_get branch (extract_omega_by_branches content) = Some omega)
            ∧ in_bounds omega = true
            ∧ float_of_string (format_fixed 6 omega) = Some (snd kv))
    (tags_from_table content).
Proof.
  unfold tags_from_table. pose proof (branches_entries content) as Hb.
  destruct (extract_omega_by_branches content) as [|b0 branches] eqn:E; [done|].
  rewrite <- E in *. clear E b0 branches.
  destruct (float_keys_read_back
              (λ omega, ∃ branch, dict_get branch (extract_omega_by_branches content)
                                  = Some omega)
              (unique_by_value (extract_omega_by_branches content) []))
    as (keyed & -> & Hk).
  { apply (unique_by_value_keys (λ omega, (∃ branch, _) ∧ in_bounds omega = true));
      [|constructor].
    eapply Forall_impl; [exact Hb|]. intros [branch omega] [H1 H2]. eauto. }
  assert (∀ xv, xv ∈ keyed → ∃ omega,
            (∃ branch, dict_get branch (extract_omega_by_branches content) = Some omega)
            ∧ in_bounds omega = true
            ∧ float_of_string (format_fixed 6 omega) = Some (fst xv)) as Hv
    by (by apply Forall_forall).
  destruct (_ <? _)%nat.
  - pose proof (sort_by_perm (λ x y : Q * list string, Qleb (fst x) (fst y)) keyed) as Hp.
    destruct (sort_by _ keyed) as [|[omega0 v0] others]; [done|].
    apply number_tags_Forall.
    + intros j x Hj ([y v] & -> & Hy)%list_elem_of_fmap.
      apply (Hv (y, v)). rewrite <- Hp. by right.
    + cbn [dict_set]. apply Forall_singleton. apply (Hv (omega0, v0)). rewrite <- Hp. by left.
  - destruct keyed as [|[omega v] [|]]; [done| |done].
    cbn [dict_set]. apply Forall_singleton. apply (Hv (omega, v)). by left.
Qed.

Lemma dict_get_number_tags (k : string) (l : list Q) (i : nat) (d : dict Q) :
  (∀ j, k ≠ "#" +:+ str_of_nat j) →
  dict_get k (number_tags i l d) = dict_get k d.
Proof.
  intros Hk. revert i d. induction l as [|x l IH]; intros i d; [done|]. cbn [number_tags].
  rewrite IH, dict_get_set. destruct (String.eqb_spec k ("#" +:+ str_of_nat i)); [|done].
  by destruct (Hk i).
Qed.

Lemma Qleb_total (a b : Q) : Qleb a b = true ∨ Qleb b a = true.
Proof.
  unfold Qleb. rewrite !Qle_bool_iff. destruct (Qlt_le_dec a b) as [H|H]; [left|right]; lra.
Qed.

Lemma Qleb_trans (a b c : Q) : Qleb a b = true → Qleb b c = true → Qleb a c = true.
Proof. unfold Qleb. rewrite !Qle_bool_iff. lra. Qed.

(** The fallback on the table: the tag background holds the least ratio. *)
Lemma tags_from_table_least (content : string) (m : Q) :
  dict_get "background" (tags_from_table content) = Some m →
  Forall (λ kv, (m <= snd kv)%Q) (tags_from_table content).
Proof.
  unfold tags_from_table.
  destruct (extract_omega_by_branches content) as [|b0 branches]; [done|].
  destruct (float_keys _) as [keyed|]; [|done].
  destruct (_ <? _)%nat.
  - pose proof (sort_by_sorted_le (λ x y : Q * list string, Qleb (fst x) (fst y)) keyed
                  (λ a b, Qleb_total (fst a) (fst b))
                  (λ a b c, Qleb_trans (fst a) (fst b) (fst c))) as Hs.
    destruct (sort_by _ keyed) as [|[omega0 v0] others]; [done|].
    rewrite dict_get_number_tags by done. cbn [dict_set dict_get String.eqb Ascii.eqb Bool.eqb].
    intros [= <-]. apply StronglySorted_inv in Hs as [_ Hs].
    apply number_tags_Forall.
    + intros j x _ ([y v] & -> & Hy)%list_elem_of_fmap. cbn [fst snd].
      apply Qle_bool_iff. by apply (proj1 (Forall_forall _ _) Hs (y, v)).
    + apply Forall_singleton. cbn [snd]. lra.
  - destruct keyed as [|[omega v] [|]]; [done| |done].
    cbn [dict_set dict_get String.eqb Ascii.eqb Bool.eqb]. intros [= <-].
    apply Forall_singleton. cbn [snd]. lra.
Qed.

Lemma tags_from_table_background (content : string) :
  tags_from_table content ≠ [] → is_Some (dict_get "background" (tags_from_table content)).
Proof.
  unfold tags_from_table.
  destruct (extract_omega_by_branches content) as [|b0 branches]; [done|].
  destruct (float_keys _) as [keyed|]; [|done].
  destruct (_ <? _)%nat.
  - destruct (sort_by _ keyed) as [|[omega0 v0] others]; [done|].
    intros _. by apply number_tags_keeps_key; eexists.
  - destruct keyed as [|[omega v] [|]]; [done| |done]. intros _. by eexists.
Qed.

(** What holds of every entry the extractor by tags returns: the shape of
    the tag and the range of the ratio. *)
Local Notation "'tag_ok'" :=
  (λ kv : string * Q,
     (fst kv = "background" ∨ fst kv = "foreground"
      ∨ ∃ i, (1 ≤ i)%nat ∧ fst kv = "#" +:+ str_of_nat i)
     ∧ (((-10 <= snd kv)%Q ∧ (snd kv <= 100)%Q) ∨ (snd kv == 999)%Q)).

Lemma tags_from_branchsite_inv (content : string) (d : dict Q) :
  tags_from_branchsite content = Some d →
  Forall tag_ok d
  ∧ (is_Some (dict_get "background" d) ∨ is_Some (dict_get "foreground" d)).
Proof.
  unfold tags_from_branchsite.
  destruct (group1 _) as [bg|]; [|done]. destruct (group1 _) as [fg|]; [|done].
  destruct (last _) as [bg_last|]; [|done]. destruct (last _) as [fg_last|]; [|done].
  destruct (float_of_string bg_last) as [bg_omega|]; [|done].
  destruct (float_of_string fg_last) as [fg_omega|]; [|done].
  destruct (in_bounds bg_omega) eqn:Eb; destruct (in_bounds fg_omega) eqn:Ef;
    cbn [dict_set String.eqb Ascii.eqb Bool.eqb]; intros [= <-];
    try apply in_bounds_iff in Eb; try apply in_bounds_iff in Ef;
    (split; [repeat constructor; cbn [fst snd]; tauto|]); cbn; eauto.
Qed.

Lemma keep_value_range (val_str : string) (x : Q) :
  keep_value val_str = Some x → ((-10 <= x)%Q ∧ (x <= 100)%Q) ∨ (x == 999)%Q.
Proof.
  unfold keep_value. destruct (float_of_string val_str) as [val|]; [|done].
  destruct (in_bounds val) eqn:E; cbn [orb].
  - intros [= <-]. left. by apply in_bounds_iff.
  - destruct (Qeqb val (999 # 1)) eqn:Eq; [|done]. intros [= <-]. right.
    by apply Qeq_bool_iff in Eq.
Qed.

Lemma tags_from_branch_line_inv (content : string) (d : dict Q) :
  tags_from_branch_line content = Some d →
  Forall tag_ok d ∧ is_Some (dict_get "background" d).
Proof.
  unfold tags_from_branch_line. destruct (group1 _) as [values_str|]; [|done].
  assert (∀ x, x ∈ omega_values values_str →
            ((-10 <= x)%Q ∧ (x <= 100)%Q) ∨ (x == 999)%Q) as Hv.
  { intros x (val_str & _ & Hk)%list_elem_of_omap. by apply keep_value_range in Hk. }
  destruct (omega_values values_str) as [|omega [|omega1 rest]]; [done|..];
    intros H; apply (inj Some) in H; subst d.
  - split; [|by eexists]. cbn [dict_set]; apply Forall_singleton.
    split; cbn [fst snd]; [tauto|]. apply Hv. by left.
  - split; [|by apply number_tags_keeps_key; eexists].
    apply number_tags_Forall.
    + intros j x Hj Hx. split; cbn [fst snd]; [right; right; exists j; split; [lia|reflexivity]|].
      apply Hv. by right.
    + cbn [dict_set]; apply Forall_singleton.
      split; cbn [fst snd]; [tauto|]. apply Hv. by left.
Qed.

Lemma tags_from_table_inv (content : string) :
  Forall tag_ok (tags_from_table content).
Proof.
  assert (∀ j, (1 ≤ j)%nat →
            "#" +:+ str_of_nat j = "background" ∨ "#" +:+ str_of_nat j = "foreground"
            ∨ ∃ i, (1 ≤ i)%nat ∧ "#" +:+ str_of_nat j = "#" +:+ str_of_nat i) as Hnum
    by (intros j Hj; right; right; by exists j).
  assert (Forall (λ kv, fst kv = "background" ∨ fst kv = "foreground"
                        ∨ ∃ i, (1 ≤ i)%nat ∧ fst kv = "#" +:+ str_of_nat i)
            (tags_from_table content)) as Hshape.
  { unfold tags_from_table.
    destruct (extract_omega_by_branches content) as [|b0 branches]; [done|].
    destruct (float_keys _) as [keyed|]; [|done].
    destruct (_ <? _)%nat.
    - destruct (sort_by _ keyed) as [|[omega0 v0] others]; [done|].
      apply number_tags_Forall; [intros j x Hj _; by apply Hnum|].
      apply Forall_singleton. by left.
    - destruct keyed as [|[omega v] [|]]; [done| |done]. apply Forall_singleton. by left. }
  pose proof (tags_from_table_values content) as Hval.
  apply Forall_forall. intros kv Hkv. split.
  - by apply (proj1 (Forall_forall _ _) Hshape kv).
  - destruct (proj1 (Forall_forall _ _) Hval kv Hkv) as (omega & _ & Ho & Hx).
    destruct (read_back_in_bounds omega Ho) as (x & Ex & Hb). rewrite Ex in Hx.
    injection Hx as <-. left. by apply in_bounds_iff.
Qed.

(** X23.  Every entry of the dict that [extract_omega_by_tags] returns has
    the tag background, foreground or a number sign followed by a number
    from 1 on, and a ratio within -10..100 or equal to the placeholder 999;
    a dict that is not empty holds the tag background or the tag
    foreground. *)
Theorem extract_omega_by_tags_entries (content : string) :
  (∀ tag v, dict_get tag (extract_omega_by_tags content) = Some v →
     (tag = "background" ∨ tag = "foreground"
      ∨ ∃ i, (1 ≤ i)%nat ∧ tag = "#" +:+ str_of_nat i)
     ∧ (((-10 <= v)%Q ∧ (v <= 100)%Q) ∨ (v == 999)%Q))
  ∧ (extract_omega_by_tags content ≠ [] →
     is_Some (dict_get "background" (extract_omega_by_tags content))
     ∨ is_Some (dict_get "foreground" (extract_omega_by_tags content))).
Proof.
  assert (Forall tag_ok (extract_omega_by_tags content)
          ∧ (extract_omega_by_tags content ≠ [] →
             is_Some (dict_get "background" (extract_omega_by_tags content))
             ∨ is_Some (dict_get "foreground" (extract_omega_by_tags content)))) as [H1 H2].
  { unfold extract_omega_by_tags.
    destruct (tags_from_branchsite content) as [d|] eqn:E1;
      [apply tags_from_branchsite_inv in E1 as [? ?]; by split|].
    destruct (tags_from_branch_line content) as [d|] eqn:E2;
      [apply tags_from_branch_line_inv in E2 as [? ?]; split; [done|by left]|].
    split; [apply tags_from_table_inv|]. intros Hne. left.
    by apply tags_from_table_background. }
  split; [|exact H2]. intros tag v Hget%dict_get_Some.
  by apply (proj1 (Forall_forall _ _) H1 (tag, v)).
Qed.

(** A pattern that is a sequence with a literal in it matches only in a
    text that holds the literal. *)
Lemma search_needs_literal (ic : bool) (rs : list re) (w content : string)
    (caps : list string) :
  lit w ∈ rs → search ic (seq rs) content = Some caps →
  contains (if ic then lower w else w) (if ic then lower content else content) = true.
Proof.
  intros Hw (pre & m & post & -> & Hm)%search_sound.
  destruct (den_seq_elem ic rs (lit w) m caps Hm Hw) as (a & x & b & g & -> & [Hx _]%den_lit).
  apply contains_spec. destruct ic.
  - exists (lower pre +:+ lower a), (lower b +:+ lower post).
    rewrite !lower_app, Hx, !app_assoc. reflexivity.
  - subst x. exists (pre +:+ a), (b +:+ post). rewrite !app_assoc. reflexivity.
Qed.

(** X24.  In a report that holds neither the word background nor, in any
    letter case, the text (dN/dS), the extractor by tags falls back on the
    table of branches: every ratio it returns lies within one millionth of
    a ratio of the dict of branches (it is that ratio printed with six
    decimals and read back; the bound leaves room for the rounding of the
    binary numbers the code computes with), and the tag background holds
    the least of the ratios returned. *)
Theorem extract_omega_by_tags_fallback (content : string) :
  contains "background" content = false →
  contains "(dn/ds)" (lower content) = false →
  (∀ tag v, dict_get tag (extract_omega_by_tags content) = Some v →
     ∃ branch omega,
       dict_get branch (extract_omega_by_branches content) = Some omega
       ∧ (omega - (1 # 1000000) <= v)%Q ∧ (v <= omega + (1 # 1000000))%Q)
  ∧ (∀ m tag v, dict_get "background" (extract_omega_by_tags content) = Some m →
       dict_get tag (extract_omega_by_tags content) = Some v → (m <= v)%Q).
Proof.
  intros H1 H2.
  assert (extract_omega_by_tags content = tags_from_table content) as ->.
  { unfold extract_omega_by_tags.
    assert (tags_from_branchsite content = None) as ->.
    { unfold tags_from_branchsite.
      destruct (search false branchsite_bg_pattern content) as [caps|] eqn:E; [|done].
      apply (search_needs_literal false _ "background") in E; [congruence|].
      rewrite !elem_of_cons. tauto. }
    assert (tags_from_branch_line content = None) as ->; [|done].
    unfold tags_from_branch_line.
    destruct (search true multi_omega_pattern content) as [caps|] eqn:E; [|done].
    apply (search_needs_literal true _ "(dN/dS)") in E; [|rewrite !elem_of_cons; tauto].
    change (contains "(dn/ds)" (lower content) = true) in E. congruence. }
  split.
  - intros tag v Hget%dict_get_Some.
    destruct (proj1 (Forall_forall _ _) (tags_from_table_values content) _ Hget)
      as (omega & [branch Hb] & _ & Hx).
    exists branch, omega. split; [done|].
    destruct (read_back_near omega v Hx) as [Hlo Hhi]. split; lra.
  - intros m tag v Hm Hget%dict_get_Some.
    by apply (proj1 (Forall_forall _ _) (tags_from_table_least content m Hm) (tag, v)).
Qed.

(** The theorem at a report whose table holds the ratios 0.40, 0.42 and
    0.44: the tag background holds 0.40, which is no more than the 0.44 of
    the second tag. *)
Lemma extract_omega_by_tags_fallback_witness :
  dict_get "background" (extract_omega_by_tags Samples.report_3) = Some (2 # 5)
  ∧ dict_get ("#" +:+ str_of_nat 2) (extract_omega_by_tags Samples.report_3) = Some (11 # 25)
  ∧ (2 # 5 <= 11 # 25)%Q.
Proof.
  split; [vm_compute; reflexivity|]. split; [vm_compute; reflexivity|].
  apply (proj2 (extract_omega_by_tags_fallback Samples.report_3
                  ltac:(vm_compute; reflexivity) ltac:(vm_compute; reflexivity))
           (2 # 5) ("#" +:+ str_of_nat 2) (11 # 25)); vm_compute; reflexivity.
Defined.

End TagFacts.

(** ** The whole batch *)

Module BatchTopFacts.
Import Py Num PyFacts Backend AutoCompleteFacts BatchFacts LrtMoreFacts Batch.

Lemma live_comparisons_selected (selected_models : list string) (null_model alt_model : string) :
  (null_model, alt_model) ∈ live_comparisons selected_models →
  null_model ∈ selected_models ∧ alt_model ∈ selected_models ∧ null_model ≠ alt_model.
Proof.
  unfold live_comparisons. rewrite !elem_of_app.
  intros [H|[H|[H|[H|H]]]];
    match type of H with
    | _ ∈ (if ?c then _ else _) => destruct c eqn:E; [|by apply elem_of_nil in H]
    end;
    apply list_elem_of_singleton in H; injection H as -> ->;
    apply andb_true_iff in E as [E1 E2]; apply mem_iff in E1, E2; done.
Qed.

Lemma two_members (l : list string) (a b : string) :
  a ∈ l → b ∈ l → a ≠ b → (1 < length l)%nat.
Proof.
  destruct l as [|x [|y l]]; simpl; [by intros ?%elem_of_nil| |lia].
  intros ->%list_elem_of_singleton ->%list_elem_of_singleton. done.
Qed.

Section Top.

Variable chi2_cdf : Q → Z → Q.

(** A comparison in which no gene has both likelihoods divides by zero. *)
Lemma live_comparison_without_valid (res : gmap string (gmap string run_result))
    (null_model alt_model : string) :
  (∀ gene_name gr null_res alt_res,
     res !! gene_name = Some gr →
     gr !! null_model = Some null_res → gr !! alt_model = Some alt_res →
     lnL null_res = None ∨ lnL alt_res = None) →
  live_comparison chi2_cdf res (null_model, alt_model) = None.
Proof.
  intros Hno. unfold live_comparison. simpl.
  assert (∀ genes, live_genes chi2_cdf null_model alt_model genes res no_counts
                   = Some no_counts) as ->; [|done].
  intros genes. induction genes as [|g genes IH]; [done|]. simpl.
  assert (live_gene chi2_cdf null_model alt_model g (default ∅ (res !! g)) no_counts
          = Some no_counts) as ->; [|exact IH].
  unfold live_gene.
  destruct (res !! g) as [gr|] eqn:Hg; simpl; [|by rewrite lookup_empty].
  destruct (gr !! null_model) as [null_res|] eqn:Hn; [|done].
  destruct (gr !! alt_model) as [alt_res|] eqn:Ha; [|done].
  destruct (Hno g gr null_res alt_res Hg Hn Ha) as [->| ->]; [done|].
  by destruct (lnL null_res).
Qed.

(** X25.  A batch with the tests enabled ends with an exception, raised
    after the summary table has been made, whenever a pair of models that
    the tests compare is selected and no gene has a likelihood for both
    models of the pair - in particular when the input folder holds no
    sequence file, and when every run of one of the two models timed out.
    The comparison is not among those completed. *)
Theorem run_batch_analysis_raises_without_valid_gene (cfg : config)
    (env : string → string → run_env) (files : gmap string string)
    (fas_files : list fas_file) (null_model alt_model : string) :
  run_lrt cfg = true →
  (null_model, alt_model) ∈ live_comparisons (models cfg) →
  NoDup (map stem fas_files) →
  (∀ fas, fas ∈ fas_files →
     (∀ r, outcome cfg env fas null_model = Some r → lnL r = None)
     ∨ (∀ r, outcome cfg env fas alt_model = Some r → lnL r = None)) →
  raised (run_batch_analysis chi2_cdf cfg env files fas_files) = true
  ∧ summary_table (run_batch_analysis chi2_cdf cfg env files fas_files)
    = save_summary files (models cfg) (results (run_all cfg env fas_files))
  ∧ ∀ done r, lrt_outcome (run_batch_analysis chi2_cdf cfg env files fas_files)
              = Some (done, r) →
      (null_model, alt_model) ∉ map fst done.
Proof.
  intros Hlrt Hcmp Hnd Hno.
  destruct (live_comparisons_selected _ _ _ Hcmp) as (Hn & Ha & Hne).
  pose proof (two_members _ _ _ Hn Ha Hne) as Hlen%Nat.ltb_lt.
  assert (live_comparison chi2_cdf (results (run_all cfg env fas_files))
            (null_model, alt_model) = None) as Hnone.
  { apply live_comparison_without_valid. intros g gr null_res alt_res Hg Hgn Hga.
    destruct (decide (g ∈ map stem fas_files)) as [Hin|Hout].
    - apply list_elem_of_fmap in Hin as (fas & -> & Hfas).
      unfold run_all in Hg. rewrite (run_all_lookup cfg env fas_files _ fas Hnd Hfas) in Hg.
      injection Hg as <-. unfold gene_results_of in Hgn, Hga.
      rewrite record_lookup in Hgn by done. rewrite record_lookup in Hga by done.
      destruct (Hno fas Hfas) as [H|H]; [left|right].
      + destruct (outcome cfg env fas null_model) as [r|]; [|by rewrite lookup_empty in Hgn].
        injection Hgn as <-. by apply H.
      + destruct (outcome cfg env fas alt_model) as [r|]; [|by rewrite lookup_empty in Hga].
        injection Hga as <-. by apply H.
    - unfold run_all in Hg. rewrite run_all_other in Hg by done.
      cbn [results] in Hg. by rewrite lookup_empty in Hg. }
  destruct (live_run_raises chi2_cdf _ _ _ Hcmp Hnone) as [Hr Hout].
  unfold raised, run_batch_analysis. cbn [lrt_outcome summary_table].
  rewrite Hlrt, Hlen. cbn [andb]. unfold run_lrt_analysis.
  destruct (live_run chi2_cdf _ _) as [done r]. cbn [fst snd] in *.
  split; [exact Hr|]. split; [reflexivity|]. by intros ? ? [= <- <-].
Qed.

End Top.

(** The theorem at an input folder without sequence files, for the
    selection M0, M1a: the table has its header only, and the batch ends
    with the exception. *)
Lemma run_batch_analysis_raises_without_valid_gene_witness :
  raised (run_batch_analysis (λ _ _, 0%Q)
            (mk_config ["M0"; "M1a"] ∅ (Some (VFloat (1 # 2))) 1 1600 true "tree.nwk"
               None None)
            (λ _ _, mk_env [] [] (Exited 0) None 0) ∅ []) = true
  ∧ length (summary_table
              (run_batch_analysis (λ _ _, 0%Q)
                 (mk_config ["M0"; "M1a"] ∅ (Some (VFloat (1 # 2))) 1 1600 true "tree.nwk"
                    None None)
                 (λ _ _, mk_env [] [] (Exited 0) None 0) ∅ [])) = 1%nat.
Proof.
  destruct (run_batch_analysis_raises_without_valid_gene (λ _ _, 0%Q)
              (mk_config ["M0"; "M1a"] ∅ (Some (VFloat (1 # 2))) 1 1600 true "tree.nwk"
                 None None)
              (λ _ _, mk_env [] [] (Exited 0) None 0) ∅ [] "M0" "M1a") as (H1 & H2 & _).
  - reflexivity.
  - vm_compute. left.
  - constructor.
  - intros fas Hfas. by apply elem_of_nil in Hfas.
  - split; [exact H1|]. rewrite H2. reflexivity.
Defined.

End BatchTopFacts.

(** ** The tree of a report *)

Module TreeFacts.
Import Py Num Re ReSem PyFacts DictFacts ReFacts Branches.

Lemma rstrip_char_app_other (c x : ascii) (a b : string) :
  Ascii.eqb x c = false →
  Setup.rstrip_char c (a +:+ String x b) = a +:+ String x (Setup.rstrip_char c b).
Proof.
  intros Hx. induction a as [|y a IH].
  - rewrite !app_nil_l. cbn [Setup.rstrip_char]. rewrite Hx.
    by destruct (Setup.rstrip_char c b).
  - rewrite !app_cons. cbn [Setup.rstrip_char]. rewrite IH.
    by destruct a.
Qed.

(** The text the loop runs over keeps what stands before a colon. *)
Lemma normalised_prefix (a rest : string) :
  ∃ rest', Setup.rstrip_char ";" (strip ("(" +:+ a +:+ ":" +:+ rest))
           = "(" +:+ a +:+ ":" +:+ rest'.
Proof.
  exists (Setup.rstrip_char ";" (rstrip rest)). unfold strip.
  change (lstrip ("(" +:+ a +:+ ":" +:+ rest)) with ("(" +:+ a +:+ ":" +:+ rest).
  rewrite <- (app_assoc "(" a (":" +:+ rest)).
  change (":" +:+ rest) with (String ":"%char rest).
  rewrite (rstrip_app_nonspace ("(" +:+ a) ":"%char rest) by done.
  rewrite (rstrip_char_app_other ";"%char ":"%char ("(" +:+ a)) by done.
  by rewrite <- (app_assoc "(" a).
Qed.

Lemma span_until_app (stops name rest : string) (d : ascii) :
  all_in (λ c, negb (char_in c stops)) name → char_in d stops = true →
  span_until stops (name +:+ String d rest) = name.
Proof.
  intros Hn Hd. induction name as [|c name IH].
  - rewrite app_nil_l. cbn [span_until]. by rewrite Hd.
  - apply Forall_cons in Hn as [Hc Hn]. apply negb_true_iff in Hc.
    rewrite app_cons. cbn [span_until]. rewrite Hc. by rewrite IH.
Qed.

Lemma get_app_r (a b : string) (n : nat) :
  String.get (String.length a + n) (a +:+ b) = String.get n b.
Proof. induction a as [|c a IH]; [done|]. rewrite app_cons. exact IH. Qed.

Lemma drop_chars_app (a b : string) :
  drop_chars (String.length a) (a +:+ b) = b.
Proof. induction a as [|c a IH]; [by destruct b|]. rewrite app_cons. exact IH. Qed.

Lemma drop_chars_get (n : nat) (s : string) (c : ascii) :
  String.get n s = Some c → ∃ s', drop_chars n s = String c s'.
Proof.
  revert n. induction s as [|x s IH]; intros [|n]; simpl; try done.
  - intros [= ->]. by eexists.
  - apply IH.
Qed.

Section Loop.

Variable newick_str : string.
Variable branch_map : dict pyfloat.

(** At a colon or a semicolon the loop does not move. *)
Lemma step_stuck (st : state) (c : ascii) :
  String.get (Z.to_nat (i st)) newick_str = Some c →
  c = ":"%char ∨ c = ";"%char →
  step newick_str branch_map st = Some st.
Proof.
  intros Hget Hc. unfold step. rewrite Hget.
  destruct (drop_chars_get _ _ _ Hget) as [s' ->].
  destruct st as [i0 stack0 cur0 store0]. cbn [i stack current_node store] in *.
  destruct Hc as [-> | ->]; cbn; do 2 f_equal; lia.
Qed.

Lemma loop_stuck (st : state) (c : ascii) :
  (i st < Z.of_nat (String.length newick_str))%Z →
  String.get (Z.to_nat (i st)) newick_str = Some c →
  c = ":"%char ∨ c = ";"%char →
  ∀ fuel, loop newick_str branch_map fuel st = OutOfFuel.
Proof.
  intros Hlt Hget Hc fuel. induction fuel as [|fuel IH]; [done|]. cbn [loop].
  apply Z.ltb_lt in Hlt. rewrite Hlt. by rewrite (step_stuck st c Hget Hc).
Qed.

Lemma loop_after_step (st st' : state) :
  (i st < Z.of_nat (String.length newick_str))%Z →
  step newick_str branch_map st = Some st' →
  (∀ fuel, loop newick_str branch_map fuel st' = OutOfFuel) →
  ∀ fuel, loop newick_str branch_map fuel st = OutOfFuel.
Proof.
  intros Hlt Hstep Hrest [|fuel]; [done|]. cbn [loop].
  apply Z.ltb_lt in Hlt. by rewrite Hlt, Hstep.
Qed.

Lemma get_Some (n : nat) (s : string) :
  (n < String.length s)%nat → ∃ c, String.get n s = Some c.
Proof.
  revert n. induction s as [|x s IH]; intros [|n]; simpl; try lia; [by eexists|].
  intros H. apply IH. lia.
Qed.

Lemma get_all_in (p : ascii → bool) (n : nat) (s : string) (c : ascii) :
  all_in p s → String.get n s = Some c → p c = true.
Proof.
  revert n. induction s as [|x s IH]; intros [|n] Hs; simpl; try done.
  - intros [= <-]. by apply Forall_cons in Hs as [? _].
  - apply IH. by apply Forall_cons in Hs as [_ ?].
Qed.

(** Anywhere else the loop moves on. *)
Lemma step_progress (st st' : state) (c : ascii) :
  String.get (Z.to_nat (i st)) newick_str = Some c →
  negb (char_in c ":;") = true →
  step newick_str branch_map st = Some st' →
  (i st < i st')%Z.
Proof.
  intros Hget Hc. unfold step. rewrite Hget.
  destruct (drop_chars_get _ _ _ Hget) as [s' Hdrop].
  destruct (Ascii.eqb_spec c "("%char) as [->|H1]; [intros [= <-]; cbn [i]; lia|].
  destruct (Ascii.eqb_spec c ","%char) as [->|H2]; [intros [= <-]; cbn [i]; lia|].
  destruct (Ascii.eqb_spec c ")"%char) as [->|H3].
  - destruct (stack st) as [|id stack']; [done|].
    destruct (attach _ _ _ _) as [current store2]. intros [= <-]. cbn [i]. lia.
  - rewrite Hdrop. cbn [span_until].
    assert (char_in c "(),;:" = false) as ->.
    { unfold char_in in *. cbn [list_ascii_of_string existsb] in *.
      apply negb_true_iff in Hc. rewrite !orb_false_iff in *.
      destruct Hc as (H4 & H5 & _). rewrite H4, H5.
      by rewrite (proj2 (Ascii.eqb_neq _ _) H1), (proj2 (Ascii.eqb_neq _ _) H2),
                 (proj2 (Ascii.eqb_neq _ _) H3). }
    cbn [String.eqb String.length]. destruct (attach _ _ _ _) as [current store2].
    intros [= <-]. cbn [i]. lia.
Qed.

Lemma loop_ends (fuel : nat) (st : state) :
  all_in (λ c, negb (char_in c ":;")) newick_str →
  (0 ≤ i st)%Z →
  (Z.of_nat (String.length newick_str) - i st ≤ Z.of_nat fuel)%Z →
  loop newick_str branch_map (S fuel) st ≠ OutOfFuel.
Proof.
  intros Hall. revert st. induction fuel as [|fuel IH]; intros st H0 Hfuel; cbn [loop].
  - assert ((i st <? Z.of_nat (String.length newick_str))%Z = false) as ->
      by (apply Z.ltb_ge; lia). done.
  - destruct (Z.ltb_spec (i st) (Z.of_nat (String.length newick_str))) as [Hlt|Hge]; [|done].
    destruct (get_Some (Z.to_nat (i st)) newick_str ltac:(lia)) as [c Hget].
    destruct (step newick_str branch_map st) as [st'|] eqn:Hstep; [|done].
    pose proof (step_progress st st' c Hget (get_all_in _ _ _ _ Hall Hget) Hstep).
    apply IH; lia.
Qed.

Lemma loop_more_fuel (fuel k : nat) (st : state) (r : outcome (option nat * list node)) :
  loop newick_str branch_map fuel st = r → r ≠ OutOfFuel →
  loop newick_str branch_map (fuel + k) st = r.
Proof.
  revert st. induction fuel as [|fuel IH]; intros st; cbn [loop Nat.add]; [congruence|].
  destruct (_ <? _)%Z; [|done]. destruct (step _ _ st) as [st'|]; [|done]. apply IH.
Qed.

End Loop.

Lemma not_stop_chars (c : ascii) :
  negb (char_in c "(),;:") = true →
  Ascii.eqb c "("%char = false ∧ Ascii.eqb c ","%char = false ∧ Ascii.eqb c ")"%char = false.
Proof.
  unfold char_in. cbn [list_ascii_of_string existsb]. rewrite negb_true_iff, !orb_false_iff.
  tauto.
Qed.

(** The loop on a text that opens two brackets and goes on with a leaf name
    and a colon. *)
Lemma loop_hangs (name rest : string) (branch_map : dict pyfloat) :
  name ≠ EmptyString → all_in (λ c, negb (char_in c "(),;:")) name →
  ∀ fuel, loop ("((" +:+ name +:+ String ":"%char rest) branch_map fuel
            (mk_state 0 [] None []) = OutOfFuel.
Proof.
  intros Hne Hname. set (s := "((" +:+ name +:+ String ":"%char rest).
  assert (String.length s = 2 + String.length name + S (String.length rest))%nat as Hlen
    by (unfold s; rewrite !length_append; simpl; lia).
  destruct name as [|c name']; [done|]. pose proof Hname as Hname0.
  apply Forall_cons in Hname as [Hc _].
  destruct (not_stop_chars c Hc) as (H1 & H2 & H3).
  apply (loop_after_step s branch_map _
           (mk_state (0 + 1) [0%nat] (Some 0%nat) [mk_node None None (Some None) []]));
    [cbn [i]; lia|reflexivity|].
  apply (loop_after_step s branch_map _
           (mk_state (0 + 1 + 1) [1%nat; 0%nat] (Some 1%nat)
              [mk_node None None (Some None) []; mk_node None None (Some None) []]));
    [cbn [i]; lia|reflexivity|].
  eapply (loop_after_step s branch_map); [cbn [i]; lia| |].
  - unfold step. cbn [i stack current_node store].
    change (String.get (Z.to_nat (0 + 1 + 1)) s) with (Some c). cbv beta iota.
    rewrite H1, H2, H3.
    change (drop_chars (Z.to_nat (0 + 1 + 1)) s)
      with (String c name' +:+ String ":"%char rest).
    rewrite (span_until_app "(),;:" (String c name') rest ":"%char Hname0) by done.
    cbn [String.eqb attach update]. reflexivity.
  - apply (loop_stuck s branch_map _ ":"%char); cbn [i]; [simpl in Hlen; simpl; lia| |by left].
    replace (Z.to_nat (0 + 1 + 1 + Z.of_nat (String.length (String c name')) - 1 + 1))
      with (String.length ("((" +:+ String c name') + 0)%nat
      by (rewrite length_append; simpl; lia).
    unfold s. rewrite <- (app_assoc "((" (String c name')).
    by rewrite (get_app_r ("((" +:+ String c name') (String ":"%char rest) 0).
Qed.

(** X26.  For a report whose first tree line opens two brackets and goes on
    with a leaf name and a colon (a tree with branch lengths),
    [create_tree_json_with_omega] never returns: after the name the loop
    of [parse_newick_to_json] stands at the colon, reads an empty label
    and stays where it is. *)
Theorem create_tree_json_with_omega_hangs (content name rest : string) :
  extract_tree_structure content = Some ("((" +:+ name +:+ ":" +:+ rest) →
  name ≠ EmptyString →
  all_in (λ c, negb (char_in c "(),;:")) name →
  ∀ fuel, create_tree_json_with_omega fuel content = OutOfFuel.
Proof.
  intros Htree Hne Hname fuel. unfold create_tree_json_with_omega. rewrite Htree.
  unfold parse_newick_to_json.
  destruct (normalised_prefix ("(" +:+ name) rest) as [rest' Hnorm].
  change ("(" +:+ ("(" +:+ name) +:+ ":" +:+ rest) with ("((" +:+ name +:+ ":" +:+ rest)
    in Hnorm.
  rewrite Hnorm.
  change ("(" +:+ ("(" +:+ name) +:+ ":" +:+ rest')
    with ("((" +:+ name +:+ String ":"%char rest').
  by apply loop_hangs.
Qed.

(** The theorem at a tree of three species with branch lengths. *)
Lemma create_tree_json_with_omega_hangs_witness :
  create_tree_json_with_omega 1000 "((A: 0.1, B: 0.2): 0.05, C: 0.3);" = OutOfFuel.
Proof.
  apply (create_tree_json_with_omega_hangs "((A: 0.1, B: 0.2): 0.05, C: 0.3);" "A"
           " 0.1, B: 0.2): 0.05, C: 0.3);").
  - vm_compute. reflexivity.
  - done.
  - repeat constructor.
Defined.

(** X27.  For a report whose first tree line holds no colon and no
    semicolon but at its end (a tree without branch lengths),
    [create_tree_json_with_omega] ends: it returns a tree, or raises the
    [IndexError] of a closing bracket that nothing opened.  Every turn of
    the loop moves on by one character at least. *)
Theorem create_tree_json_with_omega_ends (content tree : string) :
  extract_tree_structure content = Some tree →
  all_in (λ c, negb (char_in c ":;")) (Setup.rstrip_char ";" (strip tree)) →
  ∃ r n, r ≠ OutOfFuel
         ∧ ∀ fuel, (n ≤ fuel)%nat → create_tree_json_with_omega fuel content = r.
Proof.
  intros Htree Hall. unfold create_tree_json_with_omega, parse_newick_to_json. rewrite Htree.
  set (s := Setup.rstrip_char ";" (strip tree)) in *.
  set (m := extract_branch_omega_map content).
  exists (loop s m (S (String.length s)) (mk_state 0 [] None [])), (S (String.length s)).
  split; [apply loop_ends; cbn [i]; [done|lia|lia]|].
  intros fuel Hfuel. replace fuel with (S (String.length s) + (fuel - S (String.length s)))%nat
    by lia.
  apply loop_more_fuel; [done|]. apply loop_ends; cbn [i]; [done|lia|lia].
Qed.

(** The theorem at a tree of three species without branch lengths. *)
Lemma create_tree_json_with_omega_ends_witness :
  ∃ r n, r ≠ OutOfFuel
         ∧ ∀ fuel, (n ≤ fuel)%nat → create_tree_json_with_omega fuel "((A,B),C);" = r.
Proof.
  apply (create_tree_json_with_omega_ends "((A,B),C);" "((A,B),C);").
  - vm_compute. reflexivity.
  - vm_compute. repeat constructor.
Defined.

End TreeFacts.

(** ** The table of branches of [branch_extractor.py] *)

Module BranchTableFacts.
Import Py Num Re ReSem PyFacts DictFacts ReFacts SitesFacts Branches.

Lemma prefix_app_cancel (w n b : string) :
  String.prefix (w +:+ n) (w +:+ b) = String.prefix n b.
Proof.
  induction w as [|c w IH]; [by rewrite !app_nil_l|]. rewrite !app_cons. cbn [String.prefix].
  destruct (ascii_dec c c); [exact IH|done].
Qed.

Lemma followed_by_eq (w next s : string) :
  followed_by w next s
  = (if String.prefix w s then String.prefix (w +:+ next) s else true)
    && match s with
       | EmptyString => true
       | String _ s' => followed_by w next s'
       end.
Proof. by destruct s. Qed.

Lemma followed_by_spec (w next s a b : string) :
  followed_by w next s = true → s = a +:+ w +:+ b → String.prefix next b = true.
Proof.
  revert s. induction a as [|c a IH]; intros s H ->.
  - rewrite app_nil_l, followed_by_eq in H. apply andb_true_iff in H as [H _].
    by rewrite prefix_app, prefix_app_cancel in H.
  - rewrite app_cons in H. cbn [followed_by] in H. apply andb_true_iff in H as [_ H].
    by apply (IH _ H).
Qed.

(** The matcher depends on what its continuation answers only. *)
Lemma rep_ext (ic greedy : bool) (p : ascii → bool) (s : string) (k1 k2 : cont) :
  (∀ prev s' caps, k1 prev s' caps = k2 prev s' caps) →
  ∀ prev caps, rep greedy p prev s caps k1 = rep greedy p prev s caps k2.
Proof.
  intros Hk. induction s as [|c s IH]; intros prev caps; cbn [rep]; [apply Hk|].
  rewrite (IH (Some c) caps), (Hk prev (String c s) caps). reflexivity.
Qed.

Lemma run_ext (ic : bool) (r : re) :
  ∀ (k1 k2 : cont), (∀ prev s' caps, k1 prev s' caps = k2 prev s' caps) →
  ∀ prev s caps, run ic r prev s caps k1 = run ic r prev s caps k2.
Proof.
  induction r as [|c|p|p g|p g|r1 IH1|r1 IH1 r2 IH2|r1 IH1 r2 IH2|r1 IH1| |];
    intros k1 k2 Hk prev s caps; cbn [run].
  - apply Hk.
  - destruct s as [|d s']; [done|]. by rewrite Hk.
  - destruct s as [|d s']; [done|]. by rewrite Hk.
  - by apply rep_ext.
  - destruct s as [|d s']; [done|]. by rewrite (rep_ext ic g p s' k1 k2 Hk).
  - by rewrite (IH1 k1 k2 Hk), Hk.
  - apply IH1. intros. by apply IH2.
  - by rewrite (IH1 k1 k2 Hk), (IH2 k1 k2 Hk).
  - apply IH1. intros. apply Hk.
  - destruct s as [|d [|]]; [apply Hk| |done]. by rewrite Hk.
  - by rewrite Hk.
Qed.

Lemma run_seq_app (ic : bool) (l1 l2 : list re) (prev : option ascii) (s : string)
    (caps : list string) (k : cont) :
  run ic (seq (l1 ++ l2)) prev s caps k
  = run ic (seq l1) prev s caps (λ prev' s' caps', run ic (seq l2) prev' s' caps' k).
Proof.
  revert prev s caps. induction l1 as [|r l1 IH]; intros prev s caps; [done|].
  cbn [List.app seq run]. apply run_ext. intros. apply IH.
Qed.

Lemma den_seq_app (ic : bool) (l1 l2 : list re) (m : string) (gs : list string) :
  den ic (seq (l1 ++ l2)) m gs →
  ∃ m1 m2 g1 g2, m = m1 +:+ m2 ∧ gs = g1 ++ g2
                 ∧ den ic (seq l1) m1 g1 ∧ den ic (seq l2) m2 g2.
Proof.
  revert m gs. induction l1 as [|r l1 IH]; intros m gs H.
  - by exists EmptyString, m, [], gs.
  - cbn [List.app seq den] in H. destruct H as (ma & mb & ga & gb & -> & -> & Ha & Hb).
    destruct (IH _ _ Hb) as (m1 & m2 & g1 & g2 & -> & -> & H1 & H2).
    exists (ma +:+ m1), m2, (ga ++ g1), g2. rewrite app_assoc, List.app_assoc.
    split; [done|]. split; [done|]. split; [|done].
    cbn [seq den]. by exists ma, m1, ga, g1.
Qed.

(** A search that succeeds is a match that starts somewhere in the text. *)
Lemma search_run (ic : bool) (r : re) (s : string) (caps : list string) :
  search ic r s = Some caps →
  ∃ pre suf prev, s = pre +:+ suf
                  ∧ run ic r prev suf [] (λ _ _ caps, Some caps) = Some caps.
Proof.
  unfold search. generalize (@None ascii) as prev.
  induction s as [|c s IH]; intros prev; cbn [search_from].
  - destruct (run ic r prev EmptyString [] _) as [x|] eqn:E; [|done].
    intros [= ->]. by exists EmptyString, EmptyString, prev.
  - destruct (run ic r prev (String c s) [] _) as [x|] eqn:E.
    + intros [= ->]. by exists EmptyString, (String c s), prev.
    + intros (pre & suf & prev' & -> & Hr)%IH.
      exists (String c pre), suf, prev'. by rewrite app_cons.
Qed.

(** The row of headers takes no group and ends with its last header. *)
Lemma table_header_match (h : string) (gs : list string) :
  den false (seq table_header) h gs → gs = [] ∧ ∃ h0, h = h0 +:+ "S*dS".
Proof.
  intros H. split.
  - unfold table_header in H. den_parts H. reflexivity.
  - change table_header with (take 20 table_header ++ [lit "S*dS"]) in H.
    apply den_seq_app in H as (m1 & m2 & g1 & g2 & -> & _ & _ & H2).
    cbn [seq den] in H2. destruct H2 as (w & e & ? & ? & -> & _ & [Hw _]%den_lit & -> & _).
    exists m1. by rewrite Hw.
Qed.

(** After a blank line the lazy group is empty. *)
Lemma group_before_blank_line (prev : option ascii) (rest : string) (caps : list string) :
  run false (seq [Grp (Star Sites.any false); Alt (seq [Chr LF; Chr LF]) Eos]) prev
    (String LF (String LF rest)) caps (λ _ _ caps, Some caps)
  = Some (caps ++ [EmptyString]).
Proof.
  cbn [seq run rep Sites.any]. unfold chr_eq. rewrite Ascii.eqb_refl.
  replace (String.length (String LF (String LF rest))
           - String.length (String LF (String LF rest)))%nat with 0%nat by lia.
  reflexivity.
Qed.

(** X28.  When every occurrence of the text S*dS in a report - the end of
    the row of headers of the table of branches - is directly followed by an
    empty line, [extract_branch_table] returns no row and
    [extract_branch_omega_map] the empty dict: the group of the pattern is
    lazy and ends at the first empty line, the one after the headers. *)
Theorem extract_branch_table_blank_line (content : string) :
  followed_by "S*dS" (String LF (String LF EmptyString)) content = true →
  extract_branch_table content = [] ∧ extract_branch_omega_map content = [].
Proof.
  intros Hf.
  assert (extract_branch_table content = []) as Ht; [|split; [done|]].
  2:{ unfold extract_branch_omega_map. by rewrite Ht. }
  unfold extract_branch_table.
  destruct (search false table_pattern content) as [caps|] eqn:E; [|done].
  apply search_run in E as (pre & suf & prev & -> & Hrun).
  unfold table_pattern in Hrun. rewrite run_seq_app in Hrun.
  apply run_sound in Hrun as (h & s1 & gs & prev' & -> & Hh & Hk).
  apply table_header_match in Hh as [-> [h0 ->]].
  assert (String.prefix (String LF (String LF EmptyString)) s1 = true) as Hp.
  { apply (followed_by_spec "S*dS" _ _ (pre +:+ h0) s1 Hf). by rewrite !app_assoc. }
  destruct s1 as [|c1 [|c2 rest]]; cbn [String.prefix] in Hp; [done| |].
  { by destruct (ascii_dec LF c1). }
  destruct (ascii_dec LF c1) as [<-|]; [|done]. destruct (ascii_dec LF c2) as [<-|]; [|done].
  rewrite group_before_blank_line in Hk. injection Hk as <-. reflexivity.
Qed.

(** The theorem at a report laid out as the program [codeml] lays it out,
    with three rows in its table. *)
Lemma extract_branch_table_blank_line_witness :
  extract_branch_table Samples.report_3 = []
  ∧ extract_branch_omega_map Samples.report_3 = [].
Proof.
  apply extract_branch_table_blank_line. vm_compute. reflexivity.
Defined.

End BranchTableFacts.

(** ** Starting a batch from the front end *)

Module FrontEndFacts.
Import Py Num PyFacts AutoCompleteFacts GuiFacts Branches Gui.

Section FrontEnd.

Variable set_iter : list string → list string.
Hypothesis set_iter_perm : ∀ l, set_iter l ≡ₚ remove_dups l.

(** X18.  For a selection ticked among the models of the catalog, the
    front end never asks for the labelled tree of the branch-site models:
    its test looks for the text BranchSite in the names, and no name of the
    catalog or of a null model holds it.  The batch is refused only when
    the branch model is selected without its labelled tree.  Otherwise the
    text of the entry for the initial ratio is read as a number: a text
    that is no number ends the thread with the critical error of its
    [except] and no batch is called; an empty text stands for 0.5; and with
    a number the batch is called with the completed selection as its
    models (completing a second time changes nothing), a timeout of 1600
    seconds and the tests enabled. *)
Theorem start_analysis_validation (checked : list string) (include_neutral : bool)
    (tree_file : string) (tree_branch_labeled tree_branchsite_labeled : option string)
    (custom : gmap string (gmap string Backend.pyval)) (entry_omega : string)
    (cleandata_var : bool) :
  checked ≠ [] →
  (∀ m, m ∈ checked → is_Some (Backend.MODEL_CONFIGS !! m)) →
  needs_branchsite (Backend.auto_complete_null_models set_iter checked include_neutral)
  = false
  ∧ start_analysis set_iter checked include_neutral tree_file tree_branch_labeled
      tree_branchsite_labeled custom entry_omega cleandata_var
    = if Backend.mem "Branch" checked && negb (labeled tree_branch_labeled)
      then BranchTreeMissing
      else
        match (if String.eqb entry_omega EmptyString then Some (Finite (1 # 2))
               else py_float entry_omega) with
        | None => CriticalError
        | Some omega =>
            Batch {| models := Backend.auto_complete_null_models set_iter checked
                                 include_neutral;
                     custom_model_params := custom;
                     labeled_tree_content := tree_branch_labeled;
                     labeled_tree_branchsite := tree_branchsite_labeled;
                     omega := omega;
                     cleandata := if cleandata_var then 1%Z else 0%Z;
                     timeout := 1600;
                     run_lrt := true;
                     tree_file := tree_file |}
        end.
Proof.
  intros Hne Hcat.
  assert (needs_branchsite (Backend.auto_complete_null_models set_iter checked include_neutral)
          = false) as Hbs.
  { unfold needs_branchsite. apply not_true_is_false.
    intros (m & Hm%list_elem_of_In & Hc)%existsb_exists.
    apply (completion_in_catalog set_iter set_iter_perm checked include_neutral m Hcat) in Hm.
    rewrite !elem_of_cons, elem_of_nil in Hm.
    destruct Hm as [->|[->|[->|[->|[->|[->|[->|[->|[]]]]]]]]]; vm_compute in Hc; discriminate Hc. }
  split; [exact Hbs|].
  unfold start_analysis. destruct checked as [|m0 checked']; [done|].
  unfold run_thread. rewrite Hbs. cbn [andb].
  assert (needs_branch (Backend.auto_complete_null_models set_iter (m0 :: checked')
                          include_neutral)
          = Backend.mem "Branch" (m0 :: checked')) as ->.
  { unfold needs_branch. destruct (Backend.mem "Branch" (m0 :: checked')) eqn:E.
    - apply mem_iff. apply (elem_of_expand set_iter set_iter_perm). left. by apply mem_iff.
    - apply mem_false_iff. apply mem_false_iff in E.
      intros [?|(a & _ & Ha)]%(elem_of_expand set_iter set_iter_perm); [done|].
      apply null_pairs_inv in Ha. intuition discriminate. }
  destruct (Backend.mem "Branch" (m0 :: checked') && negb (labeled tree_branch_labeled));
    [done|].
  unfold omega_of_entry, int_of_bool.
  destruct (if String.eqb entry_omega EmptyString then _ else _) as [w|]; [|done].
  destruct include_neutral; [|done].
  by rewrite (completion_twice set_iter set_iter_perm).
Qed.

End FrontEnd.

(** The theorem at the selection of the branch-site model alone, with no
    labelled tree: with the text 0.5 in the entry the batch is called, with
    the text 0,5 it is not. *)
Lemma start_analysis_validation_witness :
  start_analysis remove_dups ["Branch-site"] true "tree.nwk" None None ∅ "0.5" true
  = Batch (mk_batch_config ["Branch-site"; "Branch-site_null"] ∅ None None
             (Finite (1 # 2)) 1 1600 true "tree.nwk")
  ∧ start_analysis remove_dups ["Branch-site"] true "tree.nwk" None None ∅ "0,5" true
    = CriticalError.
Proof.
  split.
  - destruct (start_analysis_validation remove_dups (λ l, reflexivity _) ["Branch-site"] true
                "tree.nwk" None None ∅ "0.5" true) as [_ H].
    + done.
    + intros m ->%list_elem_of_singleton. vm_compute. eexists. reflexivity.
    + rewrite H. reflexivity.
  - destruct (start_analysis_validation remove_dups (λ l, reflexivity _) ["Branch-site"] true
                "tree.nwk" None None ∅ "0,5" true) as [_ H].
    + done.
    + intros m ->%list_elem_of_singleton. vm_compute. eexists. reflexivity.
    + rewrite H. reflexivity.
Defined.

End FrontEndFacts.

(** ** The line of the ratios of the branches in [extract_omega_by_tags] *)

Module BranchLineFacts.
Import Py Num Re ReSem PyFacts DictFacts ReFacts SitesFacts NumFacts BranchTableFacts
  SitesParser SitesParserFacts.

(** *** The text around the label *)

Lemma prefix_drop (w s : string) :
  String.prefix w s = true → s = w +:+ TagSpec.drop (String.length w) s.
Proof.
  revert s. induction w as [|c w IH]; intros s H; [done|].
  destruct s as [|d s]; [done|]. cbn [String.prefix] in H.
  destruct (ascii_dec c d) as [->|]; [|done].
  rewrite app_cons. cbn [String.length TagSpec.drop]. by rewrite <- (IH s H).
Qed.

Lemma after_first_split (w s : string) :
  TagSpec.after_first w s ≠ EmptyString →
  s = before_first w s +:+ w +:+ TagSpec.after_first w s.
Proof.
  induction s as [|c s IH]; cbn [TagSpec.after_first before_first].
  - destruct (String.prefix w EmptyString) eqn:E; [|done]. intros _.
    rewrite app_nil_l. by apply prefix_drop.
  - destruct (String.prefix w (String c s)) eqn:E.
    + intros _. rewrite app_nil_l. by apply prefix_drop.
    + intros H. rewrite app_cons. by rewrite <- (IH H).
Qed.

(** The text up to the end of the line holds no line feed, and what
    follows it is nothing or starts with one. *)
Lemma before_first_char (c : ascii) (s : string) :
  ∃ t, s = before_first (String c EmptyString) s +:+ t
       ∧ (t = EmptyString ∨ ∃ t', t = String c t')
       ∧ all_in (λ x, negb (Ascii.eqb x c)) (before_first (String c EmptyString) s).
Proof.
  induction s as [|d s (t & Hs & Ht & Ha)].
  - exists EmptyString. split; [done|]. split; [by left|constructor].
  - cbn [before_first String.prefix]. destruct (ascii_dec c d) as [->|Hne].
    + assert (String.prefix EmptyString s = true) as -> by (by destruct s).
      exists (String d s). split; [done|]. split; [right; by exists s|constructor].
    + exists t. rewrite app_cons, <- Hs. split; [done|]. split; [done|].
      constructor; [|done]. apply negb_true_iff, Ascii.eqb_neq. congruence.
Qed.

(** *** No match starts before the label *)

Lemma lower_7 (L : string) :
  lower L = "(dn/ds)" →
  ∃ c1 c2 c3 c4 c5 c6 c7,
    L = String c1 (String c2 (String c3 (String c4 (String c5 (String c6 (String c7 ""))))))
    ∧ lower_ascii c1 = "("%char ∧ lower_ascii c2 = "d"%char ∧ lower_ascii c3 = "n"%char
    ∧ lower_ascii c4 = "/"%char ∧ lower_ascii c5 = "d"%char ∧ lower_ascii c6 = "s"%char
    ∧ lower_ascii c7 = ")"%char.
Proof.
  destruct L as [|c1 [|c2 [|c3 [|c4 [|c5 [|c6 [|c7 [|]]]]]]]]; try discriminate.
  cbn [lower]. intros [= H1 H2 H3 H4 H5 H6 H7].
  by exists c1, c2, c3, c4, c5, c6, c7.
Qed.

Lemma literal_before_label (L rest u a : string) :
  lower L = "(dn/ds)" →
  L +:+ rest = u +:+ TagSpec.LABEL +:+ a →
  contains "(dn/ds)" (lower u) = true.
Proof.
  intros (c1 & c2 & c3 & c4 & c5 & c6 & c7 & -> & H1 & H2 & H3 & H4 & H5 & H6 & H7)%lower_7.
  unfold TagSpec.LABEL. intros H.
  do 7 (destruct u as [|? u];
        [cbn [String.append] in H; injection H; intros; subst;
         match goal with
         | K : lower_ascii "w" = _ |- _ => by vm_compute in K
         end|];
        cbn [String.append] in H; injection H as <- H).
  cbn [lower]. rewrite H1, H2, H3, H4, H5, H6, H7.
  apply (contains_app_l "(dn/ds)" "(dn/ds)" (lower u)). reflexivity.
Qed.

Lemma blanks_before_label (wsp L rest u a : string) :
  all_in isspace wsp →
  lower L = "(dn/ds)" →
  wsp +:+ L +:+ rest = u +:+ TagSpec.LABEL +:+ a →
  contains "(dn/ds)" (lower u) = true.
Proof.
  intros Hw HL. revert u. induction wsp as [|c wsp IH]; intros u H.
  - rewrite app_nil_l in H. by apply (literal_before_label L rest u a).
  - apply Forall_cons in Hw as [Hc Hw]. rewrite app_cons in H.
    destruct u as [|x u].
    + unfold TagSpec.LABEL in H. cbn [String.append] in H.
      injection H as -> _. by vm_compute in Hc.
    + cbn [String.append] in H. injection H as <- H. cbn [lower].
      rewrite contains_cons, (IH Hw u H). apply orb_true_r.
Qed.

(** A match of the pattern of the line that starts before the label needs
    the text (dN/dS), in some letter case, before the label. *)
Lemma no_match_before_label (prev : option ascii) (b a : string) (caps : list string)
    (k : cont) :
  b ≠ EmptyString →
  contains "(dn/ds)" (lower b) = false →
  run true multi_omega_pattern prev (b +:+ TagSpec.LABEL +:+ a) caps k = None.
Proof.
  intros Hb Hno.
  destruct (run true multi_omega_pattern prev (b +:+ TagSpec.LABEL +:+ a) caps k)
    as [res|] eqn:E; [|done].
  apply run_sound in E as (m & s' & gs & prev' & Hs & Hm & _).
  change multi_omega_pattern
    with (seq ([Chr "w"; Star ws true; lit "(dN/dS)"]
               ++ [Star ws true; lit "for"; Plus ws true; lit "branche"; Opt (Chr "s");
                   Star ws true; Chr ":"; Star ws true; Grp (Plus dg_dot_ws false); eol]))
    in Hm.
  apply den_seq_app in Hm as (m1 & m2 & g1 & g2 & -> & _ & H1 & _).
  cbn [seq den] in H1.
  destruct H1 as (x & y & ? & ? & -> & _ & (d & -> & _ & _)
                  & (wsp & z & ? & ? & -> & _ & [Hw _]
                     & (L & e & ? & ? & -> & _ & [HL _]%den_lit & -> & _))).
  destruct b as [|c b]; [done|].
  rewrite !app_assoc in Hs. cbn [String.append] in Hs.
  injection Hs as _ Hs. rewrite app_nil_l in Hs. symmetry in Hs.
  change (lower L = "(dn/ds)") in HL.
  apply blanks_before_label in Hs; [|exact Hw|exact HL].
  cbn [lower] in Hno. rewrite contains_cons, Hs, orb_true_r in Hno. done.
Qed.

(** The search passes over a stretch in which no match starts. *)
Lemma search_from_skip (ic : bool) (r : re) (pre suf : string) (prev : option ascii) :
  (∀ a b prev', pre = a +:+ b → b ≠ EmptyString →
     run ic r prev' (b +:+ suf) [] (λ _ _ caps, Some caps) = None) →
  ∃ prev', search_from ic r prev (pre +:+ suf) = search_from ic r prev' suf.
Proof.
  revert prev. induction pre as [|c pre IH]; intros prev H; [by exists prev|].
  rewrite app_cons. cbn [search_from]. rewrite <- app_cons.
  rewrite (H EmptyString (String c pre) prev eq_refl ltac:(done)).
  apply IH. intros a b prev' -> Hb. apply (H (String c a) b prev'); [by rewrite app_cons|done].
Qed.

(** *** The match at the label *)

(** The pattern up to the colon, on the label. *)
Lemma label_run (prev : option ascii) (rest : string) (caps res : list string) (k : cont) :
  k (Some ":"%char) rest caps = Some res →
  run true (seq [Chr "w"; Star ws true; lit "(dN/dS)"; Star ws true; lit "for";
                 Plus ws true; lit "branche"; Opt (Chr "s"); Star ws true; Chr ":"])
    prev (TagSpec.LABEL +:+ rest) caps k = Some res.
Proof.
  intros H.
  let t := eval cbv [TagSpec.LABEL String.append] in (TagSpec.LABEL +:+ rest) in
  change (TagSpec.LABEL +:+ rest) with t.
  vm_compute. rewrite H. reflexivity.
Qed.

Lemma search_from_hit (ic : bool) (r : re) (prev : option ascii) (s : string)
    (caps : list string) :
  run ic r prev s [] (λ _ _ caps, Some caps) = Some caps →
  search_from ic r prev s = Some caps.
Proof. intros H. destruct s; cbn [search_from]; by rewrite H. Qed.

Lemma lstrip_app (a b : string) :
  lstrip a ≠ EmptyString → lstrip (a +:+ b) = lstrip a +:+ b.
Proof.
  induction a as [|c a IH]; [done|]. rewrite app_cons. cbn [lstrip].
  destruct (isspace c); [exact IH|]. by rewrite app_cons.
Qed.

(** The greedy white space takes all the white space there is, when the
    rest of the pattern matches after it. *)
Lemma rep_greedy_lstrip (s : string) (caps res : list string) (k : cont) :
  (∀ prev', k prev' (lstrip s) caps = Some res) →
  ∀ prev, rep true ws prev s caps k = Some res.
Proof.
  intros H. induction s as [|c s IH]; intros prev; cbn [rep]; [apply H|].
  cbn [lstrip] in H. change (ws c) with (isspace c). destruct (isspace c).
  - by rewrite (IH H).
  - apply H.
Qed.

(** The lazy repetition stops at the first place where the rest of the
    pattern matches. *)
Lemma rep_lazy_first (p : ascii → bool) (m t : string) (caps res : list string) (k : cont) :
  all_in p m →
  (∀ a b prev', m = a +:+ b → b ≠ EmptyString → k prev' (b +:+ t) caps = None) →
  (∀ prev', k prev' t caps = Some res) →
  ∀ prev, rep false p prev (m +:+ t) caps k = Some res.
Proof.
  intros Hm Hnone Hk. induction m as [|c m IH]; intros prev.
  - rewrite app_nil_l. destruct t as [|c t]; cbn [rep]; [apply Hk|].
    rewrite Hk. by destruct (p c).
  - apply Forall_cons in Hm as [Hc Hm]. rewrite app_cons. cbn [rep]. rewrite Hc.
    pose proof (Hnone EmptyString (String c m) prev eq_refl ltac:(done)) as E.
    rewrite app_cons in E. rewrite E. apply IH; [done|].
    intros a b prev' -> Hb. apply (Hnone (String c a) b prev'); [by rewrite app_cons|done].
Qed.

Lemma chr_eq_LF (c : ascii) : chr_eq true LF c = Ascii.eqb c LF.
Proof. destruct c as [[] [] [] [] [] [] [] []]; vm_compute; reflexivity. Qed.

(** The group of the values: from the first value to the end of the line. *)
Lemma values_group (prev : option ascii) (g tail : string) :
  g ≠ EmptyString →
  all_in dg_dot_ws g →
  all_in (λ x, negb (Ascii.eqb x LF)) g →
  tail = EmptyString ∨ (∃ t', tail = String LF t') →
  run true (seq [Grp (Plus dg_dot_ws false); eol]) prev (g +:+ tail) []
    (λ _ _ caps, Some caps) = Some [g].
Proof.
  intros Hg Hp Hn Ht. destruct g as [|d g]; [done|].
  apply Forall_cons in Hp as [Hd Hp]. apply Forall_cons in Hn as [_ Hn].
  rewrite app_cons. cbn [seq run]. rewrite Hd.
  apply rep_lazy_first; [done| |].
  - intros a b prev' -> Hb. destruct b as [|c b]; [done|].
    apply all_in_app in Hn as [_ [Hc _]%Forall_cons]. apply negb_true_iff in Hc.
    rewrite app_cons. cbn [eol run]. rewrite chr_eq_LF, Hc.
    by destruct (b +:+ tail).
  - intros prev'. rewrite <- app_cons, substring_prefix. cbn [List.app eol run].
    destruct Ht as [->|[t' ->]]; [done|]. by rewrite chr_eq_LF, Ascii.eqb_refl.
Qed.

(** *** The tags in order *)

Lemma str_of_nat_inj (i j : nat) : str_of_nat i = str_of_nat j → i = j.
Proof.
  unfold str_of_nat. intros H.
  destruct (str_of_Z_digits (Z.of_nat i) ltac:(lia)) as (_ & _ & Hi).
  destruct (str_of_Z_digits (Z.of_nat j) ltac:(lia)) as (_ & _ & Hj).
  rewrite H, Hj in Hi. lia.
Qed.

Lemma dict_set_fresh {V} (k : string) (v : V) (d : dict V) :
  dict_get k d = None → dict_set k v d = d ++ [(k, v)].
Proof.
  induction d as [|[k' v'] d IH]; [done|]. cbn [dict_get dict_set List.app].
  destruct (String.eqb k k'); [done|]. intros H. by rewrite (IH H).
Qed.

Lemma dict_get_snoc {V} (k k' : string) (v : V) (d : dict V) :
  k ≠ k' → dict_get k (d ++ [(k', v)]) = dict_get k d.
Proof.
  intros Hne. induction d as [|[k0 v0] d IH]; cbn [dict_get List.app].
  - by destruct (String.eqb_spec k k').
  - by rewrite IH.
Qed.

Lemma number_tags_numbered (l : list Q) (i : nat) (d : dict Q) :
  (∀ j, (i ≤ j)%nat → dict_get ("#" +:+ str_of_nat j) d = None) →
  number_tags i l d = d ++ TagSpec.numbered i l.
Proof.
  revert i d. induction l as [|x l IH]; intros i d Hd; [by rewrite List.app_nil_r|].
  cbn [number_tags TagSpec.numbered]. rewrite dict_set_fresh by (apply Hd; lia).
  rewrite IH; [by rewrite <- List.app_assoc|].
  intros j Hj. rewrite dict_get_snoc; [apply Hd; lia|].
  intros E. injection E as E%str_of_nat_inj. lia.
Qed.

(** C5.  Take a report whose background/foreground stage gives nothing,
    in which the text (dN/dS) does not occur, in any letter case, before
    the first label "w (dN/dS) for branches:", and whose line after that
    label is written with digits, points and white space only.  Of the
    values the line lists, those within -10..100 and those equal to 999
    are kept, the others dropped; when two or more are kept, the first
    goes under "background" and the i-th subsequent one under "#i", in
    that order.  The line "0.35 0.06 999.00" yields background 0.35,
    #1 0.06, #2 999. *)
Theorem extract_omega_by_tags_branch_line :
  (∀ content : string,
     tags_from_branchsite content = None →
     contains "(dn/ds)" (lower (before_first TagSpec.LABEL content)) = false →
     all_in TagSpec.plain (TagSpec.line_rest content) →
     (2 <= length (List.filter TagSpec.kept (TagSpec.listed_values content)))%nat →
     extract_omega_by_tags content =
       TagSpec.tags_of_values (List.filter TagSpec.kept (TagSpec.listed_values content)))
  ∧ extract_omega_by_tags Samples.branch_line =
      [("background", 7 # 20); ("#1", 3 # 50); ("#2", 999 # 1)].
Proof.
  split; [|vm_compute; reflexivity].
  intros content Hbs Hpre Hplain Hlen.
  unfold TagSpec.listed_values in *. set (vals := TagSpec.line_rest content) in *.
  assert (lstrip vals ≠ EmptyString) as Hg.
  { intros E. rewrite <- split_ws_lstrip, E in Hlen. simpl in Hlen. lia. }
  assert (TagSpec.after_first TagSpec.LABEL content ≠ EmptyString) as Haft.
  { intros E. apply Hg. unfold vals, TagSpec.line_rest. by rewrite E. }
  apply after_first_split in Haft.
  destruct (before_first_char LF (TagSpec.after_first TagSpec.LABEL content))
    as (tail & Hsplit & Htail & Hnl).
  fold (TagSpec.line_rest content) in Hsplit, Hnl. fold vals in Hsplit, Hnl.
  assert (search true multi_omega_pattern content = Some [lstrip vals]) as Hsearch.
  { unfold search. rewrite Haft.
    destruct (search_from_skip true multi_omega_pattern
                (before_first TagSpec.LABEL content)
                (TagSpec.LABEL +:+ TagSpec.after_first TagSpec.LABEL content) None)
      as [prev' ->].
    { intros a b prev' E Hb. apply no_match_before_label; [done|].
      apply not_true_is_false. intros Hc. rewrite E, lower_app in Hpre.
      by rewrite (contains_app_r _ _ _ Hc) in Hpre. }
    apply search_from_hit.
    change multi_omega_pattern
      with (seq ([Chr "w"; Star ws true; lit "(dN/dS)"; Star ws true; lit "for";
                  Plus ws true; lit "branche"; Opt (Chr "s"); Star ws true; Chr ":"]
                 ++ [Star ws true; Grp (Plus dg_dot_ws false); eol])).
    rewrite run_seq_app. apply label_run. rewrite Hsplit.
    change (rep true ws (Some ":"%char) (vals +:+ tail) []
              (λ prev' s' caps', run true (seq [Grp (Plus dg_dot_ws false); eol])
                                   prev' s' caps' (λ _ _ caps, Some caps))
            = Some [lstrip vals]).
    apply rep_greedy_lstrip. intros prev''. rewrite lstrip_app by done.
    apply values_group; [done| |by apply all_in_lstrip|done].
    apply all_in_lstrip. exact Hplain. }
  unfold extract_omega_by_tags, tags_from_branch_line. rewrite Hbs, Hsearch.
  cbn [group1]. unfold omega_values.
  rewrite split_ws_strip, split_ws_lstrip, omap_keep_value.
  destruct (List.filter TagSpec.kept (omap float_of_string (split_ws vals)))
    as [|v [|v' r]]; simpl in Hlen; try lia.
  cbn [TagSpec.tags_of_values dict_set]. rewrite number_tags_numbered; [done|].
  intros j _. cbn [dict_get]. by destruct (String.eqb_spec ("#" +:+ str_of_nat j) "background").
Qed.

(** The theorem at the line of the specification. *)
Lemma extract_omega_by_tags_branch_line_witness :
  extract_omega_by_tags Samples.branch_line =
    TagSpec.tags_of_values
      (List.filter TagSpec.kept (TagSpec.listed_values Samples.branch_line)).
Proof.
  apply (proj1 extract_omega_by_tags_branch_line Samples.branch_line).
  - vm_compute. reflexivity.
  - vm_compute. reflexivity.
  - by repeat constructor.
  - vm_compute. lia.
Defined.

(** C5 as stated fails.  The line "0.35 500.0 0.06" lists three numeric
    values, and the third goes under "#1", the second under no tag.  The
    lines "0.35 -0.06 0.20" and "0.35 1e-05 0.20" list three numeric
    values each, and the pattern of the line, which takes digits, points
    and white space only, does not match them: no tag is returned. *)
Lemma extract_omega_by_tags_drops_values :
  (TagSpec.listed_values Samples.branch_line_500 = [7 # 20; 500 # 1; 3 # 50]
   ∧ extract_omega_by_tags Samples.branch_line_500 = [("background", 7 # 20); ("#1", 3 # 50)]
   ∧ extract_omega_by_tags Samples.branch_line_500
       ≠ TagSpec.tags_of_values (TagSpec.listed_values Samples.branch_line_500))
  ∧ (TagSpec.listed_values Samples.branch_line_signed = [7 # 20; -3 # 50; 1 # 5]
     ∧ extract_omega_by_tags Samples.branch_line_signed = [])
  ∧ (TagSpec.listed_values Samples.branch_line_exponent = [7 # 20; 1 # 100000; 1 # 5]
     ∧ extract_omega_by_tags Samples.branch_line_exponent = []).
Proof.
  repeat split; try (vm_compute; reflexivity). vm_compute. discriminate.
Qed.

End BranchLineFacts.

(** ** Models outside the catalog *)

Module RunFileFacts.
Import Py Num PyFacts Run.

(** Without profiles and control files of the caller the run is the one of
    the plain configuration. *)
Lemma run_single_analysis_plain (cfg : Backend.config) (fas : Backend.fas_file)
    (model_name : string) (env : Backend.run_env) :
  Backend.run_single_analysis cfg fas model_name env
  = match Backend.ctl_content cfg fas model_name with
    | None =>
        (None, ["ERROR creating .ctl [" +:+ model_name +:+ "] " +:+ Backend.stem fas +:+ ": "])
    | Some _ => after_ctl cfg fas model_name env
    end.
Proof. reflexivity. Qed.


Section World.

Variable fs : string → at_path.
Variable replace_settings : string → string → string → string → option string.


End World.


End RunFileFacts.
